(** * WaveClip display caches: a shallow embedding of WaveClip.cpp

    The development follows the C++ source function by function:
    the invalid-region tracker of [WaveCache], the two helpers
    [findCorrection] and [fillWhere], the two cache-reconciling queries
    [WaveClip::GetWaveDisplay] and [WaveClip::GetSpectrogram], and the
    mutators of [WaveClip] that end in [MarkChanged].

    Number model.  [int], [long] and [sampleCount] are integers of [Z];
    signed overflow is undefined in C++ and is not part of the model,
    except for the generation counter [mDirty], whose increment is written
    with its 32-bit wrap-around, and for the number of samples that
    [GetWaveDisplay] keeps in an [int], whose conversion is written with
    the same wrap-around.  [double] and [float] are exact rationals
    of [Q]: the arithmetic of the source is carried out without rounding,
    [floor] is [Qfloor], a conversion to an integer type truncates toward
    zero, and infinities and NaN do not exist (a division by zero gives 0,
    as in [Q]).  Every concrete input on which the code of WaveClip.cpp
    is evaluated below is made of values that binary64 represents exactly
    and whose intermediate results are exact too, so that the evaluation is
    the one of the C++ code.  Locks ([ODLocker]) are not modelled: every
    function is run sequentially.

    The collaborators of the clip are parameters: the sample sequence is
    any instance of [Sequence.API], the numerical kernel of the spectrogram
    any instance of [SpecCache.Kernel], and [sqrt] any function.  The
    module [Example] gives one instance of each, on which the code can be
    run, and the module [Counting] a sequence that is reduced to its
    number of samples. *)

From Stdlib Require Import ZArith QArith Qround Qabs List Bool Lia Lqa Sorted.
Import ListNotations.

Local Open Scope Z_scope.

(** ** Numbers *)

Definition double := Q.
Definition float := Q.
Definition sampleCount := Z.

Bind Scope Q_scope with double float.

(** [a < b] on doubles, as a boolean. *)
Definition Qlt_bool (a b : Q) : bool := negb (Qle_bool b a).

(** [std::max(a, b)] is [(a < b) ? b : a]. *)
Definition std_max (a b : double) : double := if Qlt_bool a b then b else a.

(** [std::min(a, b)] is [(b < a) ? b : a]. *)
Definition std_min (a b : double) : double := if Qlt_bool b a then b else a.

(** Conversion of a double to [int], [long] or [sampleCount]: the fractional
    part is discarded (truncation toward zero). *)
Definition to_integer (x : double) : Z := Z.quot (Qnum x) (Zpos (Qden x)).

(** Conversion of a [sampleCount] to [int], as compilers carry it out: the
    value modulo 2^32, in the range of a 32-bit two's complement
    integer. *)
Definition to_int (x : sampleCount) : Z := (x + 2 ^ 31) mod 2 ^ 32 - 2 ^ 31.

(** [floor] of math.h, whose result is then converted to an integer type. *)
Definition floor (x : double) : Z := Qfloor x.

(** [fabs] of math.h. *)
Definition fabs (x : double) : double := Qabs x.

(** ** Vectors: reading and writing ranges of a [std::vector] *)

(** [v[i]] for an index in range; the default stands for a read out of
    range, which the source never relies on. *)
Definition at_ {A} (d : A) (v : list A) (i : Z) : A :=
  if i <? 0 then d else nth (Z.to_nat i) v d.

(** The [n] elements of [v] from position [p] on: what a callee sees behind
    the pointer [&v[p]] when it is told the length [n]. *)
Definition slice {A} (v : list A) (p n : Z) : list A :=
  firstn (Z.to_nat n) (skipn (Z.to_nat p) v).

(** Writing [n] elements [src] at position [p] of [v] (a [memcpy] into
    [&v[p]], or a callee filling the range through the pointer). *)
Definition blit {A} (v : list A) (p n : Z) (src : list A) : list A :=
  firstn (Z.to_nat p) v ++ firstn (Z.to_nat n) src ++
  skipn (Z.to_nat p + Z.to_nat n) v.

(** [v[i] = x]. *)
Definition set_at {A} (v : list A) (i : Z) (x : A) : list A :=
  blit v i 1 [x].

(** [count_if(first, last, bind2nd(less<int>(), 0))]. *)
Definition count_negative (v : list Z) : Z :=
  Z.of_nat (length (filter (fun b => b <? 0) v)).

(** ** The sample sequence, an external collaborator *)

Module Columns.

(** The four arrays behind the pointers [min], [max], [rms] and [bl] that
    [Sequence::GetWaveDisplay] is handed, over the range it is told to
    fill. *)
Record t : Type := mk {
  min : list float;
  max : list float;
  rms : list float;
  bl : list Z
}.

End Columns.

Module Sequence.

(** Modelled from the spec: the Sample Sequence, an external collaborator
    whose header Sequence.h is not among the sources; these are the calls
    that [WaveClip] makes on it.  A call that can fail returns its [bool] together with the
    state it leaves behind; [GetWaveDisplay] returns its [bool] together
    with the contents of the range behind its four output pointers, given
    the contents before the call, the number [len] of columns and the
    [len + 1] entries behind [where]. *)
Class API (S : Type) : Type := {
  GetNumSamples : S -> sampleCount;
  GetMaxBlockSize : S -> sampleCount;
  GetIdealAppendLen : S -> sampleCount;
  GetSampleFormat : S -> Z;
  GetWaveDisplay : S -> Columns.t -> Z -> list sampleCount -> bool * Columns.t;
  Set_ : S -> list float -> sampleCount -> sampleCount -> bool * S;
  Append : S -> list float -> sampleCount -> bool * S;
  AppendAlias : S -> sampleCount -> sampleCount -> bool * S;
  AppendCoded : S -> sampleCount -> sampleCount -> bool * S;
  InsertSilence : S -> sampleCount -> sampleCount -> bool * S;
  Delete : S -> sampleCount -> sampleCount -> bool * S;
  Paste : S -> sampleCount -> S -> bool * S;
  Copy : S -> sampleCount -> sampleCount -> option S;
  ConvertToSampleFormat : S -> Z -> bool * bool * S;
  (** The loop of [WaveClip::Resample], which feeds the sequence through
      [::Resample] into a new sequence: the new sequence, or [None] when
      [error] is set. *)
  Resampled : S -> Z -> Z -> option S
}.

End Sequence.

(** ** The invalid regions of a wave cache *)

Module InvalidRegion.

(** [class InvalidRegion]: start and end pixel count (not samples). *)
Record t : Type := mk { start : Z; end_ : Z }.

End InvalidRegion.

Module WaveCache.

(** [class WaveCache], with [mRegions] as its last field. *)
Record t : Type := mk {
  dirty : Z;
  len : Z;
  start : double;
  pps : double;
  rate : Z;
  where_ : list sampleCount;
  min : list float;
  max : list float;
  rms : list float;
  bl : list Z;
  numODPixels : Z;
  mRegions : list InvalidRegion.t
}.

(** A copy of the cache with another region vector. *)
Definition with_regions (c : t) (rs : list InvalidRegion.t) : t :=
  mk (dirty c) (len c) (start c) (pps c) (rate c) (where_ c)
     (min c) (max c) (rms c) (bl c) (numODPixels c) rs.

(** The default constructor [WaveCache()]. *)
Definition empty : t :=
  mk (-1) (-1) (-1 # 1) 0%Q (-1) [] [] [] [] [] 0 [].

(** [CountODPixels(start, end)] on the vector [bl]. *)
Definition CountODPixels (bl : list Z) (s e : Z) : Z :=
  count_negative (slice bl s (e - s)).

(** The constructor [WaveCache(len_, pixelsPerSecond, rate_, t0, dirty_)]:
    the vectors are value-initialised, so every entry is zero. *)
Definition create (len_ : Z) (pixelsPerSecond : double) (rate_ : Z)
    (t0 : double) (dirty_ : Z) : t :=
  let bl0 := repeat 0 (Z.to_nat len_) in
  mk dirty_ len_ t0 pixelsPerSecond rate_
     (repeat 0 (Z.to_nat (1 + len_)))
     (repeat 0%Q (Z.to_nat len_))
     (repeat 0%Q (Z.to_nat len_))
     (repeat 0%Q (Z.to_nat len_))
     bl0
     (CountODPixels bl0 0 len_)
     [].

(** The test of both loops of [AddInvalidRegion]: the region [r] and the
    range [s..e] intersect or are pixel adjacent. *)
Definition touching (r : InvalidRegion.t) (s e : Z) : bool :=
  (InvalidRegion.start r <=? e + 1) && (InvalidRegion.end_ r >=? s - 1).

(** "take the union region": [r] is widened to cover [s..e]. *)
Definition union_into (r : InvalidRegion.t) (s e : Z) : InvalidRegion.t :=
  InvalidRegion.mk
    (if InvalidRegion.start r >? s then s else InvalidRegion.start r)
    (if InvalidRegion.end_ r <? e then e else InvalidRegion.end_ r).

(** The first loop: a linear search for the first region that touches the
    new range; that region is widened and the search stops ([break]).
    [None] when the loop ends with [added == false]. *)
Fixpoint union_first (rs : list InvalidRegion.t) (invalStart invalEnd : Z)
    : option (list InvalidRegion.t) :=
  match rs with
  | [] => None
  | region :: rest =>
      if touching region invalStart invalEnd
      then Some (union_into region invalStart invalEnd :: rest)
      else option_map (cons region) (union_first rest invalStart invalEnd)
  end.

(** [mRegions.erase(mRegions.begin() + k)]. *)
Definition erase {A} (k : nat) (v : list A) : list A :=
  firstn k v ++ skipn (S k) v.

(** The second loop, "now we must go and patch up all the regions that
    overlap", started at index [i].  One unit of fuel is one iteration.
    After [erase] the reference [region] designates the element that has
    moved to position [i], or, when the merged region was the last one, the
    vacated slot that still holds the merged region; the loop ends there in
    either case. *)
Fixpoint patch_up (fuel : nat) (i : nat) (rs : list InvalidRegion.t)
    (invalEnd : Z) : list InvalidRegion.t :=
  match fuel with
  | O => rs
  | S fuel' =>
      match nth_error rs i, nth_error rs (i - 1) with
      | Some region, Some prevRegion =>
          if touching region (InvalidRegion.start prevRegion)
                             (InvalidRegion.end_ prevRegion)
          then
            let merged :=
              union_into region (InvalidRegion.start prevRegion)
                                (InvalidRegion.end_ prevRegion) in
            let rs' := erase (i - 1) (firstn i rs ++ merged :: skipn (S i) rs) in
            let seen :=
              match nth_error rs' i with Some r => r | None => merged end in
            if InvalidRegion.start seen >? invalEnd
            then rs'
            else patch_up fuel' (S (i - 1)) rs' invalEnd
          else
            if InvalidRegion.start region >? invalEnd
            then rs
            else patch_up fuel' (S i) rs invalEnd
      | _, _ => rs
      end
  end.

(** The two local variables of [AddInvalidRegion] as they are first
    computed: the sample range converted to pixels with the cache's own
    [pps], before any clipping. *)
Definition invalStart0 (c : t) (sampleStart : sampleCount) : Z :=
  let samplesPerPixel : double := (inject_Z (rate c) / pps c)%Q in
  to_integer ((inject_Z sampleStart - start c * inject_Z (rate c))
              / samplesPerPixel)%Q.

Definition invalEnd0 (c : t) (sampleEnd : sampleCount) : Z :=
  let samplesPerPixel : double := (inject_Z (rate c) / pps c)%Q in
  to_integer ((inject_Z sampleEnd - start c * inject_Z (rate c))
              / samplesPerPixel + 1)%Q.

(** "we need to clip the boundries so they make sense with the cache". *)
Definition clip_to_cache (c : t) (x : Z) : Z :=
  if x <? 0 then 0 else if x >? len c then len c else x.

(** The part of [AddInvalidRegion] that runs under the lock: insertion of
    the pixel range [invalStart..invalEnd] into the region vector, by union
    with the first region it touches or else at the front, followed by the
    patching loop. *)
Definition insert_region (rs : list InvalidRegion.t) (invalStart invalEnd : Z)
    : list InvalidRegion.t :=
  let rs1 :=
    match union_first rs invalStart invalEnd with
    | Some rs' => rs'
    | None => InvalidRegion.mk invalStart invalEnd :: rs
    end in
  patch_up (length rs1) 1 rs1 invalEnd.

(** [void AddInvalidRegion(sampleCount sampleStart, sampleCount sampleEnd)]. *)
Definition AddInvalidRegion (c : t) (sampleStart sampleEnd : sampleCount) : t :=
  if Qeq_bool (pps c) 0 then c else
  let invalStart := invalStart0 c sampleStart in
  let invalEnd := invalEnd0 c sampleEnd in
  if ((invalStart <? 0) && (invalEnd <? 0))
     || ((invalStart >=? len c) && (invalEnd >=? len c))
  then c else
  let invalStart := clip_to_cache c invalStart in
  let invalEnd := clip_to_cache c invalEnd in
  with_regions c (insert_region (mRegions c) invalStart invalEnd).

(** [GetNumInvalidRegions], [GetInvalidRegionStart], [GetInvalidRegionEnd]. *)
Definition GetNumInvalidRegions (c : t) : Z := Z.of_nat (length (mRegions c)).

(** [ClearInvalidRegions]. *)
Definition ClearInvalidRegions (c : t) : t := with_regions c [].

(** The four arrays of the cache over the columns [p .. p + n). *)
Definition columns (c : t) (p n : Z) : Columns.t :=
  Columns.mk (slice (min c) p n) (slice (max c) p n)
             (slice (rms c) p n) (slice (bl c) p n).

(** The cache after a callee has filled the columns [p .. p + n) through
    the pointers [&min[p]], [&max[p]], [&rms[p]] and [&bl[p]]. *)
Definition write_columns (c : t) (p n : Z) (cols : Columns.t) : t :=
  mk (dirty c) (len c) (start c) (pps c) (rate c) (where_ c)
     (blit (min c) p n (Columns.min cols))
     (blit (max c) p n (Columns.max cols))
     (blit (rms c) p n (Columns.rms cols))
     (blit (bl c) p n (Columns.bl cols))
     (numODPixels c) (mRegions c).

(** The four arrays of the cache as a whole, and their replacement. *)
Definition all_columns (c : t) : Columns.t :=
  Columns.mk (min c) (max c) (rms c) (bl c).

Definition set_columns (c : t) (cols : Columns.t) : t :=
  mk (dirty c) (len c) (start c) (pps c) (rate c) (where_ c)
     (Columns.min cols) (Columns.max cols) (Columns.rms cols)
     (Columns.bl cols) (numODPixels c) (mRegions c).

Definition with_numODPixels (c : t) (n : Z) : t :=
  mk (dirty c) (len c) (start c) (pps c) (rate c) (where_ c)
     (min c) (max c) (rms c) (bl c) n (mRegions c).

Definition with_where (c : t) (w : list sampleCount) : t :=
  mk (dirty c) (len c) (start c) (pps c) (rate c) w
     (min c) (max c) (rms c) (bl c) (numODPixels c) (mRegions c).

Section Load.

Context {S : Type} {api : Sequence.API S}.

(** [LoadInvalidRegion(ii, sequence, updateODCount)], on the region itself
    rather than on its index; the [bool] of the sequence is ignored, as in
    the source. *)
Definition LoadInvalidRegion (c : t) (region : InvalidRegion.t)
    (sequence : S) (updateODCount : bool) : t :=
  let invStart := InvalidRegion.start region in
  let invEnd := InvalidRegion.end_ region in
  let regionODPixels :=
    if updateODCount then CountODPixels (bl c) invStart invEnd else 0 in
  let n := invEnd - invStart in
  let c1 :=
    write_columns c invStart n
      (snd (Sequence.GetWaveDisplay sequence (columns c invStart n) n
              (slice (where_ c) invStart (n + 1)))) in
  if updateODCount
  then
    let regionODPixelsAfter := CountODPixels (bl c1) invStart invEnd in
    with_numODPixels c1
      (numODPixels c1 - (regionODPixels - regionODPixelsAfter))
  else c1.

(** [LoadInvalidRegions(sequence, updateODCount)]: every region in turn. *)
Definition LoadInvalidRegions (c : t) (sequence : S) (updateODCount : bool)
    : t :=
  fold_left (fun c' region => LoadInvalidRegion c' region sequence updateODCount)
            (mRegions c) c.

End Load.

End WaveCache.

(** ** The two helpers of the anonymous namespace *)

(** [findCorrection(oldWhere, oldLen, newLen, t0, rate, samplesPerPixel,
    oldX0, correction)]: the two output parameters are returned as a pair
    [(oldX0, correction)]. *)
Definition findCorrection (oldWhere : list sampleCount) (oldLen newLen : Z)
    (t0 rate samplesPerPixel : double) : Z * double :=
  let oldWhere0 : double := (inject_Z (at_ 0%Z oldWhere 1%Z) - samplesPerPixel)%Q in
  let oldWhereLast : double :=
    (oldWhere0 + inject_Z oldLen * samplesPerPixel)%Q in
  let denom : double := (oldWhereLast - oldWhere0)%Q in
  let guessWhere0 : double := (t0 * rate)%Q in
  if Qle_bool oldWhereLast guessWhere0
     || Qle_bool (guessWhere0 + inject_Z newLen * samplesPerPixel)%Q oldWhere0
     || Qlt_bool denom (1 # 2)
  then (oldLen, 0%Q)
  else
    let oldX0 : Z :=
      floor ((1 # 2) + inject_Z oldLen * (guessWhere0 - oldWhere0) / denom)%Q in
    let where0 : double := (oldWhere0 + inject_Z oldX0 * samplesPerPixel)%Q in
    let correction0 : double := (where0 - guessWhere0)%Q in
    (oldX0,
     std_max (- samplesPerPixel)%Q (std_min samplesPerPixel correction0)).

(** The integers [1, 2, ..., n], the values of [x] in the loop of
    [fillWhere]. *)
Definition from_1_to (n : Z) : list Z :=
  map Z.of_nat (seq 1 (Z.to_nat n)).

(** [0.5 + correction + bias + t0 * rate], the local [w0] of [fillWhere]. *)
Definition fillWhere_w0 (bias correction t0 rate : double) : double :=
  ((1 # 2) + correction + bias + t0 * rate)%Q.

(** [fillWhere(where, len, bias, correction, t0, rate, samplesPerPixel)]:
    the contents of the vector [where], which has [len + 1] entries and all
    of them are assigned. *)
Definition fillWhere (len : Z) (bias correction t0 rate samplesPerPixel : double)
    : list sampleCount :=
  let w0 := fillWhere_w0 bias correction t0 rate in
  to_integer (std_max 0%Q (inject_Z (floor w0)))
  :: map (fun x => floor (w0 + inject_Z x * samplesPerPixel)%Q) (from_1_to len).

(** ** The display record handed to [GetWaveDisplay] *)

Module WaveDisplay.

(** What the five pointers [where], [min], [max], [rms] and [bl] of a
    [WaveDisplay] designate.  They are null in a display that was only
    constructed, they designate the display's own vectors after
    [Allocate()], and [GetWaveDisplay] makes them designate the vectors of
    the clip's wave cache; they are always assigned together. *)
Inductive Arrays : Type := Null | Own | Cached.

(** Modelled from the spec: [class WaveDisplay] is declared in WaveClip.h,
    which is not among the sources; it is the record of output buffers
    that the caller hands to [GetWaveDisplay], with the caller-owned
    scratch arrays.  The fields are those that [GetWaveDisplay] reads and
    writes. *)
Record t : Type := mk {
  width : Z;
  arrays : Arrays;
  ownWhere : list sampleCount;
  own : Columns.t
}.

(** [display.where != 0]. *)
Definition allocated (d : t) : bool :=
  match arrays d with Null => false | _ => true end.

End WaveDisplay.

(** [sqrt] of math.h, on the rationals an uninterpreted function. *)
Class Math : Type := { sqrt : double -> double }.

(** ** Filling the columns that no cache provides *)

(** The integers [lo, lo + 1, ..., hi - 1], the values of a loop variable. *)
Definition range (lo hi : Z) : list Z :=
  map (fun k => lo + Z.of_nat k) (seq 0 (Z.to_nat (hi - lo))).

Section Fill.

Context {S : Type} {api : Sequence.API S} {math : Math}.

(** The first loop over the columns [p0 .. p1): the value of [a] when it
    ends, which is the first column whose right end lies beyond the
    sequence, or [p1]. *)
Definition first_beyond (where_ : list sampleCount) (numSamples p0 p1 : Z) : Z :=
  match find (fun a => at_ 0 where_ (a + 1) >? numSamples) (range p0 p1) with
  | Some a => a
  | None => Z.max p0 p1
  end.

(** Minimum, maximum and root mean square of the samples [b], which are
    [len > 0] samples of the append buffer. *)
Definition summarize (b : list float) (len : Z) : float * float * float :=
  let val0 := at_ 0%Q b 0 in
  let '(theMax, theMin, sumsq) :=
    fold_left
      (fun '(theMax, theMin, sumsq) val =>
         (std_max theMax val, std_min theMin val, (sumsq + val * val)%Q))
      (slice b 1 (len - 1))
      (val0, val0, (val0 * val0)%Q) in
  (theMin, theMax, sqrt (sumsq / inject_Z len)%Q).

(** "Handle the columns that land in the append buffer": the loop over
    [i] in [a .. p1), on the four arrays and the flag [didUpdate]. *)
Definition append_columns (where_ : list sampleCount) (numSamples : Z)
    (mAppendBuffer : list float) (mAppendBufferLen : sampleCount)
    (a p1 : Z) (cols : Columns.t) : Columns.t * bool :=
  fold_left
    (fun '(cols, didUpdate) i =>
       let left := at_ 0 where_ i - numSamples in
       let right := at_ 0 where_ (i + 1) - numSamples in
       let left := if left <? 0 then 0 else left in
       let right := if right >? mAppendBufferLen then mAppendBufferLen else right in
       if right >? left
       then
         let len := right - left in
         let '(theMin, theMax, theRms) :=
           summarize (slice mAppendBuffer left len) len in
         (Columns.mk (set_at (Columns.min cols) i theMin)
                     (set_at (Columns.max cols) i theMax)
                     (set_at (Columns.rms cols) i theRms)
                     (set_at (Columns.bl cols) i 1),
          true)
       else (cols, didUpdate))
    (range a p1)
    (cols, false).

(** The columns [p .. p + n) of the four arrays, and their replacement. *)
Definition columns_slice (cols : Columns.t) (p n : Z) : Columns.t :=
  Columns.mk (slice (Columns.min cols) p n) (slice (Columns.max cols) p n)
             (slice (Columns.rms cols) p n) (slice (Columns.bl cols) p n).

Definition columns_blit (cols : Columns.t) (p n : Z) (src : Columns.t)
    : Columns.t :=
  Columns.mk (blit (Columns.min cols) p n (Columns.min src))
             (blit (Columns.max cols) p n (Columns.max src))
             (blit (Columns.rms cols) p n (Columns.rms src))
             (blit (Columns.bl cols) p n (Columns.bl src)).

(** The range [p0 .. p1) that is left for the sequence after the append
    buffer has been looked at, with the arrays as they are then.  The
    number of samples is kept in an [int], as in [int numSamples =
    mSequence->GetNumSamples()]. *)
Definition after_append_buffer (sequence : S)
    (mAppendBuffer : list float) (mAppendBufferLen : sampleCount)
    (where_ : list sampleCount) (p0 p1 : Z) (cols : Columns.t)
    : Z * Columns.t :=
  let numSamples := to_int (Sequence.GetNumSamples sequence) in
  let a := first_beyond where_ numSamples p0 p1 in
  if a <? p1
  then
    let '(cols', didUpdate) :=
      append_columns where_ numSamples mAppendBuffer mAppendBufferLen
                     a p1 cols in
    (if didUpdate then a else p1, cols')
  else (p1, cols).

(** The block [if (p1 > p0) { ... }] of [GetWaveDisplay]: the [bool] of
    the call of [Sequence::GetWaveDisplay] that fetches the columns left
    for the sequence, or [None] when that call is not made, and the arrays
    as they are when the block is left.  [Some false] is the [return
    false] of the source. *)
Definition fill (sequence : S)
    (mAppendBuffer : list float) (mAppendBufferLen : sampleCount)
    (where_ : list sampleCount) (p0 p1 : Z) (cols : Columns.t)
    : option bool * Columns.t :=
  if p1 >? p0
  then
    let '(p1', cols1) :=
      after_append_buffer sequence mAppendBuffer mAppendBufferLen
                          where_ p0 p1 cols in
    if p1' >? p0
    then
      let '(ok, got) :=
        Sequence.GetWaveDisplay sequence
          (columns_slice cols1 p0 (p1' - p0)) (p1' - p0)
          (slice where_ p0 (p1' - p0 + 1)) in
      (Some ok, columns_blit cols1 p0 (p1' - p0) got)
    else (None, cols1)
  else (None, cols).

End Fill.

(** ** The spectrogram cache *)

Module SpectrogramSettings.

(** Modelled from the spec: [SpectrogramSettings::Algorithm], with the
    standard, the reassignment and the autocorrelation algorithm. *)
Inductive Algorithm : Type := algSTFT | algReassignment | algPitchEAC.

Definition Algorithm_eqb (a b : Algorithm) : bool :=
  match a, b with
  | algSTFT, algSTFT | algReassignment, algReassignment
  | algPitchEAC, algPitchEAC => true
  | _, _ => false
  end.

(** Modelled from the spec: [class SpectrogramSettings] is declared in
    prefs/SpectrogramSettings.h, which is not among the sources; these are
    the algorithm identifier and its parameters, the fields that
    WaveClip.cpp reads. *)
Record t : Type := mk {
  windowType : Z;
  windowSize : Z;
  zeroPaddingFactor : Z;
  frequencyGain : Z;
  algorithm : Algorithm
}.

End SpectrogramSettings.

Module SpecCache.

Import SpectrogramSettings.

(** Modelled from the spec: [class SpecCache] is declared in WaveClip.h,
    which is not among the sources; these are the fields that WaveClip.cpp
    uses.  The algorithm of an invalid cache is no algorithm at all. *)
Record t : Type := mk {
  len : Z;
  algorithm : option Algorithm;
  pps : double;
  start : double;
  windowType : Z;
  windowSize : Z;
  zeroPaddingFactor : Z;
  frequencyGain : Z;
  freq : list float;
  where_ : list sampleCount;
  dirty : Z
}.

(** Modelled from the spec: the default constructor [SpecCache()] of
    WaveClip.h, which makes an invalid cache; its staleness rules mirror
    those of the waveform cache, whose default constructor sets the length
    and the generation to -1. *)
Definition empty : t :=
  mk (-1) None (-1 # 1) (-1 # 1) (-1) (-1) (-1) (-1) [] [] (-1).

(** Modelled from the spec: the constructor [SpecCache(cacheLen, algorithm,
    pps, start, windowType, windowSize, zeroPaddingFactor, frequencyGain)]
    of WaveClip.h, which makes a cache to be filled in: a flat buffer of
    [len] columns of [(windowSize * zeroPaddingFactor) / 2] bins and a
    mapping of [len + 1] sample indices. *)
Definition create (cacheLen : Z) (algorithm_ : Algorithm)
    (pps_ start_ : double)
    (windowType_ windowSize_ zeroPaddingFactor_ frequencyGain_ : Z) : t :=
  mk cacheLen (Some algorithm_) pps_ start_
     windowType_ windowSize_ zeroPaddingFactor_ frequencyGain_
     (repeat 0%Q (Z.to_nat (cacheLen * ((windowSize_ * zeroPaddingFactor_) / 2))))
     (repeat 0 (Z.to_nat (cacheLen + 1)))
     (-1).

Definition with_freq (c : t) (f : list float) : t :=
  mk (len c) (algorithm c) (pps c) (start c) (windowType c) (windowSize c)
     (zeroPaddingFactor c) (frequencyGain c) f (where_ c) (dirty c).

Definition with_where (c : t) (w : list sampleCount) : t :=
  mk (len c) (algorithm c) (pps c) (start c) (windowType c) (windowSize c)
     (zeroPaddingFactor c) (frequencyGain c) (freq c) w (dirty c).

Definition with_dirty (c : t) (d : Z) : t :=
  mk (len c) (algorithm c) (pps c) (start c) (windowType c) (windowSize c)
     (zeroPaddingFactor c) (frequencyGain c) (freq c) (where_ c) d.

(** [bool SpecCache::Matches(dirty_, pixelsPerSecond, settings, rate)]. *)
Definition Matches (c : t) (dirty_ : Z) (pixelsPerSecond : double)
    (settings : SpectrogramSettings.t) (rate : double) : bool :=
  let tstep : double := (1 / pixelsPerSecond)%Q in
  let ppsMatch :=
    Qlt_bool (fabs (tstep - 1 / pps c)%Q * inject_Z (len c))%Q (1 / rate)%Q in
  ppsMatch
  && (dirty c =? dirty_)
  && (windowType c =? SpectrogramSettings.windowType settings)
  && (windowSize c =? SpectrogramSettings.windowSize settings)
  && (zeroPaddingFactor c =? SpectrogramSettings.zeroPaddingFactor settings)
  && (frequencyGain c =? SpectrogramSettings.frequencyGain settings)
  && match algorithm c with
     | Some a => Algorithm_eqb a (SpectrogramSettings.algorithm settings)
     | None => false
     end.

(** The numerical kernel of the spectrogram, taken as it is: the window
    extraction and the transforms of [CalculateOneSpectrum], which returns
    its [bool] and the buffer [freq] as it leaves it, the conversion of one
    column to decibels at the end of [Populate], and
    [ComputeSpectrogramGainFactors].  [W] is the [WaveTrackCache] the
    samples are read through. *)
Class Kernel (W : Type) : Type := {
  CalculateOneSpectrum :
    SpectrogramSettings.t -> W -> t -> Z -> sampleCount ->
    double -> double -> double -> Z -> Z -> list float -> bool * list float;
  ConvertToDecibels :
    SpectrogramSettings.t -> list float -> list float -> Z -> Z -> list float;
  ComputeSpectrogramGainFactors : Z -> double -> Z -> list float
}.

Section Populate.

Context {W : Type} {kernel : Kernel W}.

(** The build option [EXPERIMENTAL_ZERO_PADDED_SPECTROGRAMS] of
    Experimental.h. *)
Variable EXPERIMENTAL_ZERO_PADDED_SPECTROGRAMS : bool.

(** The local [zeroPaddingFactor] of [Populate] and of [GetSpectrogram]. *)
Definition effective_zeroPaddingFactor (settings : SpectrogramSettings.t) : Z :=
  if EXPERIMENTAL_ZERO_PADDED_SPECTROGRAMS
  then
    match SpectrogramSettings.algorithm settings with
    | algPitchEAC => 1
    | _ => SpectrogramSettings.zeroPaddingFactor settings
    end
  else 1.

(** One of the two loops of [Populate] that look beyond an edge of the
    range when the algorithm is reassignment: at most [limit] calls, on the
    columns [xx], [xx + step], ..., stopped by the first call that returns
    [false]. *)
Fixpoint look_beyond (limit : nat) (calc : Z -> list float -> bool * list float)
    (xx step : Z) (f : list float) : list float :=
  match limit with
  | O => f
  | Datatypes.S limit' =>
      let '(result, f') := calc xx f in
      if result then look_beyond limit' calc (xx + step) step f' else f'
  end.

(** The locals [fftLen], [half] and [gainFactors] of [Populate]. *)
Definition Populate_fftLen (settings : SpectrogramSettings.t) : Z :=
  SpectrogramSettings.windowSize settings * effective_zeroPaddingFactor settings.

Definition Populate_gainFactors (settings : SpectrogramSettings.t)
    (rate : double) : list float :=
  if Algorithm_eqb (SpectrogramSettings.algorithm settings) algPitchEAC
  then []
  else ComputeSpectrogramGainFactors (Populate_fftLen settings) rate
         (SpectrogramSettings.frequencyGain settings).

(** One turn of the loop [for (int jj = 0; jj < 2; ++jj)] of [Populate], on
    the buffer [freq]: the columns [lowerBoundX .. upperBoundX) are computed
    one at a time; for reassignment the columns beyond both edges are
    looked at and the columns of the range are then converted to
    decibels. *)
Definition Populate_range (c : t) (settings : SpectrogramSettings.t)
    (waveTrackCache : W) (numSamples : sampleCount)
    (offset rate pixelsPerSecond : double)
    (lowerBoundX upperBoundX : Z) (f : list float) : list float :=
  let reassignment :=
    Algorithm_eqb (SpectrogramSettings.algorithm settings) algReassignment in
  let fftLen := Populate_fftLen settings in
  let half := fftLen / 2 in
  let gainFactors := Populate_gainFactors settings rate in
  let calc xx f :=
    CalculateOneSpectrum settings waveTrackCache (with_freq c f) xx
      numSamples offset rate pixelsPerSecond lowerBoundX upperBoundX
      gainFactors in
  let f1 :=
    fold_left (fun f xx => snd (calc xx f)) (range lowerBoundX upperBoundX) f in
  if reassignment
  then
    let pixelsPerSample : double := (pixelsPerSecond / rate)%Q in
    let limit :=
      Z.min (to_integer ((1 # 2) + inject_Z fftLen * pixelsPerSample)%Q) 100 in
    let f2 := look_beyond (Z.to_nat limit) calc (lowerBoundX - 1) (-1) f1 in
    let f3 := look_beyond (Z.to_nat limit) calc upperBoundX 1 f2 in
    fold_left (fun f xx => ConvertToDecibels settings gainFactors f half xx)
              (range lowerBoundX upperBoundX) f3
  else f1.

(** [void SpecCache::Populate(settings, waveTrackCache, copyBegin, copyEnd,
    numPixels, numSamples, offset, rate, pixelsPerSecond)]: "Loop over the
    ranges before and after the copied portion and compute anew." *)
Definition Populate (c : t) (settings : SpectrogramSettings.t)
    (waveTrackCache : W) (copyBegin copyEnd numPixels : Z)
    (numSamples : sampleCount) (offset rate pixelsPerSecond : double) : t :=
  let turn :=
    Populate_range c settings waveTrackCache numSamples offset rate
                   pixelsPerSecond in
  with_freq c (turn copyEnd numPixels (turn 0 copyBegin (freq c))).

End Populate.

End SpecCache.

(** ** The statistics of the sample sequence *)

Module SequenceStatistics.

(** Modelled from the spec: two more calls on the Sample Sequence, whose
    header Sequence.h is not among the sources.  [GetMinMax(start, len,
    min, max)] and [GetRMS(start, len, rms)] return their [bool] together
    with the values behind their output pointers when they return. *)
Class API (S : Type) : Type := {
  GetMinMax : S -> sampleCount -> sampleCount -> bool * float * float;
  GetRMS : S -> sampleCount -> sampleCount -> bool * float
}.

End SequenceStatistics.

(** ** The clip *)

Module WaveClip.

Import SpectrogramSettings.

(** [class WaveClip]: the fields that the display queries read and that the
    mutators below write.  The envelope and the cut lines are left out: no
    display query reads them.  A cache pointer is [None] when it is null.
    The append buffer holds its samples as [CopySamples] converts them to
    floats. *)
Record t (S : Type) : Type := mk {
  mOffset : double;
  mRate : Z;
  mDirty : Z;
  mSequence : S;
  mWaveCache : option WaveCache.t;
  mSpecCache : option SpecCache.t;
  mAppendBuffer : list float;
  mAppendBufferLen : sampleCount
}.

Arguments mk {S}.
Arguments mOffset {S}.
Arguments mRate {S}.
Arguments mDirty {S}.
Arguments mSequence {S}.
Arguments mWaveCache {S}.
Arguments mSpecCache {S}.
Arguments mAppendBuffer {S}.
Arguments mAppendBufferLen {S}.

(** Which [return] of a display query was reached: the one that serves the
    request from the caller's own arrays, the one that "satisfies the
    request completely from the cache", or the one after a new cache was
    built. *)
Inductive Path : Type := OwnArrays | FullHit | Rebuilt.

(** What [GetWaveDisplay] leaves behind: its [bool], the display, the
    output parameter [isLoadingOD] and the clip; with them, which [return]
    was reached and the [bool] of the call of [Sequence::GetWaveDisplay]
    that fetches the missing columns, when that call was made. *)
Record WaveDisplayResult (S : Type) : Type := mkWaveDisplayResult {
  wd_return : bool;
  wd_display : WaveDisplay.t;
  wd_isLoadingOD : bool;
  wd_clip : t S;
  wd_path : Path;
  wd_fetched : option bool
}.

Arguments mkWaveDisplayResult {S}.
Arguments wd_return {S}.
Arguments wd_display {S}.
Arguments wd_isLoadingOD {S}.
Arguments wd_clip {S}.
Arguments wd_path {S}.
Arguments wd_fetched {S}.

(** What [GetSpectrogram] leaves behind: its [bool], the arrays behind the
    output pointers [spectrogram] and [where], and the clip. *)
Record SpectrogramResult (S : Type) : Type := mkSpectrogramResult {
  sp_return : bool;
  sp_spectrogram : list float;
  sp_where : list sampleCount;
  sp_clip : t S;
  sp_path : Path
}.

Arguments mkSpectrogramResult {S}.
Arguments sp_return {S}.
Arguments sp_spectrogram {S}.
Arguments sp_where {S}.
Arguments sp_clip {S}.
Arguments sp_path {S}.

Definition with_WaveCache {S} (clip : t S) (c : option WaveCache.t) : t S :=
  mk (mOffset clip) (mRate clip) (mDirty clip) (mSequence clip) c
     (mSpecCache clip) (mAppendBuffer clip) (mAppendBufferLen clip).

Definition with_SpecCache {S} (clip : t S) (c : option SpecCache.t) : t S :=
  mk (mOffset clip) (mRate clip) (mDirty clip) (mSequence clip)
     (mWaveCache clip) c (mAppendBuffer clip) (mAppendBufferLen clip).

(** The tolerant comparison of the pps values in [GetWaveDisplay]:
    [fabs(tstep - 1.0 / pps) * numPixels < (1.0 / mRate)]. *)
Definition ppsMatch (cache_pps : double) (numPixels : Z)
    (pixelsPerSecond : double) (mRate_ : Z) : bool :=
  let tstep : double := (1 / pixelsPerSecond)%Q in
  Qlt_bool (fabs (tstep - 1 / cache_pps)%Q * inject_Z numPixels)%Q
           (1 / inject_Z mRate_)%Q.

(** The locals [match] of [GetWaveDisplay]. *)
Definition wave_match {S} (clip : t S) (numPixels : Z)
    (pixelsPerSecond : double) : bool :=
  match mWaveCache clip with
  | Some cache =>
      ppsMatch (WaveCache.pps cache) numPixels pixelsPerSecond (mRate clip)
      && (WaveCache.len cache >? 0)
      && (WaveCache.dirty cache =? mDirty clip)
  | None => false
  end.

(** The block [if (match) { findCorrection(...); copyBegin = ...; copyEnd =
    ...; }] shared by both queries, with the initial values of its four
    variables when [match] is false: [(oldX0, correction, copyBegin,
    copyEnd)]. *)
Definition copy_plan (match_ : bool) (oldWhere : list sampleCount)
    (oldLen numPixels : Z) (t0 : double) (mRate_ : Z)
    (samplesPerPixel : double) : Z * double * Z * Z :=
  if match_
  then
    let '(oldX0, correction) :=
      findCorrection oldWhere oldLen numPixels t0 (inject_Z mRate_)
                     samplesPerPixel in
    let copyBegin := Z.min numPixels (Z.max 0 (- oldX0)) in
    let copyEnd := Z.min numPixels (copyBegin + oldLen - Z.max 0 oldX0) in
    (oldX0, correction, copyBegin, copyEnd)
  else (0, 0%Q, 0, 0).

Section Queries.

Context {S : Type} {api : Sequence.API S} {math : Math}.
Context {W : Type} {kernel : SpecCache.Kernel W}.

(** The build option [EXPERIMENTAL_ZERO_PADDED_SPECTROGRAMS] of
    Experimental.h. *)
Variable EXPERIMENTAL_ZERO_PADDED_SPECTROGRAMS : bool.

(** [bool WaveClip::GetWaveDisplay(display, t0, pixelsPerSecond,
    isLoadingOD) const]. *)
Definition GetWaveDisplay (clip : t S) (display : WaveDisplay.t)
    (t0 pixelsPerSecond : double) : WaveDisplayResult S :=
  let numPixels := WaveDisplay.width display in
  if WaveDisplay.allocated display
  then
    let '(fetched, cols) :=
      fill (mSequence clip) (mAppendBuffer clip) (mAppendBufferLen clip)
           (WaveDisplay.ownWhere display) 0 numPixels
           (WaveDisplay.own display) in
    let display' :=
      WaveDisplay.mk numPixels (WaveDisplay.arrays display)
                     (WaveDisplay.ownWhere display) cols in
    match fetched with
    | Some false =>
        mkWaveDisplayResult false display' false clip OwnArrays fetched
    | _ =>
        mkWaveDisplayResult true display'
          (count_negative (Columns.bl cols) >? 0) clip OwnArrays fetched
    end
  else
    let tstep : double := (1 / pixelsPerSecond)%Q in
    let samplesPerPixel : double := (inject_Z (mRate clip) * tstep)%Q in
    let match_ := wave_match clip numPixels pixelsPerSecond in
    let full_hit :=
      match mWaveCache clip with
      | Some cache =>
          match_ && Qeq_bool (WaveCache.start cache) t0
          && (WaveCache.len cache >=? numPixels)
      | None => false
      end in
    match mWaveCache clip, full_hit with
    | Some cache, true =>
        let cache' :=
          WaveCache.ClearInvalidRegions
            (WaveCache.LoadInvalidRegions cache (mSequence clip) true) in
        mkWaveDisplayResult true
          (WaveDisplay.mk numPixels WaveDisplay.Cached
             (WaveDisplay.ownWhere display) (WaveDisplay.own display))
          (WaveCache.numODPixels cache' >? 0)
          (with_WaveCache clip (Some cache'))
          FullHit None
    | oldCache, _ =>
        let '(oldX0, correction, copyBegin, copyEnd) :=
          match oldCache with
          | Some old =>
              copy_plan match_ (WaveCache.where_ old) (WaveCache.len old)
                        numPixels t0 (mRate clip) samplesPerPixel
          | None => (0, 0%Q, 0, 0)
          end in
        let oldCache := if copyEnd >? copyBegin then oldCache else None in
        let new :=
          WaveCache.with_where
            (WaveCache.create numPixels pixelsPerSecond (mRate clip) t0
                              (mDirty clip))
            (fillWhere numPixels 0%Q correction t0 (inject_Z (mRate clip))
                       samplesPerPixel) in
        let p0 := if copyBegin >? 0 then 0 else copyEnd in
        let p1 := if copyEnd >=? numPixels then copyBegin else numPixels in
        let new :=
          match oldCache with
          | Some old =>
              let old' :=
                WaveCache.ClearInvalidRegions
                  (WaveCache.LoadInvalidRegions old (mSequence clip) false) in
              let length := copyEnd - copyBegin in
              let srcIdx := copyBegin + oldX0 in
              WaveCache.write_columns new copyBegin length
                (WaveCache.columns old' srcIdx length)
          | None => new
          end in
        let '(fetched, cols) :=
          fill (mSequence clip) (mAppendBuffer clip) (mAppendBufferLen clip)
               (WaveCache.where_ new) p0 p1 (WaveCache.all_columns new) in
        let new := WaveCache.set_columns new cols in
        match fetched with
        | Some false =>
            mkWaveDisplayResult false display false
              (with_WaveCache clip (Some new)) Rebuilt fetched
        | _ =>
            mkWaveDisplayResult true
              (WaveDisplay.mk numPixels WaveDisplay.Cached
                 (WaveDisplay.ownWhere display) (WaveDisplay.own display))
              (WaveCache.numODPixels new >? 0)
              (with_WaveCache clip (Some new))
              Rebuilt fetched
        end
    end.

(** The local [match] of [GetSpectrogram] as it is first computed. *)
Definition spec_match (clip : t S) (settings : SpectrogramSettings.t)
    (pixelsPerSecond : double) : bool :=
  match mSpecCache clip with
  | Some cache =>
      (SpecCache.len cache >? 0)
      && SpecCache.Matches cache (mDirty clip) pixelsPerSecond settings
                           (inject_Z (mRate clip))
  | None => false
  end.

(** [bool WaveClip::GetSpectrogram(waveTrackCache, spectrogram, where,
    numPixels, t0, pixelsPerSecond) const]; [settings] are the spectrogram
    settings of the track of [waveTrackCache]. *)
Definition GetSpectrogram (clip : t S) (waveTrackCache : W)
    (settings : SpectrogramSettings.t) (numPixels : Z)
    (t0 pixelsPerSecond : double) : SpectrogramResult S :=
  let frequencyGain := SpectrogramSettings.frequencyGain settings in
  let windowSize := SpectrogramSettings.windowSize settings in
  let windowType := SpectrogramSettings.windowType settings in
  let zeroPaddingFactor :=
    SpecCache.effective_zeroPaddingFactor
      EXPERIMENTAL_ZERO_PADDED_SPECTROGRAMS settings in
  let fftLen := windowSize * zeroPaddingFactor in
  let half := fftLen / 2 in
  let match_ := spec_match clip settings pixelsPerSecond in
  let full_hit :=
    match mSpecCache clip with
    | Some cache =>
        match_ && Qeq_bool (SpecCache.start cache) t0
        && (SpecCache.len cache >=? numPixels)
    | None => false
    end in
  match mSpecCache clip, full_hit with
  | Some cache, true =>
      mkSpectrogramResult false (SpecCache.freq cache)
        (SpecCache.where_ cache) clip FullHit
  | oldCache, _ =>
      let match_ :=
        if Algorithm_eqb (SpectrogramSettings.algorithm settings)
                         algReassignment
        then false else match_ in
      let tstep : double := (1 / pixelsPerSecond)%Q in
      let samplesPerPixel : double := (inject_Z (mRate clip) * tstep)%Q in
      let '(oldX0, correction, copyBegin, copyEnd) :=
        match oldCache with
        | Some old =>
            copy_plan match_ (SpecCache.where_ old) (SpecCache.len old)
                      numPixels t0 (mRate clip) samplesPerPixel
        | None => (0, 0%Q, 0, 0)
        end in
      let oldCache := if copyEnd >? copyBegin then oldCache else None in
      let new :=
        SpecCache.with_where
          (SpecCache.create numPixels (SpectrogramSettings.algorithm settings)
             pixelsPerSecond t0 windowType windowSize zeroPaddingFactor
             frequencyGain)
          (fillWhere numPixels (1 # 2) correction t0 (inject_Z (mRate clip))
                     samplesPerPixel) in
      let new :=
        match oldCache with
        | Some old =>
            let n := half * (copyEnd - copyBegin) in
            SpecCache.with_freq new
              (blit (SpecCache.freq new) (half * copyBegin) n
                    (slice (SpecCache.freq old) (half * (copyBegin + oldX0)) n))
        | None => new
        end in
      let new :=
        SpecCache.Populate EXPERIMENTAL_ZERO_PADDED_SPECTROGRAMS
          new settings waveTrackCache copyBegin copyEnd numPixels
          (Sequence.GetNumSamples (mSequence clip))
          (mOffset clip) (inject_Z (mRate clip)) pixelsPerSecond in
      let new := SpecCache.with_dirty new (mDirty clip) in
      mkSpectrogramResult true (SpecCache.freq new) (SpecCache.where_ new)
        (with_SpecCache clip (Some new)) Rebuilt
  end.

End Queries.

(** *** The mutators *)

Section Mutators.

Context {S : Type} {api : Sequence.API S}.

(** [int] arithmetic on the generation counter: the value of [x] as a
    32-bit two's complement integer. *)
Definition wrap_int (x : Z) : Z := (x + 2 ^ 31) mod 2 ^ 32 - 2 ^ 31.

Definition with_Dirty (clip : t S) (d : Z) : t S :=
  mk (mOffset clip) (mRate clip) d (mSequence clip) (mWaveCache clip)
     (mSpecCache clip) (mAppendBuffer clip) (mAppendBufferLen clip).

Definition with_Sequence (clip : t S) (s : S) : t S :=
  mk (mOffset clip) (mRate clip) (mDirty clip) s (mWaveCache clip)
     (mSpecCache clip) (mAppendBuffer clip) (mAppendBufferLen clip).

Definition with_Rate (clip : t S) (r : Z) : t S :=
  mk (mOffset clip) r (mDirty clip) (mSequence clip) (mWaveCache clip)
     (mSpecCache clip) (mAppendBuffer clip) (mAppendBufferLen clip).

Definition with_AppendBuffer (clip : t S) (b : list float) (n : sampleCount)
    : t S :=
  mk (mOffset clip) (mRate clip) (mDirty clip) (mSequence clip)
     (mWaveCache clip) (mSpecCache clip) b n.

(** Modelled from the spec: [MarkChanged()] is defined in WaveClip.h, which
    is not among the sources; it is the single step through which the
    mutators increment the generation counter [dirty]. *)
Definition MarkChanged (clip : t S) : t S :=
  with_Dirty clip (wrap_int (mDirty clip + 1)).

(** [void WaveClip::SetOffset(double offset)]. *)
Definition SetOffset (clip : t S) (offset : double) : t S :=
  mk offset (mRate clip) (mDirty clip) (mSequence clip) (mWaveCache clip)
     (mSpecCache clip) (mAppendBuffer clip) (mAppendBufferLen clip).

(** Modelled from the spec: [Offset(delta)] is defined in WaveClip.h, which
    is not among the sources; it moves the clip by [delta], which is
    [SetOffset(GetOffset() + delta)]. *)
Definition Offset (clip : t S) (delta : double) : t S :=
  SetOffset clip (mOffset clip + delta)%Q.

(** [double WaveClip::GetStartTime() const]. *)
Definition GetStartTime (clip : t S) : double := mOffset clip.

(** [double WaveClip::GetEndTime() const]. *)
Definition GetEndTime (clip : t S) : double :=
  (mOffset clip
   + inject_Z (Sequence.GetNumSamples (mSequence clip) + mAppendBufferLen clip)
     / inject_Z (mRate clip))%Q.

(** [void WaveClip::TimeToSamplesClip(t0, s0) const], with the output
    parameter [s0] as the result. *)
Definition TimeToSamplesClip (clip : t S) (t0 : double) : sampleCount :=
  let numSamples := Sequence.GetNumSamples (mSequence clip) in
  if Qlt_bool t0 (mOffset clip) then 0
  else if Qlt_bool (mOffset clip + inject_Z numSamples / inject_Z (mRate clip))%Q t0
  then numSamples
  else floor ((t0 - mOffset clip) * inject_Z (mRate clip) + (1 # 2))%Q.

(** [bool WaveClip::SetSamples(buffer, format, start, len)]. *)
Definition SetSamples (clip : t S) (buffer : list float)
    (start len : sampleCount) : bool * t S :=
  let '(bResult, s) := Sequence.Set_ (mSequence clip) buffer start len in
  (bResult, MarkChanged (with_Sequence clip s)).

(** [void WaveClip::ConvertToSampleFormat(sampleFormat format)]. *)
Definition ConvertToSampleFormat (clip : t S) (format : Z) : t S :=
  let '(bResult, bChanged, s) :=
    Sequence.ConvertToSampleFormat (mSequence clip) format in
  let clip := with_Sequence clip s in
  if bResult && bChanged then MarkChanged clip else clip.

(** The loop [for(;;)] of [WaveClip::Append]; one unit of fuel is one
    iteration, and [None] is a loop that has not ended when the fuel is
    used up.  [inl] carries the clip when the loop is left by [break],
    [inr] when it is left by [return false]. *)
Fixpoint Append_loop (fuel : nat) (clip : t S) (maxBlockSize blockSize : Z)
    (buffer : list float) (len : sampleCount) : option (t S + t S) :=
  match fuel with
  | O => None
  | Datatypes.S fuel' =>
      let flushed :=
        if mAppendBufferLen clip >=? blockSize
        then
          let '(success, s) :=
            Sequence.Append (mSequence clip)
              (slice (mAppendBuffer clip) 0 blockSize) blockSize in
          if success
          then
            let rest := mAppendBufferLen clip - blockSize in
            inl (with_AppendBuffer (with_Sequence clip s)
                   (blit (mAppendBuffer clip) 0 rest
                         (slice (mAppendBuffer clip) blockSize rest))
                   rest,
                 Sequence.GetIdealAppendLen s)
          else inr (with_Sequence clip s)
        else inl (clip, blockSize) in
      match flushed with
      | inr failed => Some (inr failed)
      | inl (clip, blockSize) =>
          if len =? 0 then Some (inl clip)
          else
            let toCopy := maxBlockSize - mAppendBufferLen clip in
            let toCopy := if toCopy >? len then len else toCopy in
            Append_loop fuel'
              (with_AppendBuffer clip
                 (blit (mAppendBuffer clip) (mAppendBufferLen clip) toCopy
                       (slice buffer 0 toCopy))
                 (mAppendBufferLen clip + toCopy))
              maxBlockSize blockSize
              (skipn (Z.to_nat toCopy) buffer) (len - toCopy)
      end
  end.

(** [bool WaveClip::Append(buffer, format, len, stride, blockFileLog)], with
    the samples of [buffer] as [CopySamples] reads them.  The loop is given
    [len + 1] iterations, which is what it needs when every ideal append
    length is positive and at most the maximal block size, since every
    iteration but the last then copies at least one sample. *)
Definition Append (clip : t S) (buffer : list float)
    (len : sampleCount) : option (bool * t S) :=
  let maxBlockSize := Sequence.GetMaxBlockSize (mSequence clip) in
  let blockSize := Sequence.GetIdealAppendLen (mSequence clip) in
  let clip :=
    match mAppendBuffer clip with
    | [] => with_AppendBuffer clip (repeat 0%Q (Z.to_nat maxBlockSize))
                              (mAppendBufferLen clip)
    | _ => clip
    end in
  match Append_loop (Datatypes.S (Z.to_nat len)) clip maxBlockSize blockSize
                    buffer len with
  | None => None
  | Some (inr failed) => Some (false, failed)
  | Some (inl done) => Some (true, MarkChanged done)
  end.

(** [bool WaveClip::AppendAlias(fName, start, len, channel, useOD)]. *)
Definition AppendAlias (clip : t S) (start len : sampleCount) : bool * t S :=
  let '(result, s) := Sequence.AppendAlias (mSequence clip) start len in
  let clip := with_Sequence clip s in
  (result, if result then MarkChanged clip else clip).

(** [bool WaveClip::AppendCoded(fName, start, len, channel, decodeType)]. *)
Definition AppendCoded (clip : t S) (start len : sampleCount) : bool * t S :=
  let '(result, s) := Sequence.AppendCoded (mSequence clip) start len in
  let clip := with_Sequence clip s in
  (result, if result then MarkChanged clip else clip).

(** [bool WaveClip::Flush()]. *)
Definition Flush (clip : t S) : bool * t S :=
  if mAppendBufferLen clip >? 0
  then
    let '(success, s) :=
      Sequence.Append (mSequence clip)
        (slice (mAppendBuffer clip) 0 (mAppendBufferLen clip))
        (mAppendBufferLen clip) in
    let clip := with_Sequence clip s in
    (success,
     if success
     then MarkChanged (with_AppendBuffer clip (mAppendBuffer clip) 0)
     else clip)
  else (true, clip).

(** [bool WaveClip::CreateFromCopy(t0, t1, other)]. *)
Definition CreateFromCopy (clip : t S) (t0 t1 : double) (other : t S)
    : bool * t S :=
  let s0 := TimeToSamplesClip other t0 in
  let s1 := TimeToSamplesClip other t1 in
  match Sequence.Copy (mSequence other) s0 s1 with
  | None => (false, clip)
  | Some s => (true, MarkChanged (with_Sequence clip s))
  end.

(** [void WaveClip::SetRate(int rate)]. *)
Definition SetRate (clip : t S) (rate : Z) : t S :=
  MarkChanged (with_Rate clip rate).

(** [bool WaveClip::Resample(rate, progress)]. *)
Definition Resample (clip : t S) (rate : Z) : bool * t S :=
  if rate =? mRate clip then (true, clip)
  else
    match Sequence.Resampled (mSequence clip) (mRate clip) rate with
    | None => (false, clip)
    | Some newSequence =>
        (true,
         mk (mOffset clip) rate (mDirty clip) newSequence
            (Some WaveCache.empty) (Some SpecCache.empty)
            (mAppendBuffer clip) (mAppendBufferLen clip))
    end.

(** The copy constructor [WaveClip(orig, projDirManager)]. *)
Definition copy (orig : t S) : t S :=
  mk (mOffset orig) (mRate orig) 0 (mSequence orig)
     (Some WaveCache.empty) (Some SpecCache.empty) [] 0.

(** [bool WaveClip::Paste(t0, other)]. *)
Definition Paste (clip : t S) (t0 : double) (other : t S) : bool * t S :=
  let clipNeedsResampling := negb (mRate other =? mRate clip) in
  let clipNeedsNewFormat :=
    negb (Sequence.GetSampleFormat (mSequence other)
          =? Sequence.GetSampleFormat (mSequence clip)) in
  let pasted : option (t S) :=
    if clipNeedsResampling || clipNeedsNewFormat
    then
      let newClip := copy other in
      let resampled :=
        if clipNeedsResampling
        then
          let '(ok, newClip') := Resample newClip (mRate clip) in
          if ok then Some newClip' else None
        else Some newClip in
      match resampled with
      | None => None
      | Some newClip =>
          Some (if clipNeedsNewFormat
                then ConvertToSampleFormat newClip
                       (Sequence.GetSampleFormat (mSequence clip))
                else newClip)
      end
    else Some other in
  match pasted with
  | None => (false, clip)
  | Some pastedClip =>
      let s0 := TimeToSamplesClip clip t0 in
      let '(ok, s) :=
        Sequence.Paste (mSequence clip) s0 (mSequence pastedClip) in
      let clip := with_Sequence clip s in
      if ok then (true, MarkChanged clip) else (false, clip)
  end.

(** [bool WaveClip::InsertSilence(double t, double len)]. *)
Definition InsertSilence (clip : t S) (t_ len : double) : bool * t S :=
  let s0 := TimeToSamplesClip clip t_ in
  let slen := floor (len * inject_Z (mRate clip) + (1 # 2))%Q in
  let '(ok, s) := Sequence.InsertSilence (mSequence clip) s0 slen in
  let clip := with_Sequence clip s in
  if ok then (true, MarkChanged clip) else (false, clip).

(** The part that [Clear] and [ClearAndAddCutLine] share once
    [Sequence::Delete] has succeeded. *)
Definition after_Delete (clip0 clip : t S) (t0 : double) : t S :=
  MarkChanged
    (if Qlt_bool t0 (GetStartTime clip0)
     then Offset clip (- (GetStartTime clip0 - t0))%Q
     else clip).

(** [bool WaveClip::Clear(double t0, double t1)]. *)
Definition Clear (clip : t S) (t0 t1 : double) : bool * t S :=
  let s0 := TimeToSamplesClip clip t0 in
  let s1 := TimeToSamplesClip clip t1 in
  let '(ok, s) := Sequence.Delete (mSequence clip) s0 (s1 - s0) in
  if ok then (true, after_Delete clip (with_Sequence clip s) t0)
  else (false, with_Sequence clip s).

(** [bool WaveClip::ClearAndAddCutLine(double t0, double t1)].  The new
    cut line is built and then dropped, since the model keeps no cut lines;
    its sequence, which [CreateFromCopy] replaces, is immaterial. *)
Definition ClearAndAddCutLine (clip : t S) (t0 t1 : double) : bool * t S :=
  if Qlt_bool (GetEndTime clip) t0 || Qlt_bool t1 (GetStartTime clip)
  then (true, clip)
  else
    let clip_t0 :=
      if Qlt_bool t0 (GetStartTime clip) then GetStartTime clip else t0 in
    let clip_t1 :=
      if Qlt_bool (GetEndTime clip) t1 then GetEndTime clip else t1 in
    let newClip :=
      mk 0%Q (mRate clip) 0 (mSequence clip) (Some WaveCache.empty)
         (Some SpecCache.empty) [] 0 in
    if fst (CreateFromCopy newClip clip_t0 clip_t1 clip)
    then
      let s0 := TimeToSamplesClip clip t0 in
      let s1 := TimeToSamplesClip clip t1 in
      let '(ok, s) := Sequence.Delete (mSequence clip) s0 (s1 - s0) in
      if ok then (true, after_Delete clip (with_Sequence clip s) t0)
      else (false, with_Sequence clip s)
    else (false, clip).

(** A call of one of the mutators, with its arguments. *)
Inductive Mutator : Type :=
  | CallSetSamples (buffer : list float) (start len : sampleCount)
  | CallAppend (buffer : list float) (len : sampleCount)
  | CallAppendAlias (start len : sampleCount)
  | CallAppendCoded (start len : sampleCount)
  | CallFlush
  | CallCreateFromCopy (t0 t1 : double) (other : t S)
  | CallPaste (t0 : double) (other : t S)
  | CallInsertSilence (t_ len : double)
  | CallClear (t0 t1 : double)
  | CallClearAndAddCutLine (t0 t1 : double)
  | CallSetRate (rate : Z)
  | CallResample (rate : Z).

(** The call carried out on a clip: the [bool] that the mutator returns
    ([true] for [SetRate], which returns nothing) and the clip it leaves. *)
Definition run (m : Mutator) (clip : t S) : option (bool * t S) :=
  match m with
  | CallSetSamples buffer start len => Some (SetSamples clip buffer start len)
  | CallAppend buffer len => Append clip buffer len
  | CallAppendAlias start len => Some (AppendAlias clip start len)
  | CallAppendCoded start len => Some (AppendCoded clip start len)
  | CallFlush => Some (Flush clip)
  | CallCreateFromCopy t0 t1 other => Some (CreateFromCopy clip t0 t1 other)
  | CallPaste t0 other => Some (Paste clip t0 other)
  | CallInsertSilence t_ len => Some (InsertSilence clip t_ len)
  | CallClear t0 t1 => Some (Clear clip t0 t1)
  | CallClearAndAddCutLine t0 t1 => Some (ClearAndAddCutLine clip t0 t1)
  | CallSetRate rate => Some (true, SetRate clip rate)
  | CallResample rate => Some (Resample clip rate)
  end.

Definition is_Resample (m : Mutator) : bool :=
  match m with CallResample _ => true | _ => false end.

End Mutators.

Arguments CallSetSamples {S}.
Arguments CallAppend {S}.
Arguments CallAppendAlias {S}.
Arguments CallAppendCoded {S}.
Arguments CallFlush {S}.
Arguments CallCreateFromCopy {S}.
Arguments CallPaste {S}.
Arguments CallInsertSilence {S}.
Arguments CallClear {S}.
Arguments CallClearAndAddCutLine {S}.
Arguments CallSetRate {S}.
Arguments CallResample {S}.

(** *** Times, samples and cut lines *)

Section Times.

Context {S : Type} {api : Sequence.API S}.
Context {statistics : SequenceStatistics.API S}.

(** [sampleCount WaveClip::GetStartSample() const]. *)
Definition GetStartSample (clip : t S) : sampleCount :=
  floor (mOffset clip * inject_Z (mRate clip) + (1 # 2))%Q.

(** [sampleCount WaveClip::GetEndSample() const]. *)
Definition GetEndSample (clip : t S) : sampleCount :=
  GetStartSample clip + Sequence.GetNumSamples (mSequence clip).

(** [sampleCount WaveClip::GetNumSamples() const]. *)
Definition GetNumSamples (clip : t S) : sampleCount :=
  Sequence.GetNumSamples (mSequence clip).

(** [bool WaveClip::WithinClip(double t) const]. *)
Definition WithinClip (clip : t S) (t_ : double) : bool :=
  let ts := floor (t_ * inject_Z (mRate clip) + (1 # 2))%Q in
  (ts >? GetStartSample clip)
  && (ts <? GetEndSample clip + mAppendBufferLen clip).

(** [bool WaveClip::BeforeClip(double t) const]. *)
Definition BeforeClip (clip : t S) (t_ : double) : bool :=
  let ts := floor (t_ * inject_Z (mRate clip) + (1 # 2))%Q in
  ts <=? GetStartSample clip.

(** [bool WaveClip::AfterClip(double t) const]. *)
Definition AfterClip (clip : t S) (t_ : double) : bool :=
  let ts := floor (t_ * inject_Z (mRate clip) + (1 # 2))%Q in
  ts >=? GetEndSample clip + mAppendBufferLen clip.

(** [void WaveClip::DeleteWaveCache()]. *)
Definition DeleteWaveCache (clip : t S) : t S :=
  with_WaveCache clip (Some WaveCache.empty).

(** [void WaveClip::AddInvalidRegion(long startSample, long endSample)]. *)
Definition AddInvalidRegion (clip : t S) (startSample endSample : Z) : t S :=
  match mWaveCache clip with
  | Some cache =>
      with_WaveCache clip
        (Some (WaveCache.AddInvalidRegion cache startSample endSample))
  | None => clip
  end.

(** [bool WaveClip::GetMinMax(float *min, float *max, double t0, double
    t1)]: the [bool] and the values behind [min] and [max]. *)
Definition GetMinMax (clip : t S) (t0 t1 : double) : bool * float * float :=
  if Qlt_bool t1 t0 then (false, 0%Q, 0%Q)
  else if Qeq_bool t0 t1 then (true, 0%Q, 0%Q)
  else
    let s0 := TimeToSamplesClip clip t0 in
    let s1 := TimeToSamplesClip clip t1 in
    SequenceStatistics.GetMinMax (mSequence clip) s0 (s1 - s0).

(** [bool WaveClip::GetRMS(float *rms, double t0, double t1)]: the [bool]
    and the value behind [rms]. *)
Definition GetRMS (clip : t S) (t0 t1 : double) : bool * float :=
  if Qlt_bool t1 t0 then (false, 0%Q)
  else if Qeq_bool t0 t1 then (true, 0%Q)
  else
    let s0 := TimeToSamplesClip clip t0 in
    let s1 := TimeToSamplesClip clip t1 in
    SequenceStatistics.GetRMS (mSequence clip) s0 (s1 - s0).

(** The test of [FindCutLine], [ExpandCutLine] and [RemoveCutLine]: the cut
    line lies within a ten-thousandth of a second of the position.  A cut
    line is a clip of its own, whose offset is relative to the clip that
    holds it. *)
Definition at_position (clip cutline : t S) (cutLinePosition : double) : bool :=
  Qlt_bool (fabs (mOffset clip + mOffset cutline - cutLinePosition))
           (1 # 10000).

(** [bool WaveClip::FindCutLine(cutLinePosition, cutlineStart, cutlineEnd)]
    on the list [mCutLines]: [None] is [false], and [Some] carries the
    values written behind the two output pointers. *)
Fixpoint FindCutLine (clip : t S) (mCutLines : list (t S))
    (cutLinePosition : double) : option (double * double) :=
  match mCutLines with
  | [] => None
  | cutline :: rest =>
      if at_position clip cutline cutLinePosition
      then Some ((mOffset clip + GetStartTime cutline)%Q,
                 (mOffset clip + GetEndTime cutline)%Q)
      else FindCutLine clip rest cutLinePosition
  end.

(** [bool WaveClip::RemoveCutLine(double cutLinePosition)] on the list
    [mCutLines]: the [bool] and the list that is left. *)
Fixpoint RemoveCutLine (clip : t S) (mCutLines : list (t S))
    (cutLinePosition : double) : bool * list (t S) :=
  match mCutLines with
  | [] => (false, [])
  | cutline :: rest =>
      if at_position clip cutline cutLinePosition
      then (true, rest)
      else
        let '(found, rest') := RemoveCutLine clip rest cutLinePosition in
        (found, cutline :: rest')
  end.

(** [void WaveClip::OffsetCutLines(double t0, double len)] on the list
    [mCutLines]. *)
Definition OffsetCutLines (clip : t S) (mCutLines : list (t S))
    (t0 len : double) : list (t S) :=
  map (fun cutLine =>
         if Qle_bool t0 (mOffset clip + mOffset cutLine)
         then Offset cutLine len else cutLine)
      mCutLines.

End Times.

(** [SetSamples] is the one mutator that marks the clip changed whatever
    its sequence answers. *)
Definition is_SetSamples {S : Type} (m : @Mutator S) : bool :=
  match m with CallSetSamples _ _ _ => true | _ => false end.

End WaveClip.

(** ** A concrete clip on which the code can be run *)

Module Example.

(** A sequence that keeps its samples in a list.  When it is not
    [readable] every call that touches the samples fails and leaves
    everything as it was, like a sequence whose block files are missing. *)
Record ListSequence : Type := mkSeq {
  samples : list float;
  readable : bool
}.

(** A square root that is exact on the squares of rationals. *)
#[export] Instance exact_sqrt : Math :=
  {| sqrt := fun q => Qmake (Z.sqrt (Qnum q * Zpos (Qden q))) (Qden q) |}.

(** One summarized column: minimum, maximum and root mean square of the
    samples in [lo .. hi), zeros when the range is empty. *)
Definition summary (s : list float) (lo hi : Z) : float * float * float :=
  if hi >? lo then summarize (slice s lo (hi - lo)) (hi - lo)
  else (0%Q, 0%Q, 0%Q).

(** The samples [s] with the [n] samples from [start] on taken out, and
    with the samples [ins] put in at [start]. *)
Definition remove (s : list float) (start n : Z) : list float :=
  firstn (Z.to_nat start) s ++ skipn (Z.to_nat start + Z.to_nat n) s.

Definition insert (s : list float) (start : Z) (ins : list float) : list float :=
  firstn (Z.to_nat start) s ++ ins ++ skipn (Z.to_nat start) s.

(** Resampling by sample and hold, which stands for [::Resample]. *)
Definition hold (s : list float) (from to : Z) : list float :=
  map (fun k => at_ 0%Q s (k * from / to))
      (range 0 (Z.of_nat (length s) * to / from)).

#[export] Instance ListSequence_API : Sequence.API ListSequence := {|
  Sequence.GetNumSamples := fun s => Z.of_nat (length (samples s));
  Sequence.GetMaxBlockSize := fun _ => 4;
  Sequence.GetIdealAppendLen := fun _ => 2;
  Sequence.GetSampleFormat := fun _ => 0;
  Sequence.GetWaveDisplay := fun s cols len where_ =>
    if readable s
    then
      let col i := summary (samples s) (at_ 0 where_ i) (at_ 0 where_ (i + 1)) in
      (true,
       Columns.mk (map (fun i => fst (fst (col i))) (range 0 len))
                  (map (fun i => snd (fst (col i))) (range 0 len))
                  (map (fun i => snd (col i)) (range 0 len))
                  (map (fun _ => 0) (range 0 len)))
    else (false, cols);
  Sequence.Set_ := fun s buffer start len =>
    if readable s
    then (true, mkSeq (blit (samples s) start len buffer) true)
    else (false, s);
  Sequence.Append := fun s buffer len =>
    if readable s
    then (true, mkSeq (samples s ++ slice buffer 0 len) true)
    else (false, s);
  Sequence.AppendAlias := fun s start len =>
    if readable s
    then (true, mkSeq (samples s ++ repeat 0%Q (Z.to_nat len)) true)
    else (false, s);
  Sequence.AppendCoded := fun s start len =>
    if readable s
    then (true, mkSeq (samples s ++ repeat 0%Q (Z.to_nat len)) true)
    else (false, s);
  Sequence.InsertSilence := fun s s0 len =>
    if readable s
    then (true, mkSeq (insert (samples s) s0 (repeat 0%Q (Z.to_nat len))) true)
    else (false, s);
  Sequence.Delete := fun s start len =>
    if readable s
    then (true, mkSeq (remove (samples s) start len) true)
    else (false, s);
  Sequence.Paste := fun s s0 other =>
    if readable s && readable other
    then (true, mkSeq (insert (samples s) s0 (samples other)) true)
    else (false, s);
  Sequence.Copy := fun s s0 s1 =>
    if readable s
    then Some (mkSeq (slice (samples s) s0 (s1 - s0)) true)
    else None;
  Sequence.ConvertToSampleFormat := fun s format => (true, false, s);
  Sequence.Resampled := fun s from to =>
    if readable s then Some (mkSeq (hold (samples s) from to) true) else None
|}.

(** A spectrogram kernel that computes nothing: no column is ever
    reported as computed and the buffer is left alone. *)
#[export] Instance idle_Kernel : SpecCache.Kernel unit := {|
  SpecCache.CalculateOneSpectrum :=
    fun _ _ c _ _ _ _ _ _ _ _ => (false, SpecCache.freq c);
  SpecCache.ConvertToDecibels := fun _ _ f _ _ => f;
  SpecCache.ComputeSpectrogramGainFactors := fun _ _ _ => []
|}.

(** A spectrogram kernel that leaves marks.  The track cache is a number,
    and computing a column of the cache that lies within the bounds of the
    batch adds that number to every bin of the column, as the reassignment
    method accumulates power; a column outside the cache is not computed
    and the call then returns [false].  What is found in a column tells
    which calls have computed it, and on what. *)
#[export] Instance marking_Kernel : SpecCache.Kernel Z := {|
  SpecCache.CalculateOneSpectrum :=
    fun _ mark c xx _ _ _ _ lowerBoundX upperBoundX _ =>
      let half :=
        (SpecCache.windowSize c * SpecCache.zeroPaddingFactor c) / 2 in
      if (0 <=? xx) && (xx <? SpecCache.len c)
      then
        (true,
         if (lowerBoundX <=? xx) && (xx <? upperBoundX)
         then
           blit (SpecCache.freq c) (half * xx) half
                (map (Qplus (inject_Z mark))
                     (slice (SpecCache.freq c) (half * xx) half))
         else SpecCache.freq c)
      else (false, SpecCache.freq c);
  SpecCache.ConvertToDecibels := fun _ _ f _ _ => f;
  SpecCache.ComputeSpectrogramGainFactors := fun _ _ _ => []
|}.

(** A clip as its constructor [WaveClip(projDirManager, format, rate)]
    makes it, around the given sequence. *)
Definition new_clip (s : ListSequence) (rate : Z) : WaveClip.t ListSequence :=
  WaveClip.mk 0%Q rate 0 s (Some WaveCache.empty) (Some SpecCache.empty) [] 0.

(** A display as its constructor [WaveDisplay(w)] makes it, and the same
    display after [Allocate()]. *)
Definition new_display (w : Z) : WaveDisplay.t :=
  WaveDisplay.mk w WaveDisplay.Null [] (Columns.mk [] [] [] []).

Definition allocated_display (w : Z) : WaveDisplay.t :=
  WaveDisplay.mk w WaveDisplay.Own
    (repeat 0 (Z.to_nat (w + 1)))
    (Columns.mk (repeat 0%Q (Z.to_nat w)) (repeat 0%Q (Z.to_nat w))
                (repeat 0%Q (Z.to_nat w)) (repeat 0 (Z.to_nat w))).

(** A wave cache of 200 pixels, one sample per pixel, starting at time 0. *)
Definition cache200 : WaveCache.t := WaveCache.create 200 1 1 0 0.

(** Several calls of [AddInvalidRegion] in a row. *)
Definition add_regions (c : WaveCache.t) (calls : list (sampleCount * sampleCount))
    : WaveCache.t :=
  fold_left (fun c call => WaveCache.AddInvalidRegion c (fst call) (snd call))
            calls c.

(** A clip of four samples at one sample per second. *)
Definition four_samples : WaveClip.t ListSequence :=
  new_clip (mkSeq [1; 2; 3; 4]%Q true) 1.

(** A clip at one sample per second with two samples in its sequence and
    two more in its append buffer, and the same clip when the block files
    of its sequence cannot be read. *)
Definition two_and_two (readable_ : bool) : WaveClip.t ListSequence :=
  WaveClip.mk 0%Q 1 0 (mkSeq [1; 2]%Q readable_)
    (Some WaveCache.empty) (Some SpecCache.empty) [1; 1; 0; 0]%Q 2.

(** Spectrogram settings with a window of four samples. *)
Definition settings4 (algorithm : SpectrogramSettings.Algorithm)
    : SpectrogramSettings.t :=
  SpectrogramSettings.mk 0 4 1 0 algorithm.

End Example.

(** ** A sequence that only counts its samples *)

Module Counting.

(** A sequence reduced to its number of samples, on which every call
    succeeds. *)
#[export] Instance Count_API : Sequence.API Z := {|
  Sequence.GetNumSamples := fun s => s;
  Sequence.GetMaxBlockSize := fun _ => 4;
  Sequence.GetIdealAppendLen := fun _ => 2;
  Sequence.GetSampleFormat := fun _ => 0;
  Sequence.GetWaveDisplay := fun _ _ len _ =>
    (true,
     Columns.mk (repeat 0%Q (Z.to_nat len)) (repeat 0%Q (Z.to_nat len))
                (repeat 0%Q (Z.to_nat len)) (repeat (-1) (Z.to_nat len)));
  Sequence.Set_ := fun s _ _ _ => (true, s);
  Sequence.Append := fun s _ len => (true, s + len);
  Sequence.AppendAlias := fun s _ len => (true, s + len);
  Sequence.AppendCoded := fun s _ len => (true, s + len);
  Sequence.InsertSilence := fun s _ len => (true, s + len);
  Sequence.Delete := fun s _ len => (true, s - len);
  Sequence.Paste := fun s _ other => (true, s + other);
  Sequence.Copy := fun _ s0 s1 => Some (s1 - s0);
  Sequence.ConvertToSampleFormat := fun s _ => (true, false, s);
  Sequence.Resampled := fun s from to => Some (s * to / from)
|}.

(** Its statistics are those of silence. *)
#[export] Instance Count_Statistics : SequenceStatistics.API Z := {|
  SequenceStatistics.GetMinMax := fun _ _ _ => (true, 0%Q, 0%Q);
  SequenceStatistics.GetRMS := fun _ _ _ => (true, 0%Q)
|}.

(** A clip of [n] samples at [rate] samples per second, with an append
    buffer of four samples of which [buffered] are in use. *)
Definition clip_of (n rate buffered : Z) : WaveClip.t Z :=
  WaveClip.mk 0%Q rate 0 n (Some WaveCache.empty) (Some SpecCache.empty)
              [0; 0; 0; 0]%Q buffered.

End Counting.

(** ** The properties, as predicates on the code *)

(** Two regions are apart when at least one pixel lies between them, so
    that they neither overlap nor are adjacent. *)
Definition apart (r1 r2 : InvalidRegion.t) : bool :=
  (InvalidRegion.end_ r1 + 1 <? InvalidRegion.start r2)
  || (InvalidRegion.end_ r2 + 1 <? InvalidRegion.start r1).

(** Every two regions of the vector are apart. *)
Fixpoint pairwise_apart (rs : list InvalidRegion.t) : bool :=
  match rs with
  | [] => true
  | r :: rest => forallb (apart r) rest && pairwise_apart rest
  end.

(** A pixel-to-sample mapping for [numPixels] columns: [numPixels + 1]
    entries that never decrease and start at a non-negative sample. *)
Definition good_where (numPixels : Z) (w : list sampleCount) : Prop :=
  length w = Z.to_nat (numPixels + 1) /\ Sorted Z.le w /\ 0 <= hd 0 w.

(** The tolerant comparison of the pps values, as a proposition: the
    difference of the two times per pixel, accumulated over [n] pixels, is
    less than a sample period. *)
Definition pps_close (cache_pps pixelsPerSecond : double) (n rate : Z) : Prop :=
  (Qabs (1 / pixelsPerSecond - 1 / cache_pps) * inject_Z n
   < 1 / inject_Z rate)%Q.

(** When [GetWaveDisplay] is served from the cache as it is: the display
    has no arrays of its own and the clip's cache has columns, is of the
    clip's generation, matches the requested pps within the tolerance,
    starts at [t0] and is long enough. *)
Definition wave_full_hit {S : Type} (clip : WaveClip.t S)
    (display : WaveDisplay.t) (t0 pixelsPerSecond : double) : Prop :=
  WaveDisplay.allocated display = false /\
  exists cache,
    WaveClip.mWaveCache clip = Some cache /\
    0 < WaveCache.len cache /\
    WaveCache.dirty cache = WaveClip.mDirty clip /\
    pps_close (WaveCache.pps cache) pixelsPerSecond
              (WaveDisplay.width display) (WaveClip.mRate clip) /\
    (WaveCache.start cache == t0)%Q /\
    WaveDisplay.width display <= WaveCache.len cache.

(** The four conditions of a full hit alone, without the two guards. *)
Definition wave_four_conditions {S : Type} (clip : WaveClip.t S)
    (display : WaveDisplay.t) (t0 pixelsPerSecond : double) : Prop :=
  exists cache,
    WaveClip.mWaveCache clip = Some cache /\
    WaveCache.dirty cache = WaveClip.mDirty clip /\
    pps_close (WaveCache.pps cache) pixelsPerSecond
              (WaveDisplay.width display) (WaveClip.mRate clip) /\
    (WaveCache.start cache == t0)%Q /\
    WaveDisplay.width display <= WaveCache.len cache.

(** The cache was computed with these settings: the same window type and
    size, zero-padding factor, frequency gain and algorithm. *)
Definition same_settings (cache : SpecCache.t)
    (settings : SpectrogramSettings.t) : Prop :=
  SpecCache.windowType cache = SpectrogramSettings.windowType settings /\
  SpecCache.windowSize cache = SpectrogramSettings.windowSize settings /\
  SpecCache.zeroPaddingFactor cache
  = SpectrogramSettings.zeroPaddingFactor settings /\
  SpecCache.frequencyGain cache = SpectrogramSettings.frequencyGain settings /\
  SpecCache.algorithm cache = Some (SpectrogramSettings.algorithm settings).

(** When [GetSpectrogram] is served from the cache as it is: the clip's
    cache has columns, is of the clip's generation, was computed with the
    same settings, matches the requested pps within the tolerance
    (accumulated over the columns of the cache), starts at [t0] and is
    long enough. *)
Definition spec_full_hit {S : Type} (clip : WaveClip.t S)
    (settings : SpectrogramSettings.t) (numPixels : Z)
    (t0 pixelsPerSecond : double) : Prop :=
  exists cache,
    WaveClip.mSpecCache clip = Some cache /\
    0 < SpecCache.len cache /\
    SpecCache.dirty cache = WaveClip.mDirty clip /\
    same_settings cache settings /\
    pps_close (SpecCache.pps cache) pixelsPerSecond
              (SpecCache.len cache) (WaveClip.mRate clip) /\
    (SpecCache.start cache == t0)%Q /\
    numPixels <= SpecCache.len cache.

(** The generation counter can be incremented without overflow. *)
Definition can_increment (d : Z) : Prop := - 2 ^ 31 <= d < 2 ^ 31 - 1.

(** A clip that differs from [clip] in its generation, which is one more,
    and in neither of its caches: a clip that went through [MarkChanged]. *)
Definition marked {S : Type} (clip clip' : WaveClip.t S) : Prop :=
  WaveClip.mDirty clip' = WaveClip.wrap_int (WaveClip.mDirty clip + 1)
  /\ WaveClip.mWaveCache clip' = WaveClip.mWaveCache clip
  /\ WaveClip.mSpecCache clip' = WaveClip.mSpecCache clip.

(** The pixel [x] lies in the region [r]. *)
Definition inside (r : InvalidRegion.t) (x : Z) : bool :=
  (InvalidRegion.start r <=? x) && (x <=? InvalidRegion.end_ r).

(** The pixel [x] is invalid: some region of the vector holds it. *)
Definition invalid_pixel (rs : list InvalidRegion.t) (x : Z) : bool :=
  existsb (fun r => inside r x) rs.

(** A region that makes sense with a cache of [len] pixels: it starts at
    or after pixel 0, does not end before it starts, and ends at or before
    pixel [len]. *)
Definition region_ok (len : Z) (r : InvalidRegion.t) : Prop :=
  0 <= InvalidRegion.start r
  /\ InvalidRegion.start r <= InvalidRegion.end_ r
  /\ InvalidRegion.end_ r <= len.

(** What a sequence that appends has to do to its number of samples. *)
Definition Append_adds {S : Type} {api : Sequence.API S} : Prop :=
  forall (s s' : S) (buffer : list float) (len : sampleCount),
    Sequence.Append s buffer len = (true, s') ->
    Sequence.GetNumSamples s' = Sequence.GetNumSamples s + len.

(** The samples of a clip: those of its sequence and those that wait in
    its append buffer. *)
Definition total_samples {S : Type} {api : Sequence.API S}
    (clip : WaveClip.t S) : Z :=
  Sequence.GetNumSamples (WaveClip.mSequence clip)
  + WaveClip.mAppendBufferLen clip.

(** Regions that do not end before they start. *)
Definition ordered_regions (rs : list InvalidRegion.t) : Prop :=
  Forall (fun r => InvalidRegion.start r <= InvalidRegion.end_ r) rs.

(** Regions between the pixels [lo] and [hi]. *)
Definition bounded_regions (lo hi : Z) (rs : list InvalidRegion.t) : Prop :=
  Forall (fun r => lo <= InvalidRegion.start r /\ InvalidRegion.end_ r <= hi)
         rs.

(** The pixel range of a call of [AddInvalidRegion] lies off the cache:
    both of its ends are negative, or both are at or beyond the length. *)
Definition off_cache (c : WaveCache.t) (invalStart invalEnd : Z) : bool :=
  ((invalStart <? 0) && (invalEnd <? 0))
  || ((invalStart >=? WaveCache.len c) && (invalEnd >=? WaveCache.len c)).

(** The regions of the vector that the pixel range [s..e] touches. *)
Definition touched (rs : list InvalidRegion.t) (s e : Z)
    : list InvalidRegion.t :=
  filter (fun r => WaveCache.touching r s e) rs.

(** A sequence that fills as many block flags as it is asked columns. *)
Definition fills_flags {S : Type} {api : Sequence.API S} (sequence : S) : Prop :=
  forall (cols : Columns.t) (n : Z) (w : list sampleCount),
    length (Columns.bl cols) = Z.to_nat n ->
    length (Columns.bl (snd (Sequence.GetWaveDisplay sequence cols n w)))
    = Z.to_nat n.

(** ** Proof steps that recur *)

(** Name the components of every pair that a [let] of the goal takes
    apart. *)
Ltac break_lets :=
  repeat match goal with
  | |- context [let '(_, _) := ?e in _] =>
      let E := fresh "E" in destruct e eqn:E
  | |- context [match ?e with (_, _) => _ end] =>
      let E := fresh "E" in destruct e eqn:E
  end.

(** The three outcomes of the fetch from the sequence. *)
Ltac break_fetched :=
  match goal with
  | fetched : option bool |- _ => destruct fetched as [[|]|]
  end.

(** * Properties *)

(** ** Comparisons and clamping on doubles *)

Lemma Qlt_bool_iff (a b : Q) : Qlt_bool a b = true <-> (a < b)%Q.
Proof.
  unfold Qlt_bool. rewrite negb_true_iff.
  split; intro H.
  - apply Qnot_le_lt. intro Hle. apply Qle_bool_iff in Hle. congruence.
  - destruct (Qle_bool b a) eqn:E; [|reflexivity].
    apply Qle_bool_iff in E. exfalso. apply (Qlt_not_le _ _ H E).
Qed.

Lemma Qlt_bool_false_iff (a b : Q) : Qlt_bool a b = false <-> (b <= a)%Q.
Proof.
  unfold Qlt_bool. rewrite negb_false_iff. apply Qle_bool_iff.
Qed.

Lemma std_max_cases (a b : Q) :
  ((a < b)%Q /\ std_max a b = b) \/ ((b <= a)%Q /\ std_max a b = a).
Proof.
  unfold std_max. destruct (Qlt_bool a b) eqn:E.
  - left. split; [apply Qlt_bool_iff, E | reflexivity].
  - right. split; [apply Qlt_bool_false_iff, E | reflexivity].
Qed.

Lemma std_min_cases (a b : Q) :
  ((b < a)%Q /\ std_min a b = b) \/ ((a <= b)%Q /\ std_min a b = a).
Proof.
  unfold std_min. destruct (Qlt_bool b a) eqn:E.
  - left. split; [apply Qlt_bool_iff, E | reflexivity].
  - right. split; [apply Qlt_bool_false_iff, E | reflexivity].
Qed.

(** The clamp [max(-s, min(s, c))] never exceeds [s] in magnitude. *)
Lemma clamp_bounds (s c : Q) :
  (Qabs (std_max (- s) (std_min s c)) <= Qabs s)%Q.
Proof.
  destruct (std_max_cases (- s) (std_min s c)) as [[H1 ->] | [H1 ->]].
  - destruct (std_min_cases s c) as [[H2 E] | [H2 E]]; rewrite E in *.
    + apply Qabs_case; intros; apply Qabs_case; intros; lra.
    + apply Qle_refl.
  - rewrite Qabs_opp. apply Qle_refl.
Qed.

Lemma clamp_lower (s c : Q) :
  (0 <= s)%Q -> (- s <= std_max (- s) (std_min s c))%Q.
Proof.
  intros Hs.
  destruct (std_max_cases (- s) (std_min s c)) as [[H1 ->] | [H1 ->]]; lra.
Qed.

Lemma to_integer_inject_Z (z : Z) : to_integer (inject_Z z) = z.
Proof. unfold to_integer. simpl. apply Z.quot_1_r. Qed.

(** The first entry of the mapping is the floor of [w0], or 0 when that
    is negative. *)
Lemma first_entry (z : Z) :
  to_integer (std_max 0 (inject_Z z)) = Z.max 0 z.
Proof.
  destruct (std_max_cases 0 (inject_Z z)) as [[H ->] | [H ->]].
  - rewrite to_integer_inject_Z.
    change 0%Q with (inject_Z 0) in H. rewrite <- Zlt_Qlt in H. lia.
  - change 0%Q with (inject_Z 0) in H. rewrite <- Zle_Qle in H.
    change (to_integer 0) with 0. lia.
Qed.

(** ** findCorrection *)

(** C5.  In its degenerate case, which is when the sample range of the old
    cache ends at or before the first sample of the new view, or the new
    view ends at or before the first sample of the old cache, or the
    length of the old cache in samples is less than one half,
    [findCorrection] returns [oldX0 = oldLen] and [correction = 0]. *)
Theorem findCorrection_degenerate
    (oldWhere : list sampleCount) (oldLen newLen : Z)
    (t0 rate samplesPerPixel : double) :
  let oldWhere0 := (inject_Z (at_ 0%Z oldWhere 1%Z) - samplesPerPixel)%Q in
  let oldWhereLast := (oldWhere0 + inject_Z oldLen * samplesPerPixel)%Q in
  let guessWhere0 := (t0 * rate)%Q in
  (oldWhereLast <= guessWhere0
   \/ guessWhere0 + inject_Z newLen * samplesPerPixel <= oldWhere0
   \/ oldWhereLast - oldWhere0 < 1 # 2)%Q ->
  findCorrection oldWhere oldLen newLen t0 rate samplesPerPixel
  = (oldLen, 0%Q).
Proof.
  intros oldWhere0 oldWhereLast guessWhere0 H.
  unfold findCorrection.
  fold oldWhere0. fold oldWhereLast. fold guessWhere0.
  destruct H as [H | [H | H]].
  - apply Qle_bool_iff in H. rewrite H. reflexivity.
  - apply Qle_bool_iff in H. rewrite H. rewrite orb_true_r. reflexivity.
  - apply Qlt_bool_iff in H. rewrite H. rewrite orb_true_r. reflexivity.
Qed.

(** An old cache of ten columns of 128 samples from sample 0 on, and a new
    view that starts 2000 seconds before it at 8 samples per second. *)
Lemma findCorrection_degenerate_witness :
  findCorrection [0; 128; 256] 10 10 (-2000 # 1) 8 128 = (10, 0%Q).
Proof.
  apply findCorrection_degenerate.
  right. left. vm_compute. discriminate.
Defined.

(** C6, as the code has it.  The correction that [findCorrection] returns
    is bounded in magnitude by [samplesPerPixel], the number of samples of
    one pixel column, for every input. *)
Theorem findCorrection_correction_bound
    (oldWhere : list sampleCount) (oldLen newLen : Z)
    (t0 rate samplesPerPixel : double) :
  (Qabs (snd (findCorrection oldWhere oldLen newLen t0 rate samplesPerPixel))
   <= Qabs samplesPerPixel)%Q.
Proof.
  unfold findCorrection.
  match goal with |- context [if ?b then _ else _] => destruct b end; cbn [snd].
  - apply Qabs_nonneg.
  - apply clamp_bounds.
Qed.

(** C6, as stated, fails.  An old cache of ten columns of 128 samples from
    sample 0 on, at 8 samples per second, and a new view that starts at 5
    seconds: the case is not degenerate and the correction is -40 samples,
    which is 5 seconds, where a sample period is one sample, which is an
    eighth of a second. *)
Lemma correction_exceeds_sample_period :
  let rate : double := 8%Q in
  let samplesPerPixel : double := 128%Q in
  let r := findCorrection [0; 128; 256] 10 10 5 rate samplesPerPixel in
  r = (0, (-40 # 1)%Q)
  /\ ~ (Qabs (snd r) <= 1)%Q
  /\ ~ (Qabs (snd r / rate) <= 1 / rate)%Q.
Proof.
  cbv zeta. split; [reflexivity|]. split; vm_compute; intro H; apply H; reflexivity.
Qed.

(** ** fillWhere *)

Lemma Sorted_map_seq (f : Z -> Z) (n a : nat) :
  (forall x y, x <= y -> f x <= f y) ->
  Sorted Z.le (map f (map Z.of_nat (seq a n))).
Proof.
  intros Hf. revert a.
  induction n as [|n IH]; intros a; simpl.
  - constructor.
  - constructor; [apply IH|].
    destruct n; simpl; constructor. apply Hf. lia.
Qed.

Lemma fillWhere_length (len : Z) (bias correction t0 rate spp : double) :
  length (fillWhere len bias correction t0 rate spp)
  = Datatypes.S (Z.to_nat len).
Proof.
  unfold fillWhere, from_1_to. cbn [length].
  now rewrite !length_map, length_seq.
Qed.

(** The first entry is never negative, whatever the inputs. *)
Lemma fillWhere_first_nonneg (len : Z) (bias correction t0 rate spp : double) :
  0 <= hd 0 (fillWhere len bias correction t0 rate spp).
Proof.
  unfold fillWhere. cbn [hd]. rewrite first_entry. lia.
Qed.

Lemma column_monotone (w0 spp : Q) (x y : Z) :
  (0 <= spp)%Q -> x <= y ->
  floor (w0 + inject_Z x * spp)%Q <= floor (w0 + inject_Z y * spp)%Q.
Proof.
  intros Hs Hxy. unfold floor. apply Qfloor_resp_le.
  rewrite Zle_Qle in Hxy. nra.
Qed.

(** The entries after the first never decrease when the number of samples
    per pixel is not negative. *)
Lemma fillWhere_rest_sorted (len : Z) (bias correction t0 rate spp : double) :
  (0 <= spp)%Q ->
  Sorted Z.le (tl (fillWhere len bias correction t0 rate spp)).
Proof.
  intros Hs. unfold fillWhere, from_1_to. cbn [tl].
  apply Sorted_map_seq. intros x y. now apply column_monotone.
Qed.

(** The whole mapping never decreases when, moreover, the second entry is
    computed from a non-negative position. *)
Lemma fillWhere_sorted (len : Z) (bias correction t0 rate spp : double) :
  (0 <= spp)%Q ->
  (0 <= fillWhere_w0 bias correction t0 rate + spp)%Q ->
  Sorted Z.le (fillWhere len bias correction t0 rate spp).
Proof.
  intros Hs Hw.
  pose proof (fillWhere_rest_sorted len bias correction t0 rate spp Hs) as Hr.
  unfold fillWhere in *. cbn [tl] in Hr. constructor; [exact Hr|].
  rewrite first_entry.
  unfold from_1_to.
  set (w0 := fillWhere_w0 bias correction t0 rate) in *.
  destruct (Z.to_nat len) as [|n]; cbn [seq map]; constructor.
  apply Z.max_lub.
  - unfold floor.
    assert (H : (inject_Z 0 <= w0 + inject_Z (Z.of_nat 1) * spp)%Q).
    { change (inject_Z 0) with 0%Q. change (inject_Z (Z.of_nat 1)) with 1%Q.
      lra. }
    apply Qfloor_resp_le in H. now rewrite Qfloor_Z in H.
  - unfold floor. apply Qfloor_resp_le.
    change (inject_Z (Z.of_nat 1)) with 1%Q. lra.
Qed.

Lemma copy_plan_correction (match_ : bool) (oldWhere : list sampleCount)
    (oldLen numPixels : Z) (t0 : double) (mRate_ : Z) (spp : double) :
  (0 <= spp)%Q ->
  (- spp <= snd (fst (fst (WaveClip.copy_plan match_ oldWhere oldLen numPixels
                                              t0 mRate_ spp))))%Q.
Proof.
  intros Hs. unfold WaveClip.copy_plan. destruct match_; [|cbn; lra].
  unfold findCorrection.
  match goal with |- context [if ?b then _ else _] => destruct b end;
    cbn [fst snd].
  - lra.
  - now apply clamp_lower.
Qed.

Lemma samplesPerPixel_nonneg (mRate_ : Z) (pps : double) :
  0 < mRate_ -> (0 < pps)%Q -> (0 <= inject_Z mRate_ * (1 / pps))%Q.
Proof.
  intros Hr Hp. apply Qmult_le_0_compat.
  - change 0%Q with (inject_Z 0). rewrite <- Zle_Qle. lia.
  - unfold Qdiv. rewrite Qmult_1_l. apply Qlt_le_weak, Qinv_lt_0_compat, Hp.
Qed.

Lemma fillWhere_good (numPixels : Z) (bias correction t0 : double)
    (mRate_ : Z) (spp : double) :
  0 < numPixels -> 0 < mRate_ -> (0 <= spp)%Q -> (0 <= t0)%Q ->
  (0 <= bias)%Q -> (- spp <= correction)%Q ->
  good_where numPixels
    (fillWhere numPixels bias correction t0 (inject_Z mRate_) spp).
Proof.
  intros Hn Hr Hs Ht Hb Hc. unfold good_where.
  split; [|split].
  - rewrite fillWhere_length. lia.
  - apply fillWhere_sorted; [exact Hs|].
    unfold fillWhere_w0.
    assert (0 <= t0 * inject_Z mRate_)%Q.
    { apply Qmult_le_0_compat; [exact Ht|].
      change 0%Q with (inject_Z 0). rewrite <- Zle_Qle. lia. }
    lra.
  - apply fillWhere_first_nonneg.
Qed.

(** ** The two queries *)

Section Queries.

Context {S : Type} {api : Sequence.API S} {math : Math}.
Context {W : Type} {kernel : SpecCache.Kernel W}.
Variable zero_padded : bool.

Import WaveClip.

(** C1, as the code has it.  For a positive pixel count, a positive number
    of pixels per second, a clip with a positive sample rate and a start
    time that is not negative, the mapping of a cache that
    [GetWaveDisplay] or [GetSpectrogram] has just built has one entry more
    than there are pixels, never decreases and starts at a sample that is
    not negative. *)
Theorem where_of_rebuilt_cache (clip : WaveClip.t S) (display : WaveDisplay.t)
    (waveTrackCache : W) (settings : SpectrogramSettings.t)
    (t0 pixelsPerSecond : double) :
  let numPixels := WaveDisplay.width display in
  0 < numPixels -> (0 < pixelsPerSecond)%Q -> 0 < mRate clip -> (0 <= t0)%Q ->
  let wave := GetWaveDisplay clip display t0 pixelsPerSecond in
  let spec :=
    GetSpectrogram zero_padded clip waveTrackCache settings numPixels
                   t0 pixelsPerSecond in
  (wd_path wave = Rebuilt ->
   exists new, mWaveCache (wd_clip wave) = Some new
               /\ good_where numPixels (WaveCache.where_ new))
  /\ (sp_path spec = Rebuilt -> good_where numPixels (sp_where spec)).
Proof.
  intros numPixels Hn Hp Hr Ht.
  pose proof (samplesPerPixel_nonneg (mRate clip) pixelsPerSecond Hr Hp) as Hs.
  cbv zeta. split.
  - unfold GetWaveDisplay. fold numPixels.
    destruct (WaveDisplay.allocated display).
    { break_lets. break_fetched; discriminate. }
    destruct (mWaveCache clip) as [cache|] eqn:Hc.
    + match goal with |- context [if ?b then _ else _] => destruct b end.
      * discriminate.
      * pose proof (copy_plan_correction
           (wave_match clip numPixels pixelsPerSecond)
           (WaveCache.where_ cache) (WaveCache.len cache) numPixels t0
           (mRate clip) _ Hs) as Hcorr.
        destruct (copy_plan _ _ _ _ _ _ _)
          as [[[oldX0 correction] copyBegin] copyEnd].
        cbn [fst snd] in Hcorr.
        break_lets. intros _.
        break_fetched; cbn [wd_clip with_WaveCache mWaveCache];
          eexists; (split; [reflexivity|]);
          destruct (copyEnd >? copyBegin);
          cbn [WaveCache.where_ WaveCache.set_columns WaveCache.write_columns
               WaveCache.with_where];
          apply fillWhere_good; auto; lra.
    + break_lets. intros _.
      break_fetched; cbn [wd_clip with_WaveCache mWaveCache];
        eexists; (split; [reflexivity|]);
        cbn [WaveCache.where_ WaveCache.set_columns WaveCache.write_columns
             WaveCache.with_where];
        apply fillWhere_good; auto; lra.
  - unfold GetSpectrogram.
    destruct (mSpecCache clip) as [cache|] eqn:Hc.
    + match goal with |- context [if ?b then _ else _] => destruct b end.
      * discriminate.
      * match goal with |- context [copy_plan ?m ?a ?b ?c ?d ?e ?f] =>
          pose proof (copy_plan_correction m a b c d e f Hs) as Hcorr;
          destruct (copy_plan m a b c d e f)
            as [[[oldX0 correction] copyBegin] copyEnd]
        end.
        cbn [fst snd] in Hcorr. intros _. cbn [sp_where].
        destruct (copyEnd >? copyBegin);
          cbn [SpecCache.where_ SpecCache.with_dirty SpecCache.Populate
               SpecCache.with_freq SpecCache.with_where];
          apply fillWhere_good; auto; lra.
    + intros _. cbn [sp_where].
      cbn [SpecCache.where_ SpecCache.with_dirty SpecCache.Populate
           SpecCache.with_freq SpecCache.with_where].
      apply fillWhere_good; auto; lra.
Qed.

Lemma wave_full_hit_reflect (clip : WaveClip.t S) (cache : WaveCache.t)
    (numPixels : Z) (t0 pps : double) :
  mWaveCache clip = Some cache ->
  wave_match clip numPixels pps
  && Qeq_bool (WaveCache.start cache) t0
  && (WaveCache.len cache >=? numPixels) = true
  <->
  0 < WaveCache.len cache /\
  WaveCache.dirty cache = mDirty clip /\
  pps_close (WaveCache.pps cache) pps numPixels (mRate clip) /\
  (WaveCache.start cache == t0)%Q /\
  numPixels <= WaveCache.len cache.
Proof.
  intros Hc. unfold wave_match. rewrite Hc.
  rewrite !andb_true_iff. unfold ppsMatch, fabs, pps_close.
  rewrite Qlt_bool_iff, Qeq_bool_iff, Z.gtb_lt, Z.eqb_eq, Z.geb_le.
  tauto.
Qed.

(** C2, as the code has it.  [GetWaveDisplay] takes the full-hit path
    exactly when the display has no arrays of its own, the clip's cache
    has at least one column, the generation of the cache is the clip's
    current one, the cached pixels per second match the requested ones
    within the tolerance, the cached start is [t0] and the cache is at
    least as long as the request.  On that path the invalid regions of the
    cache are loaded and cleared, the display is pointed at the arrays of
    that same cache, no cache is built, the call returns [true], and the
    loading flag is whether the count of on-demand pixels is positive. *)
Theorem GetWaveDisplay_full_hit (clip : WaveClip.t S) (display : WaveDisplay.t)
    (t0 pixelsPerSecond : double) :
  let r := GetWaveDisplay clip display t0 pixelsPerSecond in
  (wd_path r = FullHit <-> wave_full_hit clip display t0 pixelsPerSecond)
  /\
  (wd_path r = FullHit ->
   exists cache,
     mWaveCache clip = Some cache /\
     let drained :=
       WaveCache.ClearInvalidRegions
         (WaveCache.LoadInvalidRegions cache (mSequence clip) true) in
     wd_return r = true /\
     WaveDisplay.arrays (wd_display r) = WaveDisplay.Cached /\
     wd_clip r = with_WaveCache clip (Some drained) /\
     wd_isLoadingOD r = (WaveCache.numODPixels drained >? 0)).
Proof.
  cbv zeta. unfold GetWaveDisplay, wave_full_hit.
  destruct (WaveDisplay.allocated display) eqn:Ha.
  - break_lets. break_fetched; cbn [wd_path]; split.
    all: try (split; [discriminate | intros [H _]; discriminate]).
    all: discriminate.
  - destruct (mWaveCache clip) as [cache|] eqn:Hc.
    + pose proof (wave_full_hit_reflect clip cache (WaveDisplay.width display)
                    t0 pixelsPerSecond Hc) as R.
      destruct (wave_match clip (WaveDisplay.width display) pixelsPerSecond
                && Qeq_bool (WaveCache.start cache) t0
                && (WaveCache.len cache >=? WaveDisplay.width display)) eqn:Hit.
      * cbn [wd_path wd_return wd_display wd_clip wd_isLoadingOD
             WaveDisplay.arrays].
        split.
        -- split; [intros _|reflexivity].
           split; [reflexivity|]. exists cache. split; [reflexivity|].
           apply R. reflexivity.
        -- intros _. exists cache. repeat split.
      * break_lets. break_fetched; cbn [wd_path]; split.
        all: try discriminate.
        all: split; [discriminate|].
        all: intros [_ (c & Ec & H)]; inversion Ec; subst c;
             apply R in H; discriminate.
    + break_lets. break_fetched; cbn [wd_path]; split.
      all: try discriminate.
      all: split; [discriminate|].
      all: intros [_ (c & Ec & _)]; discriminate.
Qed.

End Queries.

Section Failure.

Context {S : Type} {api : Sequence.API S} {math : Math}.

Import WaveClip.

(** [GetWaveDisplay] returns [false] exactly when the call that fetches
    the missing columns from the sequence is made and fails. *)
Lemma GetWaveDisplay_false_iff (clip : WaveClip.t S) (display : WaveDisplay.t)
    (t0 pixelsPerSecond : double) :
  let r := GetWaveDisplay clip display t0 pixelsPerSecond in
  wd_return r = false <-> wd_fetched r = Some false.
Proof.
  cbv zeta. unfold GetWaveDisplay.
  destruct (WaveDisplay.allocated display).
  - break_lets. break_fetched; cbn; split; congruence.
  - destruct (mWaveCache clip) as [cache|].
    + match goal with |- context [if ?b then _ else _] => destruct b end.
      * cbn. split; congruence.
      * break_lets. break_fetched; cbn; split; congruence.
    + break_lets. break_fetched; cbn; split; congruence.
Qed.

(** C4, as the code has it.  When the call of [Sequence::GetWaveDisplay]
    that fetches the missing columns fails, [GetWaveDisplay] returns
    [false] and sets [isLoadingOD] to [false], and a display that has no
    arrays of its own is left as it was: the caller receives the failure
    and is handed no buffer. *)
Theorem GetWaveDisplay_failure (clip : WaveClip.t S) (display : WaveDisplay.t)
    (t0 pixelsPerSecond : double) :
  let r := GetWaveDisplay clip display t0 pixelsPerSecond in
  wd_fetched r = Some false ->
  wd_return r = false
  /\ wd_isLoadingOD r = false
  /\ (WaveDisplay.allocated display = false -> wd_display r = display).
Proof.
  cbv zeta. unfold GetWaveDisplay.
  destruct (WaveDisplay.allocated display).
  - break_lets. break_fetched; cbn; intros H; try discriminate.
    split; [reflexivity|]. split; [reflexivity|]. discriminate.
  - destruct (mWaveCache clip) as [cache|].
    + match goal with |- context [if ?b then _ else _] => destruct b end.
      * cbn. discriminate.
      * break_lets. break_fetched; cbn [wd_fetched]; intros H; try discriminate.
        cbn [wd_return wd_isLoadingOD wd_display].
        repeat split.
    + break_lets. break_fetched; cbn [wd_fetched]; intros H; try discriminate.
      cbn [wd_return wd_isLoadingOD wd_display].
      repeat split.
Qed.

(** What the failed call leaves in the clip: the cache that was built for
    the request is by then the clip's wave cache, with the clip's
    generation and the start, the pixels per second and the length of the
    request. *)
Lemma GetWaveDisplay_failure_leaves_cache (clip : WaveClip.t S)
    (display : WaveDisplay.t) (t0 pixelsPerSecond : double) :
  let r := GetWaveDisplay clip display t0 pixelsPerSecond in
  wd_fetched r = Some false ->
  WaveDisplay.allocated display = false ->
  exists new,
    mWaveCache (wd_clip r) = Some new
    /\ WaveCache.dirty new = mDirty clip
    /\ WaveCache.len new = WaveDisplay.width display
    /\ WaveCache.start new = t0
    /\ WaveCache.pps new = pixelsPerSecond.
Proof.
  cbv zeta. unfold GetWaveDisplay. intros H Ha. rewrite Ha in *.
  revert H.
  destruct (mWaveCache clip) as [cache|].
  - match goal with |- context [if ?b then _ else _] => destruct b end.
    + cbn. discriminate.
    + break_lets. break_fetched; cbn [wd_fetched]; intros H; try discriminate.
      cbn [wd_clip]. eexists. split; [reflexivity|].
      match goal with |- context [if ?c then _ else _] => destruct c end;
        repeat split.
  - break_lets. break_fetched; cbn [wd_fetched]; intros H; try discriminate.
    cbn [wd_clip]. eexists. split; [reflexivity|]. repeat split.
Qed.

End Failure.

(** The clip with two samples in a sequence that cannot be read and two
    more in the append buffer, asked for four pixels at one pixel per
    second from time 0. *)
Lemma GetWaveDisplay_failure_witness :
  let r :=
    WaveClip.GetWaveDisplay (api := Example.ListSequence_API)
      (math := Example.exact_sqrt)
      (Example.two_and_two false) (Example.new_display 4) 0 1 in
  WaveClip.wd_fetched r = Some false
  /\ WaveClip.wd_return r = false
  /\ WaveClip.wd_isLoadingOD r = false.
Proof.
  cbv zeta. split; [reflexivity|].
  pose proof (GetWaveDisplay_failure (api := Example.ListSequence_API)
                (math := Example.exact_sqrt)
                (Example.two_and_two false) (Example.new_display 4) 0 1)
    as H.
  cbv zeta in H. destruct (H eq_refl) as (H1 & H2 & _).
  split; assumption.
Defined.

(** C4, as stated, fails.  The same clip and request: the two columns of
    the append buffer are filled, the fetch of the other two from the
    sequence fails and the call returns [false]; yet the half-filled cache
    is the clip's wave cache and carries the clip's generation, and the
    same request, made again, is a full hit that returns [true] and points
    the display at those arrays. *)
Lemma failed_rebuild_is_served_next :
  let clip := Example.two_and_two false in
  let first :=
    WaveClip.GetWaveDisplay (api := Example.ListSequence_API)
      (math := Example.exact_sqrt) clip (Example.new_display 4) 0 1 in
  let second :=
    WaveClip.GetWaveDisplay (api := Example.ListSequence_API)
      (math := Example.exact_sqrt)
      (WaveClip.wd_clip first) (Example.new_display 4) 0 1 in
  WaveClip.wd_fetched first = Some false
  /\ WaveClip.wd_return first = false
  /\ (exists published,
        WaveClip.mWaveCache (WaveClip.wd_clip first) = Some published
        /\ WaveCache.dirty published = WaveClip.mDirty clip
        /\ WaveCache.where_ published = [0; 1; 2; 3; 4]
        /\ WaveCache.max published = [0; 0; 1; 1]%Q
        /\ WaveCache.bl published = [0; 0; 1; 1])
  /\ WaveClip.wd_path second = WaveClip.FullHit
  /\ WaveClip.wd_return second = true
  /\ WaveDisplay.arrays (WaveClip.wd_display second) = WaveDisplay.Cached
  /\ WaveClip.mWaveCache (WaveClip.wd_clip second)
     = WaveClip.mWaveCache (WaveClip.wd_clip first).
Proof.
  cbv zeta. repeat split; try reflexivity.
  eexists. split; [reflexivity|]. repeat split.
Qed.

(** The clip of four samples, asked for two pixels at one pixel per second
    from time 0. *)
Lemma where_of_rebuilt_cache_witness :
  let clip := Example.four_samples in
  let display := Example.new_display 2 in
  let wave :=
    WaveClip.GetWaveDisplay (api := Example.ListSequence_API)
      (math := Example.exact_sqrt) clip display 0 1 in
  let spec :=
    WaveClip.GetSpectrogram (api := Example.ListSequence_API)
      (kernel := Example.idle_Kernel) true clip tt
      (Example.settings4 SpectrogramSettings.algSTFT) 2 0 1 in
  (WaveClip.wd_path wave = WaveClip.Rebuilt ->
   exists new, WaveClip.mWaveCache (WaveClip.wd_clip wave) = Some new
               /\ good_where 2 (WaveCache.where_ new))
  /\ (WaveClip.sp_path spec = WaveClip.Rebuilt ->
      good_where 2 (WaveClip.sp_where spec)).
Proof.
  apply (where_of_rebuilt_cache (api := Example.ListSequence_API)
           (math := Example.exact_sqrt) (kernel := Example.idle_Kernel)
           true Example.four_samples (Example.new_display 2) tt
           (Example.settings4 SpectrogramSettings.algSTFT) 0 1).
  - reflexivity.
  - reflexivity.
  - reflexivity.
  - discriminate.
Defined.

(** C1, as stated, fails.  The clip of four samples, asked for two pixels
    at one pixel per second from 10 seconds before its start: the cache is
    built with the mapping 0, -9, -8, which decreases after its first
    entry. *)
Lemma where_decreases_for_negative_start :
  let r :=
    WaveClip.GetWaveDisplay (api := Example.ListSequence_API)
      (math := Example.exact_sqrt)
      Example.four_samples (Example.new_display 2) (-10 # 1) 1 in
  WaveClip.wd_path r = WaveClip.Rebuilt
  /\ fillWhere 2 0 0 (-10 # 1) 1 1 = [0; -9; -8]
  /\ option_map WaveCache.where_ (WaveClip.mWaveCache (WaveClip.wd_clip r))
     = Some [0; -9; -8]
  /\ ~ Sorted Z.le [0; -9; -8].
Proof.
  cbv zeta. repeat split; try reflexivity.
  intros H. inversion H as [|a l Hs Hh]; subst.
  inversion Hh as [|b l' Hle]; subst. lia.
Qed.

(** C2, as stated, fails.  The clip with two samples in its sequence and
    two in its append buffer is asked for four pixels and builds its cache;
    the same request with a display that has its own arrays meets the four
    conditions on the cache and is nevertheless served from those arrays,
    not from the cache. *)
Lemma allocated_display_never_hits :
  let first :=
    WaveClip.GetWaveDisplay (api := Example.ListSequence_API)
      (math := Example.exact_sqrt)
      (Example.two_and_two true) (Example.new_display 4) 0 1 in
  let clip := WaveClip.wd_clip first in
  let display := Example.allocated_display 4 in
  let r :=
    WaveClip.GetWaveDisplay (api := Example.ListSequence_API)
      (math := Example.exact_sqrt) clip display 0 1 in
  wave_four_conditions clip display 0 1
  /\ WaveClip.wd_path r = WaveClip.OwnArrays
  /\ WaveClip.wd_path r <> WaveClip.FullHit.
Proof.
  cbv zeta. split; [|split; [reflexivity|discriminate]].
  eexists. split; [reflexivity|].
  split; [reflexivity|]. split; [reflexivity|].
  split; [reflexivity|]. vm_compute. discriminate.
Qed.

(** ** The invalid regions *)

Lemma clip_to_cache_bounds (c : WaveCache.t) (x : Z) :
  0 <= WaveCache.len c ->
  0 <= WaveCache.clip_to_cache c x <= WaveCache.len c.
Proof.
  intros Hl. unfold WaveCache.clip_to_cache.
  destruct (x <? 0) eqn:E1; [lia|].
  destruct (x >? WaveCache.len c) eqn:E2; lia.
Qed.

(** C7, as the code has it.  [AddInvalidRegion] leaves the cache as it is
    when the pixels per second of the cache are zero, and also when both
    ends of the range, converted to pixels, are negative or both are at
    least the length of the cache; in every other case both ends are
    clipped to the pixels from 0 to the length and the clipped range is
    inserted or merged, everything else in the cache being left alone. *)
Theorem AddInvalidRegion_cases (c : WaveCache.t)
    (sampleStart sampleEnd : sampleCount) :
  let invalStart := WaveCache.invalStart0 c sampleStart in
  let invalEnd := WaveCache.invalEnd0 c sampleEnd in
  let len := WaveCache.len c in
  let off_cache :=
    (invalStart < 0 /\ invalEnd < 0) \/ (len <= invalStart /\ len <= invalEnd) in
  ((WaveCache.pps c == 0)%Q ->
   WaveCache.AddInvalidRegion c sampleStart sampleEnd = c)
  /\ (off_cache -> WaveCache.AddInvalidRegion c sampleStart sampleEnd = c)
  /\ (~ (WaveCache.pps c == 0)%Q -> ~ off_cache ->
      WaveCache.AddInvalidRegion c sampleStart sampleEnd
      = WaveCache.with_regions c
          (WaveCache.insert_region (WaveCache.mRegions c)
             (WaveCache.clip_to_cache c invalStart)
             (WaveCache.clip_to_cache c invalEnd))
      /\ (0 <= len ->
          0 <= WaveCache.clip_to_cache c invalStart <= len
          /\ 0 <= WaveCache.clip_to_cache c invalEnd <= len)).
Proof.
  cbv zeta. unfold WaveCache.AddInvalidRegion.
  split; [|split].
  - intros H. apply Qeq_bool_iff in H. now rewrite H.
  - intros H. destruct (Qeq_bool (WaveCache.pps c) 0); [reflexivity|].
    match goal with |- (if ?b then _ else _) = _ =>
      assert (E : b = true); [|now rewrite E] end.
    rewrite orb_true_iff, !andb_true_iff, !Z.ltb_lt, !Z.geb_le. exact H.
  - intros Hp Hoff.
    destruct (Qeq_bool (WaveCache.pps c) 0) eqn:Ep.
    { apply Qeq_bool_iff in Ep. contradiction. }
    match goal with |- (if ?b then _ else _) = _ /\ _ =>
      assert (E : b = false) end.
    { apply not_true_is_false. intros E. apply Hoff.
      rewrite orb_true_iff, !andb_true_iff, !Z.ltb_lt, !Z.geb_le in E.
      exact E. }
    rewrite E. split; [reflexivity|].
    intros Hl. split; now apply clip_to_cache_bounds.
Qed.

(** A cache of 200 pixels at one sample per pixel and the samples 10 to
    19: the range is on the cache and the region 10..20 is inserted. *)
Lemma AddInvalidRegion_cases_witness :
  WaveCache.AddInvalidRegion Example.cache200 10 19
  = WaveCache.with_regions Example.cache200 [InvalidRegion.mk 10 20].
Proof.
  pose proof (AddInvalidRegion_cases Example.cache200 10 19) as H.
  cbv zeta in H. destruct H as (_ & _ & H).
  destruct H as [H _].
  - vm_compute. discriminate.
  - intros [[H _] | [H _]]; vm_compute in H;
      [discriminate H | apply H; reflexivity].
  - exact H.
Defined.

(** C7, as stated, fails.  A cache of 200 pixels at one sample per pixel
    and the samples 200 to 200: the range starts at pixel 200, which is not
    beyond the pixels 0 to 200, and ends at pixel 201; it is not clipped
    to 200..200 and inserted, it is dropped. *)
Lemma AddInvalidRegion_drops_range_at_len :
  let c := Example.cache200 in
  let invalStart := WaveCache.invalStart0 c 200 in
  let invalEnd := WaveCache.invalEnd0 c 200 in
  let len := WaveCache.len c in
  ~ (WaveCache.pps c == 0)%Q
  /\ invalStart = 200 /\ invalEnd = 201 /\ len = 200
  /\ ~ ((invalStart < 0 /\ invalEnd < 0) \/ (len < invalStart /\ len < invalEnd))
  /\ WaveCache.AddInvalidRegion c 200 200 = c
  /\ WaveCache.AddInvalidRegion c 200 200
     <> WaveCache.with_regions c
          (WaveCache.insert_region (WaveCache.mRegions c)
             (WaveCache.clip_to_cache c invalStart)
             (WaveCache.clip_to_cache c invalEnd)).
Proof.
  cbv zeta. split; [vm_compute; discriminate|].
  split; [reflexivity|]. split; [reflexivity|]. split; [reflexivity|].
  split.
  - vm_compute. intros [[H _] | [H _]]; discriminate H.
  - split; [reflexivity|]. vm_compute. discriminate.
Qed.

(** The two examples of merging: the pixel regions 10..20 and then 19..30
    leave the single region 10..30, and the regions 0..5 and then 100..110
    leave two regions that are apart. *)
Lemma AddInvalidRegion_examples :
  WaveCache.mRegions (Example.add_regions Example.cache200 [(10, 19); (19, 29)])
  = [InvalidRegion.mk 10 30]
  /\ WaveCache.mRegions
       (Example.add_regions Example.cache200 [(0, 4); (100, 109)])
     = [InvalidRegion.mk 100 110; InvalidRegion.mk 0 5]
  /\ pairwise_apart [InvalidRegion.mk 100 110; InvalidRegion.mk 0 5] = true.
Proof. repeat split. Qed.

(** C3: the code at its failing input.  On a cache of 200 pixels at one
    sample per pixel, the sample ranges 0..4, 100..109, 50..59 and 4..50
    arrive in this order; they are the pixel regions 0..5, 100..110, 50..60
    and 4..51.  The last one is merged into 50..60, the first region the
    search meets, and the patching loop stops at 100..110, whose start lies
    beyond the new range; the regions 4..60 and 0..5 are left in the
    vector and overlap. *)
Theorem AddInvalidRegion_leaves_overlap :
  let c :=
    Example.add_regions Example.cache200
      [(0, 4); (100, 109); (50, 59); (4, 50)] in
  WaveCache.mRegions c
  = [InvalidRegion.mk 4 60; InvalidRegion.mk 100 110; InvalidRegion.mk 0 5]
  /\ apart (InvalidRegion.mk 4 60) (InvalidRegion.mk 0 5) = false
  /\ pairwise_apart (WaveCache.mRegions c) = false.
Proof. repeat split. Qed.

(** ** The spectrogram query *)

(** The values of a loop variable that runs from [lo] to [hi - 1]. *)
Lemma range_In (lo hi x : Z) : In x (range lo hi) <-> lo <= x < hi.
Proof.
  unfold range. rewrite in_map_iff. split.
  - intros (k & <- & Hk). apply in_seq in Hk. lia.
  - intros H. exists (Z.to_nat (x - lo)). split; [lia|].
    apply in_seq. lia.
Qed.

Section Spectrogram.

Context {S : Type} {api : Sequence.API S}.
Context {W : Type} {kernel : SpecCache.Kernel W}.
Variable zero_padded : bool.

Import WaveClip.

Lemma Algorithm_eqb_eq (a b : SpectrogramSettings.Algorithm) :
  SpectrogramSettings.Algorithm_eqb a b = true <-> a = b.
Proof. destruct a, b; cbn; split; congruence. Qed.

Lemma Matches_iff (cache : SpecCache.t) (dirty_ : Z) (pps : double)
    (settings : SpectrogramSettings.t) (rate : Z) :
  SpecCache.Matches cache dirty_ pps settings (inject_Z rate) = true
  <-> SpecCache.dirty cache = dirty_
      /\ same_settings cache settings
      /\ pps_close (SpecCache.pps cache) pps (SpecCache.len cache) rate.
Proof.
  unfold SpecCache.Matches, same_settings, pps_close, fabs.
  rewrite !andb_true_iff, Qlt_bool_iff, !Z.eqb_eq.
  destruct (SpecCache.algorithm cache) as [a|].
  - rewrite Algorithm_eqb_eq. split.
    + intros [[[[[[H1 H2] H3] H4] H5] H6] H7]. subst a. tauto.
    + intros (H1 & (H2 & H3 & H4 & H5 & H6) & H7). inversion H6. tauto.
  - split.
    + intros [_ H]. discriminate.
    + intros (_ & (_ & _ & _ & _ & H) & _). discriminate.
Qed.

Lemma spec_full_hit_reflect (clip : WaveClip.t S) (cache : SpecCache.t)
    (settings : SpectrogramSettings.t) (numPixels : Z) (t0 pps : double) :
  mSpecCache clip = Some cache ->
  spec_match clip settings pps
  && Qeq_bool (SpecCache.start cache) t0
  && (SpecCache.len cache >=? numPixels) = true
  <-> spec_full_hit clip settings numPixels t0 pps.
Proof.
  intros Hc. unfold spec_match, spec_full_hit. rewrite Hc.
  rewrite !andb_true_iff, Qeq_bool_iff, Z.gtb_lt, Z.geb_le, Matches_iff.
  split.
  - intros [[[H1 H2] H3] H4]. exists cache. tauto.
  - intros (c & Ec & H). inversion Ec; subst c. tauto.
Qed.

(** C10.  [GetSpectrogram] is a total function that has no failure
    result: it returns [false] exactly when the request is a full hit,
    and then hands out the arrays of the clip's cache and leaves the clip
    as it is; it returns [true] exactly when it has built and populated a
    new cache, whose arrays it hands out. *)
Theorem GetSpectrogram_return (clip : WaveClip.t S) (waveTrackCache : W)
    (settings : SpectrogramSettings.t) (numPixels : Z)
    (t0 pixelsPerSecond : double) :
  let r :=
    GetSpectrogram zero_padded clip waveTrackCache settings numPixels
                   t0 pixelsPerSecond in
  (sp_return r = false
   <-> spec_full_hit clip settings numPixels t0 pixelsPerSecond)
  /\ (sp_return r = false <-> sp_path r = FullHit)
  /\ (sp_return r = true <-> sp_path r = Rebuilt)
  /\ (sp_return r = false ->
      sp_clip r = clip
      /\ exists cache,
           mSpecCache clip = Some cache
           /\ sp_spectrogram r = SpecCache.freq cache
           /\ sp_where r = SpecCache.where_ cache)
  /\ (sp_return r = true ->
      exists new,
        sp_clip r = with_SpecCache clip (Some new)
        /\ sp_spectrogram r = SpecCache.freq new
        /\ sp_where r = SpecCache.where_ new
        /\ SpecCache.dirty new = mDirty clip).
Proof.
  cbv zeta. unfold GetSpectrogram.
  destruct (mSpecCache clip) as [cache|] eqn:Hc.
  - pose proof (spec_full_hit_reflect clip cache settings numPixels t0
                  pixelsPerSecond Hc) as R.
    match goal with |- context [if ?b then _ else _] => destruct b eqn:Hit end.
    + cbn [sp_return sp_path sp_clip sp_spectrogram sp_where].
      split; [|split; [|split; [|split]]].
      * split; [intros _; apply R; reflexivity | reflexivity].
      * split; reflexivity.
      * split; discriminate.
      * intros _. split; [reflexivity|]. exists cache. repeat split.
      * discriminate.
    + break_lets.
      cbn [sp_return sp_path sp_clip sp_spectrogram sp_where].
      split; [|split; [|split; [|split]]].
      * split; [discriminate|]. intros H. apply R in H. congruence.
      * split; discriminate.
      * split; reflexivity.
      * discriminate.
      * intros _. eexists. repeat split.
  - cbn [sp_return sp_path sp_clip sp_spectrogram sp_where].
    split; [|split; [|split; [|split]]].
    + split; [discriminate|]. intros (c & Ec & _). congruence.
    + split; discriminate.
    + split; reflexivity.
    + discriminate.
    + intros _. eexists. repeat split.
Qed.

(** C8.  When the algorithm is reassignment, [GetSpectrogram] either has
    a full hit and hands out the arrays of the clip's cache, or builds a
    cache into which nothing of the old cache goes, and does what it does
    on a clip that has no cache.  The correction is 0 and no column is
    copied: on a buffer of zeros, [CalculateOneSpectrum] is called on every
    column of the request, from 0 to [numPixels - 1], with the bounds 0
    and [numPixels], and on the columns beyond both edges until it
    returns [false] or the limit is reached; every column of the request
    is then converted to decibels.  The empty range before the copied
    portion comes first, with its own look beyond its edges. *)
Theorem GetSpectrogram_reassignment (clip : WaveClip.t S) (waveTrackCache : W)
    (settings : SpectrogramSettings.t) (numPixels : Z)
    (t0 pixelsPerSecond : double) :
  SpectrogramSettings.algorithm settings = SpectrogramSettings.algReassignment ->
  let r :=
    GetSpectrogram zero_padded clip waveTrackCache settings numPixels
                   t0 pixelsPerSecond in
  let zeroPaddingFactor :=
    SpecCache.effective_zeroPaddingFactor zero_padded settings in
  let rate := inject_Z (mRate clip) in
  let fftLen := SpectrogramSettings.windowSize settings * zeroPaddingFactor in
  let half := fftLen / 2 in
  let fresh :=
    SpecCache.with_where
      (SpecCache.create numPixels SpectrogramSettings.algReassignment
         pixelsPerSecond t0
         (SpectrogramSettings.windowType settings)
         (SpectrogramSettings.windowSize settings)
         zeroPaddingFactor
         (SpectrogramSettings.frequencyGain settings))
      (fillWhere numPixels (1 # 2) 0 t0 rate (rate * (1 / pixelsPerSecond))) in
  let zeros := repeat 0%Q (Z.to_nat (numPixels * half)) in
  let gainFactors :=
    SpecCache.ComputeSpectrogramGainFactors fftLen rate
      (SpectrogramSettings.frequencyGain settings) in
  let calc lowerBoundX upperBoundX xx f :=
    SpecCache.CalculateOneSpectrum settings waveTrackCache
      (SpecCache.with_freq fresh f) xx
      (Sequence.GetNumSamples (mSequence clip)) (mOffset clip) rate
      pixelsPerSecond lowerBoundX upperBoundX gainFactors in
  let limit :=
    Z.to_nat
      (Z.min (to_integer ((1 # 2) + inject_Z fftLen * (pixelsPerSecond / rate)))
             100) in
  let beyond lowerBoundX upperBoundX f :=
    SpecCache.look_beyond limit (calc lowerBoundX upperBoundX) upperBoundX 1
      (SpecCache.look_beyond limit (calc lowerBoundX upperBoundX)
         (lowerBoundX - 1) (-1) f) in
  let computed :=
    fold_left (fun f xx => snd (calc 0 numPixels xx f)) (range 0 numPixels)
              (beyond 0 0 zeros) in
  let spectrogram :=
    fold_left
      (fun f xx => SpecCache.ConvertToDecibels settings gainFactors f half xx)
      (range 0 numPixels) (beyond 0 numPixels computed) in
  let new :=
    SpecCache.with_dirty (SpecCache.with_freq fresh spectrogram) (mDirty clip) in
  (spec_full_hit clip settings numPixels t0 pixelsPerSecond
   /\ exists cache,
        mSpecCache clip = Some cache
        /\ r = mkSpectrogramResult false (SpecCache.freq cache)
                 (SpecCache.where_ cache) clip FullHit)
  \/ (~ spec_full_hit clip settings numPixels t0 pixelsPerSecond
      /\ r = mkSpectrogramResult true spectrogram (SpecCache.where_ fresh)
               (with_SpecCache clip (Some new)) Rebuilt
      /\ r = GetSpectrogram zero_padded (with_SpecCache clip None)
               waveTrackCache settings numPixels t0 pixelsPerSecond).
Proof.
  intros Halg. cbv zeta. unfold GetSpectrogram. rewrite Halg.
  cbn [SpectrogramSettings.Algorithm_eqb].
  destruct (mSpecCache clip) as [cache|] eqn:Hc.
  - pose proof (spec_full_hit_reflect clip cache settings numPixels t0
                  pixelsPerSecond Hc) as R.
    match goal with |- context [if ?b then _ else _] => destruct b eqn:Hit end.
    + left. split; [apply R; reflexivity|]. exists cache. split; reflexivity.
    + right. split; [intros H; apply R in H; congruence|].
      unfold copy_plan. cbn [Z.gtb Z.compare].
      unfold SpecCache.Populate, SpecCache.Populate_range,
        SpecCache.Populate_gainFactors, SpecCache.Populate_fftLen.
      rewrite Halg. cbn [SpectrogramSettings.Algorithm_eqb].
      change (range 0 0) with (@nil Z). cbn [fold_left].
      split; reflexivity.
  - right. split; [intros (c & Ec & _); congruence|].
    cbn [Z.gtb Z.compare].
    unfold SpecCache.Populate, SpecCache.Populate_range,
      SpecCache.Populate_gainFactors, SpecCache.Populate_fftLen.
    rewrite Halg. cbn [SpectrogramSettings.Algorithm_eqb].
    change (range 0 0) with (@nil Z). cbn [fold_left].
    split; reflexivity.
Qed.

End Spectrogram.

(** The clip of four samples with the reassignment algorithm and the
    kernel that leaves marks.  A first query, with the mark 1, builds a
    cache of three columns from time 0, every bin of which holds 1.  A
    second query, with the mark 2, asks for three columns from time 2:
    the old cache matches and holds the first two of them, but every bin
    of the answer holds 2 and no bin holds 1 or 3: every column is
    computed by the second query, on zeros. *)
Lemma GetSpectrogram_reassignment_witness :
  let settings := Example.settings4 SpectrogramSettings.algReassignment in
  let clip1 :=
    WaveClip.sp_clip
      (WaveClip.GetSpectrogram (api := Example.ListSequence_API)
         (kernel := Example.marking_Kernel) true Example.four_samples 1
         settings 3 0 1) in
  let r :=
    WaveClip.GetSpectrogram (api := Example.ListSequence_API)
      (kernel := Example.marking_Kernel) true clip1 2 settings 3 2 1 in
  option_map SpecCache.freq (WaveClip.mSpecCache clip1)
  = Some [1; 1; 1; 1; 1; 1]%Q
  /\ WaveClip.spec_match clip1 settings 1 = true
  /\ WaveClip.sp_return r = true
  /\ WaveClip.sp_spectrogram r = [2; 2; 2; 2; 2; 2]%Q.
Proof.
  cbv zeta. split; [reflexivity|]. split; [reflexivity|].
  destruct (GetSpectrogram_reassignment (api := Example.ListSequence_API)
              (kernel := Example.marking_Kernel) true
              (WaveClip.sp_clip
                 (WaveClip.GetSpectrogram (api := Example.ListSequence_API)
                    (kernel := Example.marking_Kernel) true
                    Example.four_samples 1
                    (Example.settings4 SpectrogramSettings.algReassignment)
                    3 0 1))
              2 (Example.settings4 SpectrogramSettings.algReassignment)
              3 2 1 eq_refl)
    as [[_ (cache & _ & E)] | (_ & E & _)];
    cbv zeta in E; rewrite E.
  - vm_compute in E. discriminate E.
  - split; reflexivity.
Defined.

(** The same two queries with the standard algorithm: the first two
    columns of the second answer are copied from the old cache and still
    hold the mark 1, and the third alone is computed. *)
Lemma standard_algorithm_copies_columns :
  let settings := Example.settings4 SpectrogramSettings.algSTFT in
  let clip1 :=
    WaveClip.sp_clip
      (WaveClip.GetSpectrogram (api := Example.ListSequence_API)
         (kernel := Example.marking_Kernel) true Example.four_samples 1
         settings 3 0 1) in
  let r :=
    WaveClip.GetSpectrogram (api := Example.ListSequence_API)
      (kernel := Example.marking_Kernel) true clip1 2 settings 3 2 1 in
  WaveClip.sp_return r = true
  /\ WaveClip.sp_spectrogram r = [1; 1; 1; 1; 2; 2]%Q.
Proof. cbv zeta. split; reflexivity. Qed.

(** ** The mutators and the generation counter *)

Lemma wrap_int_succ (d : Z) : can_increment d -> WaveClip.wrap_int (d + 1) = d + 1.
Proof.
  unfold can_increment, WaveClip.wrap_int. intros H.
  rewrite Z.mod_small; lia.
Qed.

Section Mutations.

Context {S : Type} {api : Sequence.API S} {math : Math}.
Context {W : Type} {kernel : SpecCache.Kernel W}.
Variable zero_padded : bool.

Import WaveClip.

Lemma Append_loop_keeps (fuel : nat) :
  forall (clip : WaveClip.t S) (maxBlockSize blockSize : Z)
         (buffer : list float) (len : sampleCount) (done : WaveClip.t S),
    Append_loop fuel clip maxBlockSize blockSize buffer len = Some (inl done) ->
    mDirty done = mDirty clip
    /\ mWaveCache done = mWaveCache clip
    /\ mSpecCache done = mSpecCache clip.
Proof.
  induction fuel as [|fuel IH]; intros clip maxBlockSize blockSize buffer len
                                       done H; [discriminate|].
  cbn [Append_loop] in H.
  destruct (mAppendBufferLen clip >=? blockSize).
  - destruct (Sequence.Append _ _ _) as [success s].
    destruct success; [|discriminate].
    destruct (len =? 0).
    + inversion H; subst. repeat split.
    + apply IH in H. cbn in H. exact H.
  - destruct (len =? 0).
    + inversion H; subst. repeat split.
    + apply IH in H. cbn in H. exact H.
Qed.

Lemma run_marks (m : @Mutator S) (clip clip' : WaveClip.t S) :
  run m clip = Some (true, clip') -> clip' <> clip -> is_Resample m = false ->
  marked clip clip'.
Proof.
  intros Hrun Hne Hm. unfold marked.
  destruct m; cbn [run is_Resample] in *; try discriminate.
  - (* SetSamples *)
    unfold SetSamples in Hrun.
    destruct (Sequence.Set_ _ _ _ _) as [b s].
    inversion Hrun; subst. repeat split.
  - (* Append *)
    unfold Append in Hrun. cbv zeta in Hrun.
    match type of Hrun with
    | match Append_loop ?f ?c ?a ?b ?d ?e with _ => _ end = _ =>
        destruct (Append_loop f c a b d e) as [[done|failed]|] eqn:E;
        try discriminate
    end.
    apply Append_loop_keeps in E.
    inversion Hrun; subst.
    destruct (mAppendBuffer clip); cbn in E |- *;
      destruct E as (E1 & E2 & E3); rewrite E1, E2, E3; repeat split.
  - (* AppendAlias *)
    unfold AppendAlias in Hrun.
    destruct (Sequence.AppendAlias _ _ _) as [b s].
    inversion Hrun; subst. repeat split.
  - (* AppendCoded *)
    unfold AppendCoded in Hrun.
    destruct (Sequence.AppendCoded _ _ _) as [b s].
    inversion Hrun; subst. repeat split.
  - (* Flush *)
    unfold Flush in Hrun.
    destruct (mAppendBufferLen clip >? 0).
    + destruct (Sequence.Append _ _ _) as [b s].
      inversion Hrun; subst. repeat split.
    + inversion Hrun; subst. contradiction.
  - (* CreateFromCopy *)
    unfold CreateFromCopy in Hrun.
    destruct (Sequence.Copy _ _ _) as [s|]; inversion Hrun; subst.
    repeat split.
  - (* Paste *)
    injection Hrun as Hrun. unfold Paste in Hrun. cbv zeta in Hrun.
    match type of Hrun with
    | match ?p with _ => _ end = _ => destruct p as [pastedClip|]
    end; [|discriminate].
    destruct (Sequence.Paste _ _ _) as [ok s].
    destruct ok; inversion Hrun; subst. repeat split.
  - (* InsertSilence *)
    unfold InsertSilence in Hrun.
    destruct (Sequence.InsertSilence _ _ _) as [ok s].
    destruct ok; inversion Hrun; subst. repeat split.
  - (* Clear *)
    unfold Clear in Hrun.
    destruct (Sequence.Delete _ _ _) as [ok s].
    destruct ok; inversion Hrun; subst.
    unfold after_Delete.
    destruct (Qlt_bool t0 (GetStartTime clip)); repeat split.
  - (* ClearAndAddCutLine *)
    injection Hrun as Hrun. unfold ClearAndAddCutLine in Hrun. cbv zeta in Hrun.
    destruct (Qlt_bool (GetEndTime clip) t0 || Qlt_bool t1 (GetStartTime clip)).
    + inversion Hrun; subst. contradiction.
    + match type of Hrun with
      | (if ?b then _ else _) = _ => destruct b
      end; [|discriminate].
      destruct (Sequence.Delete _ _ _) as [ok s].
      destruct ok; inversion Hrun; subst.
      unfold after_Delete.
      destruct (Qlt_bool t0 (GetStartTime clip)); repeat split.
  - (* SetRate *)
    inversion Hrun; subst. repeat split.
Qed.

Lemma run_Resample (rate : Z) (clip clip' : WaveClip.t S) :
  run (CallResample rate) clip = Some (true, clip') -> clip' <> clip ->
  mDirty clip' = mDirty clip
  /\ mWaveCache clip' = Some WaveCache.empty
  /\ mSpecCache clip' = Some SpecCache.empty.
Proof.
  cbn [run]. unfold Resample. intros H Hne.
  destruct (rate =? mRate clip).
  - inversion H; subst. contradiction.
  - destruct (Sequence.Resampled _ _ _) as [s|]; inversion H; subst.
    repeat split.
Qed.


Lemma LoadInvalidRegions_dirty (c : WaveCache.t) (sequence : S) (u : bool) :
  WaveCache.dirty (WaveCache.LoadInvalidRegions c sequence u) = WaveCache.dirty c.
Proof.
  unfold WaveCache.LoadInvalidRegions.
  generalize (WaveCache.mRegions c) as rs. intros rs. revert c.
  induction rs as [|r rs IH]; intros c; cbn [fold_left]; [reflexivity|].
  rewrite IH. unfold WaveCache.LoadInvalidRegion. destruct u; reflexivity.
Qed.

(** After [GetWaveDisplay] on a display without arrays of its own the
    clip's wave cache carries the clip's generation. *)
Lemma wave_query_tag (clip : WaveClip.t S) (display : WaveDisplay.t)
    (t0 pps : double) :
  WaveDisplay.allocated display = false ->
  let r := GetWaveDisplay clip display t0 pps in
  mDirty (wd_clip r) = mDirty clip
  /\ mSpecCache (wd_clip r) = mSpecCache clip
  /\ exists cache,
       mWaveCache (wd_clip r) = Some cache
       /\ WaveCache.dirty cache = mDirty clip.
Proof.
  intros Ha. cbv zeta. unfold GetWaveDisplay. rewrite Ha.
  destruct (mWaveCache clip) as [cache|] eqn:Hc.
  - match goal with |- context [if ?b then _ else _] => destruct b eqn:Hit end.
    + cbn [wd_clip with_WaveCache mDirty mSpecCache mWaveCache].
      repeat split. eexists. split; [reflexivity|].
      cbn [WaveCache.ClearInvalidRegions WaveCache.with_regions WaveCache.dirty].
      rewrite LoadInvalidRegions_dirty.
      unfold wave_match in Hit. rewrite Hc in Hit.
      rewrite !andb_true_iff in Hit.
      destruct Hit as [[[_ Hd] _] _]. now apply Z.eqb_eq.
    + break_lets.
      break_fetched; cbn [wd_clip with_WaveCache mDirty mSpecCache mWaveCache];
        repeat split; eexists; (split; [reflexivity|]);
        match goal with |- context [if ?c then _ else _] => destruct c end;
        reflexivity.
  - break_lets.
    break_fetched; cbn [wd_clip with_WaveCache mDirty mSpecCache mWaveCache];
      repeat split; eexists; (split; [reflexivity|]); reflexivity.
Qed.

(** After [GetSpectrogram] the clip's spectrogram cache carries the clip's
    generation. *)
Lemma spec_query_tag (clip : WaveClip.t S) (waveTrackCache : W)
    (settings : SpectrogramSettings.t) (numPixels : Z) (t0 pps : double) :
  let r :=
    GetSpectrogram zero_padded clip waveTrackCache settings numPixels t0 pps in
  mDirty (sp_clip r) = mDirty clip
  /\ mWaveCache (sp_clip r) = mWaveCache clip
  /\ exists cache,
       mSpecCache (sp_clip r) = Some cache
       /\ SpecCache.dirty cache = mDirty clip.
Proof.
  cbv zeta. unfold GetSpectrogram.
  destruct (mSpecCache clip) as [cache|] eqn:Hc.
  - match goal with |- context [if ?b then _ else _] => destruct b eqn:Hit end.
    + cbn [sp_clip]. repeat split. exists cache. split; [exact Hc|].
      unfold spec_match in Hit. rewrite Hc in Hit.
      unfold SpecCache.Matches in Hit.
      rewrite !andb_true_iff in Hit.
      destruct Hit as [[[_ Hm] _] _].
      destruct Hm as [[[[[[_ Hd] _] _] _] _] _]. now apply Z.eqb_eq.
    + break_lets. cbn [sp_clip with_SpecCache mDirty mSpecCache mWaveCache].
      repeat split. eexists. split; reflexivity.
  - cbn [sp_clip with_SpecCache mDirty mSpecCache mWaveCache].
    repeat split. eexists. split; reflexivity.
Qed.

(** A wave cache of another generation, or without columns, is not looked
    into: the query does what it does on a clip without a cache. *)
Lemma wave_stale (clip : WaveClip.t S) (display : WaveDisplay.t)
    (t0 pps : double) :
  WaveDisplay.allocated display = false ->
  (forall cache, mWaveCache clip = Some cache ->
     WaveCache.dirty cache <> mDirty clip \/ WaveCache.len cache <= 0) ->
  wd_path (GetWaveDisplay clip display t0 pps) = Rebuilt
  /\ GetWaveDisplay clip display t0 pps
     = GetWaveDisplay (with_WaveCache clip None) display t0 pps.
Proof.
  intros Ha Hstale. unfold GetWaveDisplay. rewrite Ha.
  cbn [with_WaveCache mWaveCache mRate mDirty mSequence mAppendBuffer
       mAppendBufferLen mOffset mSpecCache].
  destruct (mWaveCache clip) as [cache|] eqn:Hc.
  - assert (Hm : wave_match clip (WaveDisplay.width display) pps = false).
    { unfold wave_match. rewrite Hc.
      destruct (Hstale cache eq_refl) as [H | H].
      - apply Z.eqb_neq in H. rewrite H. apply andb_false_r.
      - assert (E : (WaveCache.len cache >? 0) = false) by lia.
        rewrite E. rewrite andb_false_r. reflexivity. }
    rewrite Hm. cbn [andb copy_plan Z.gtb Z.compare].
    split; [|reflexivity].
    break_lets. break_fetched; reflexivity.
  - split; [|reflexivity].
    break_lets. break_fetched; reflexivity.
Qed.

(** The same for the spectrogram cache. *)
Lemma spec_stale (clip : WaveClip.t S) (waveTrackCache : W)
    (settings : SpectrogramSettings.t) (numPixels : Z) (t0 pps : double) :
  (forall cache, mSpecCache clip = Some cache ->
     SpecCache.dirty cache <> mDirty clip \/ SpecCache.len cache <= 0) ->
  sp_path (GetSpectrogram zero_padded clip waveTrackCache settings numPixels
                          t0 pps) = Rebuilt
  /\ GetSpectrogram zero_padded clip waveTrackCache settings numPixels t0 pps
     = GetSpectrogram zero_padded (with_SpecCache clip None) waveTrackCache
                      settings numPixels t0 pps.
Proof.
  intros Hstale. unfold GetSpectrogram.
  cbn [with_SpecCache mWaveCache mRate mDirty mSequence mAppendBuffer
       mAppendBufferLen mOffset mSpecCache].
  destruct (mSpecCache clip) as [cache|] eqn:Hc.
  - assert (Hm : spec_match clip settings pps = false).
    { unfold spec_match. rewrite Hc.
      destruct (Hstale cache eq_refl) as [H | H].
      - unfold SpecCache.Matches. apply Z.eqb_neq in H. rewrite H.
        rewrite andb_false_r. cbn [andb]. apply andb_false_r.
      - assert (E : (SpecCache.len cache >? 0) = false) by lia.
        rewrite E. reflexivity. }
    rewrite Hm. cbn [andb].
    destruct (SpectrogramSettings.Algorithm_eqb _ _);
      cbn [copy_plan Z.gtb Z.compare]; split; reflexivity.
  - split; reflexivity.
Qed.

(** C9, as the code has it.  A display query of each kind is made, then a
    mutator is called, returns [true] and leaves the clip changed.  If
    the mutator is one of [SetSamples], [Append], [AppendAlias],
    [AppendCoded], [Flush], [CreateFromCopy], [Paste], [InsertSilence],
    [Clear], [ClearAndAddCutLine] and [SetRate], the generation counter
    has gone up by one, through [MarkChanged]; if it is [Resample], the
    counter is what it was and both caches have been replaced by empty
    ones.  In both cases the same queries, made again, build their caches
    anew and do exactly what they do on a clip that has no cache. *)
Theorem mutation_invalidates (m : @Mutator S) (clip0 clip' : WaveClip.t S)
    (display : WaveDisplay.t) (waveTrackCache : W)
    (settings : SpectrogramSettings.t) (numPixels : Z)
    (t0 pixelsPerSecond : double) :
  let clip1 := wd_clip (GetWaveDisplay clip0 display t0 pixelsPerSecond) in
  let clip :=
    sp_clip (GetSpectrogram zero_padded clip1 waveTrackCache settings
                            numPixels t0 pixelsPerSecond) in
  WaveDisplay.allocated display = false ->
  can_increment (mDirty clip) ->
  run m clip = Some (true, clip') ->
  clip' <> clip ->
  (is_Resample m = false -> mDirty clip' = mDirty clip + 1)
  /\ (is_Resample m = true ->
      mDirty clip' = mDirty clip
      /\ mWaveCache clip' = Some WaveCache.empty
      /\ mSpecCache clip' = Some SpecCache.empty)
  /\ (let wave := GetWaveDisplay clip' display t0 pixelsPerSecond in
      wd_path wave = Rebuilt
      /\ wave = GetWaveDisplay (with_WaveCache clip' None) display
                               t0 pixelsPerSecond)
  /\ (let spec :=
        GetSpectrogram zero_padded clip' waveTrackCache settings numPixels
                       t0 pixelsPerSecond in
      sp_path spec = Rebuilt
      /\ spec = GetSpectrogram zero_padded (with_SpecCache clip' None)
                               waveTrackCache settings numPixels
                               t0 pixelsPerSecond).
Proof.
  intros clip1 clip Ha Hinc Hrun Hne.
  destruct (wave_query_tag clip0 display t0 pixelsPerSecond Ha)
    as (Hd1 & _ & (wc & Hwc & Hwd)).
  fold clip1 in Hd1, Hwc.
  destruct (spec_query_tag clip1 waveTrackCache settings numPixels t0
                           pixelsPerSecond)
    as (Hd2 & Hw2 & (sc & Hsc & Hsd)).
  fold clip in Hd2, Hw2, Hsc.
  assert (Hwave : mWaveCache clip = Some wc) by congruence.
  assert (Hwtag : WaveCache.dirty wc = mDirty clip) by congruence.
  assert (Hstag : SpecCache.dirty sc = mDirty clip) by congruence.
  destruct (is_Resample m) eqn:Hm.
  - destruct m; try discriminate.
    destruct (run_Resample rate clip clip' Hrun Hne) as (Hd & Hw & Hs).
    split; [discriminate|]. split; [intros _; auto|].
    split; cbv zeta.
    + apply wave_stale; [exact Ha|].
      intros cache Hc. right. rewrite Hw in Hc. inversion Hc; subst.
      cbn. lia.
    + apply spec_stale.
      intros cache Hc. right. rewrite Hs in Hc. inversion Hc; subst.
      cbn. lia.
  - destruct (run_marks m clip clip' Hrun Hne Hm) as (Hd & Hw & Hs).
    rewrite (wrap_int_succ _ Hinc) in Hd.
    split; [intros _; exact Hd|]. split; [discriminate|].
    split; cbv zeta.
    + apply wave_stale; [exact Ha|].
      intros cache Hc. left. rewrite Hw, Hwave in Hc. inversion Hc; subst.
      lia.
    + apply spec_stale.
      intros cache Hc. left. rewrite Hs, Hsc in Hc. inversion Hc; subst.
      lia.
Qed.

End Mutations.

Section AppendReturns.

Context {S : Type} {api : Sequence.API S}.

Import WaveClip.

(** The loop of [Append] ends within the iterations it is given when every
    ideal append length is positive and at most the maximal block size. *)
Lemma Append_loop_ends (maxBlockSize : Z) :
  (forall s : S, 0 < Sequence.GetIdealAppendLen s <= maxBlockSize) ->
  forall (fuel : nat) (clip : WaveClip.t S) (blockSize : Z)
         (buffer : list float) (len : sampleCount),
    0 < blockSize <= maxBlockSize ->
    0 <= mAppendBufferLen clip <= maxBlockSize ->
    0 <= len ->
    (Z.to_nat len < fuel)%nat ->
    Append_loop fuel clip maxBlockSize blockSize buffer len <> None.
Proof.
  intros Hideal.
  induction fuel as [|fuel IH]; intros clip blockSize buffer len Hb Hl Hlen Hf;
    [lia|].
  cbn [Append_loop].
  destruct (mAppendBufferLen clip >=? blockSize) eqn:Eflush.
  - destruct (Sequence.Append _ _ _) as [success s].
    destruct success; [|discriminate].
    destruct (len =? 0) eqn:E0; [discriminate|].
    apply Z.eqb_neq in E0. apply Z.geb_le in Eflush.
    apply IH.
    + apply Hideal.
    + cbn [with_AppendBuffer with_Sequence mAppendBufferLen].
      destruct (maxBlockSize - (mAppendBufferLen clip - blockSize) >? len) eqn:E;
        lia.
    + destruct (maxBlockSize - _ >? len) eqn:E;
        cbn [with_AppendBuffer with_Sequence mAppendBufferLen] in *; lia.
    + destruct (maxBlockSize - _ >? len) eqn:E;
        cbn [with_AppendBuffer with_Sequence mAppendBufferLen] in *; lia.
  - destruct (len =? 0) eqn:E0; [discriminate|].
    apply Z.eqb_neq in E0.
    assert (mAppendBufferLen clip < blockSize) by lia.
    apply IH.
    + exact Hb.
    + cbn [with_AppendBuffer mAppendBufferLen].
      destruct (maxBlockSize - mAppendBufferLen clip >? len) eqn:E; lia.
    + destruct (maxBlockSize - mAppendBufferLen clip >? len) eqn:E; lia.
    + destruct (maxBlockSize - mAppendBufferLen clip >? len) eqn:E; lia.
Qed.

(** [Append] returns, with [true] or with [false], under that condition. *)
Lemma Append_returns (clip : WaveClip.t S) (buffer : list float)
    (len : sampleCount) :
  (forall s : S,
     0 < Sequence.GetIdealAppendLen s
       <= Sequence.GetMaxBlockSize (mSequence clip)) ->
  0 <= mAppendBufferLen clip <= Sequence.GetMaxBlockSize (mSequence clip) ->
  0 <= len ->
  Append clip buffer len <> None.
Proof.
  intros Hideal Hl Hlen. unfold Append. cbv zeta.
  match goal with
  | |- match Append_loop ?f ?c ?a ?b ?d ?e with _ => _ end <> None =>
      pose proof (Append_loop_ends a Hideal f c b d e) as H;
      destruct (Append_loop f c a b d e) as [[done|failed]|]
  end; try discriminate.
  exfalso. apply H; try lia; try reflexivity.
  - apply Hideal.
  - destruct (mAppendBuffer clip); exact Hl.
Qed.

End AppendReturns.

(** The clip of four samples after a query of each kind, in which two
    seconds of silence are then inserted at time 1. *)
Lemma mutation_invalidates_witness :
  let clip1 :=
    WaveClip.wd_clip
      (WaveClip.GetWaveDisplay (api := Example.ListSequence_API)
         (math := Example.exact_sqrt)
         Example.four_samples (Example.new_display 2) 0 1) in
  let clip :=
    WaveClip.sp_clip
      (WaveClip.GetSpectrogram (api := Example.ListSequence_API)
         (kernel := Example.idle_Kernel) true clip1 tt
         (Example.settings4 SpectrogramSettings.algSTFT) 2 0 1) in
  let clip' :=
    snd (WaveClip.InsertSilence (api := Example.ListSequence_API) clip 1 2) in
  WaveClip.run (api := Example.ListSequence_API)
               (WaveClip.CallInsertSilence 1 2) clip = Some (true, clip')
  /\ WaveClip.mDirty clip' = WaveClip.mDirty clip + 1
  /\ WaveClip.wd_path
       (WaveClip.GetWaveDisplay (api := Example.ListSequence_API)
          (math := Example.exact_sqrt) clip' (Example.new_display 2) 0 1)
     = WaveClip.Rebuilt.
Proof.
  cbv zeta. split; [reflexivity|].
  match goal with
  | |- WaveClip.mDirty ?c' = WaveClip.mDirty ?c + 1 /\ _ =>
      pose proof (mutation_invalidates (api := Example.ListSequence_API)
                    (math := Example.exact_sqrt)
                    (kernel := Example.idle_Kernel) true
                    (WaveClip.CallInsertSilence 1 2)
                    Example.four_samples c' (Example.new_display 2) tt
                    (Example.settings4 SpectrogramSettings.algSTFT) 2 0 1)
        as H
  end.
  cbv zeta in H.
  destruct H as (H1 & _ & (H3 & _) & _).
  - reflexivity.
  - vm_compute. split; [discriminate | reflexivity].
  - reflexivity.
  - intros E. apply (f_equal WaveClip.mDirty) in E. vm_compute in E.
    discriminate E.
  - split; [apply H1; reflexivity | exact H3].
Defined.

(** C9, as stated, fails.  The clip of four samples at one sample per
    second, after a query of each kind, is resampled to two samples per
    second: [Resample] returns [true], the sequence now holds eight samples
    and the rate is 2, and the generation counter is still 0. *)
Lemma Resample_keeps_dirty :
  let clip1 :=
    WaveClip.wd_clip
      (WaveClip.GetWaveDisplay (api := Example.ListSequence_API)
         (math := Example.exact_sqrt)
         Example.four_samples (Example.new_display 2) 0 1) in
  let clip :=
    WaveClip.sp_clip
      (WaveClip.GetSpectrogram (api := Example.ListSequence_API)
         (kernel := Example.idle_Kernel) true clip1 tt
         (Example.settings4 SpectrogramSettings.algSTFT) 2 0 1) in
  exists clip',
    WaveClip.run (api := Example.ListSequence_API)
                 (WaveClip.CallResample 2) clip = Some (true, clip')
    /\ clip' <> clip
    /\ Example.samples (WaveClip.mSequence clip) = [1; 2; 3; 4]%Q
    /\ Example.samples (WaveClip.mSequence clip')
       = [1; 1; 2; 2; 3; 3; 4; 4]%Q
    /\ WaveClip.mRate clip' = 2
    /\ WaveClip.mDirty clip = 0
    /\ WaveClip.mDirty clip' = 0
    /\ ~ WaveClip.mDirty clip < WaveClip.mDirty clip'.
Proof.
  cbv zeta. eexists. split; [reflexivity|].
  split.
  - intros E. apply (f_equal WaveClip.mRate) in E. vm_compute in E.
    discriminate E.
  - repeat split. vm_compute. discriminate.
Qed.

(** * Further properties *)

(** ** The region vector of [AddInvalidRegion] *)

Lemma union_into_start_end (r : InvalidRegion.t) (s e : Z) :
  InvalidRegion.start (WaveCache.union_into r s e)
  = Z.min (InvalidRegion.start r) s
  /\ InvalidRegion.end_ (WaveCache.union_into r s e)
     = Z.max (InvalidRegion.end_ r) e.
Proof.
  unfold WaveCache.union_into. cbn [InvalidRegion.start InvalidRegion.end_].
  destruct (InvalidRegion.start r >? s) eqn:E1;
    destruct (InvalidRegion.end_ r <? e) eqn:E2; lia.
Qed.

(** A region widened by a range that it touches holds the pixels of both
    and no other. *)
Lemma union_into_inside (r : InvalidRegion.t) (s e x : Z) :
  WaveCache.touching r s e = true ->
  InvalidRegion.start r <= InvalidRegion.end_ r -> s <= e ->
  inside (WaveCache.union_into r s e) x
  = inside r x || ((s <=? x) && (x <=? e)).
Proof.
  intros Ht Hr Hse. unfold inside.
  destruct (union_into_start_end r s e) as [-> ->].
  unfold WaveCache.touching in Ht. apply andb_true_iff in Ht.
  destruct Ht as [H1 H2]. apply Z.leb_le in H1. apply Z.geb_le in H2.
  apply eq_true_iff_eq.
  rewrite orb_true_iff, !andb_true_iff, !Z.leb_le. lia.
Qed.

Lemma touching_apart (r : InvalidRegion.t) (s e : Z) :
  WaveCache.touching r s e = negb (apart r (InvalidRegion.mk s e)).
Proof.
  unfold WaveCache.touching, apart. cbn [InvalidRegion.start InvalidRegion.end_].
  apply eq_true_iff_eq.
  rewrite negb_true_iff, andb_true_iff, orb_false_iff, Z.leb_le, Z.geb_le,
    !Z.ltb_ge. lia.
Qed.

Lemma apart_sym (r1 r2 : InvalidRegion.t) : apart r1 r2 = apart r2 r1.
Proof. unfold apart. apply orb_comm. Qed.

(** The first loop: what it leaves when it finds a region to widen. *)
Lemma union_first_Some (rs rs' : list InvalidRegion.t) (s e : Z) :
  WaveCache.union_first rs s e = Some rs' ->
  exists l1 r l2,
    rs = l1 ++ r :: l2
    /\ rs' = l1 ++ WaveCache.union_into r s e :: l2
    /\ WaveCache.touching r s e = true
    /\ Forall (fun q => WaveCache.touching q s e = false) l1.
Proof.
  revert rs'. induction rs as [|r rest IH]; intros rs' H; cbn in H;
    [discriminate|].
  destruct (WaveCache.touching r s e) eqn:Ht.
  - inversion H; subst. exists [], r, rest. repeat split; auto.
  - destruct (WaveCache.union_first rest s e) as [rest'|] eqn:E;
      [|discriminate].
    inversion H; subst.
    destruct (IH rest' eq_refl) as (l1 & q & l2 & -> & -> & Hq & Hl).
    exists (r :: l1), q, l2. repeat split; auto.
Qed.

(** The first loop ends without a region to widen exactly when no region
    touches the range. *)
Lemma union_first_None (rs : list InvalidRegion.t) (s e : Z) :
  WaveCache.union_first rs s e = None
  <-> Forall (fun q => WaveCache.touching q s e = false) rs.
Proof.
  induction rs as [|r rest IH]; cbn.
  - split; auto.
  - destruct (WaveCache.touching r s e) eqn:Ht.
    + split; [discriminate|]. intros H. inversion H; congruence.
    + destruct (WaveCache.union_first rest s e) eqn:E; cbn.
      * split; [discriminate|]. intros H. inversion H; subst.
        apply IH in H3. discriminate.
      * split; auto. intros _. constructor; [exact Ht|]. now apply IH.
Qed.

Lemma nth_error_pair (rs : list InvalidRegion.t) (i : nat)
    (region prevRegion : InvalidRegion.t) :
  (1 <= i)%nat ->
  nth_error rs i = Some region ->
  nth_error rs (i - 1) = Some prevRegion ->
  exists l1 l2,
    rs = l1 ++ prevRegion :: region :: l2 /\ length l1 = (i - 1)%nat.
Proof.
  intros Hi Hr Hp.
  apply nth_error_split in Hp. destruct Hp as (l1 & l' & -> & Hl).
  exists l1. rewrite nth_error_app2 in Hr by lia.
  replace (i - length l1)%nat with 1%nat in Hr by lia.
  destruct l' as [|q l2]; [discriminate|]. cbn in Hr. inversion Hr; subst.
  exists l2. split; [reflexivity | exact Hl].
Qed.

(** The vector after one merge of the patching loop. *)
Lemma patch_shape (l1 l2 : list InvalidRegion.t)
    (prevRegion region merged : InvalidRegion.t) :
  let rs := l1 ++ prevRegion :: region :: l2 in
  let i := Datatypes.S (length l1) in
  WaveCache.erase (i - 1)
    (firstn i rs ++ merged :: skipn (Datatypes.S i) rs)
  = l1 ++ merged :: l2.
Proof.
  cbv zeta. unfold WaveCache.erase.
  replace (Datatypes.S (length l1) - 1)%nat with (length l1) by lia.
  induction l1 as [|a l1 IH]; [reflexivity|].
  cbn [length app firstn skipn]. cbn [length app firstn skipn] in IH.
  rewrite IH. reflexivity.
Qed.


Lemma invalid_pixel_app (l1 l2 : list InvalidRegion.t) (x : Z) :
  invalid_pixel (l1 ++ l2) x = invalid_pixel l1 x || invalid_pixel l2 x.
Proof. unfold invalid_pixel. apply existsb_app. Qed.

Lemma ordered_middle (l1 l2 : list InvalidRegion.t) (r : InvalidRegion.t) :
  ordered_regions (l1 ++ r :: l2)
  <-> ordered_regions l1
      /\ InvalidRegion.start r <= InvalidRegion.end_ r
      /\ ordered_regions l2.
Proof.
  unfold ordered_regions. rewrite Forall_app. split.
  - intros [H1 H2]. inversion H2; subst. auto.
  - intros (H1 & H2 & H3). split; [exact H1|]. constructor; assumption.
Qed.

Lemma bounded_middle (lo hi : Z) (l1 l2 : list InvalidRegion.t)
    (r : InvalidRegion.t) :
  bounded_regions lo hi (l1 ++ r :: l2)
  <-> bounded_regions lo hi l1
      /\ (lo <= InvalidRegion.start r /\ InvalidRegion.end_ r <= hi)
      /\ bounded_regions lo hi l2.
Proof.
  unfold bounded_regions. rewrite Forall_app. split.
  - intros [H1 H2]. inversion H2; subst. auto.
  - intros (H1 & H2 & H3). split; [exact H1|]. constructor; assumption.
Qed.

(** The patching loop keeps the regions ordered, keeps them between the
    bounds they are between, does not add a region, and neither loses nor
    adds an invalid pixel. *)
Lemma patch_up_keeps (fuel : nat) :
  forall (i : nat) (rs : list InvalidRegion.t) (invalEnd : Z),
    (1 <= i)%nat -> ordered_regions rs ->
    let rs' := WaveCache.patch_up fuel i rs invalEnd in
    ordered_regions rs'
    /\ (forall lo hi, bounded_regions lo hi rs -> bounded_regions lo hi rs')
    /\ (length rs' <= length rs)%nat
    /\ (forall x, invalid_pixel rs' x = invalid_pixel rs x).
Proof.
  induction fuel as [|fuel IH]; intros i rs invalEnd Hi Ho; cbv zeta.
  { cbn. repeat split; auto. }
  cbn [WaveCache.patch_up].
  destruct (nth_error rs i) as [region|] eqn:Er;
    [|repeat split; auto].
  destruct (nth_error rs (i - 1)) as [prevRegion|] eqn:Ep;
    [|repeat split; auto].
  destruct (nth_error_pair rs i region prevRegion Hi Er Ep)
    as (l1 & l2 & Hrs & Hl).
  assert (Ei : i = Datatypes.S (length l1)) by lia.
  subst rs.
  destruct (WaveCache.touching region (InvalidRegion.start prevRegion)
              (InvalidRegion.end_ prevRegion)) eqn:Ht.
  - set (merged := WaveCache.union_into region
                     (InvalidRegion.start prevRegion)
                     (InvalidRegion.end_ prevRegion)).
    assert (Hshape :
      WaveCache.erase (i - 1)
        (firstn i (l1 ++ prevRegion :: region :: l2)
         ++ merged :: skipn (Datatypes.S i) (l1 ++ prevRegion :: region :: l2))
      = l1 ++ merged :: l2).
    { rewrite Ei. apply patch_shape. }
    rewrite Hshape.
    apply ordered_middle in Ho. destruct Ho as (Ho1 & Hop & Ho2).
    apply Forall_cons_iff in Ho2. destruct Ho2 as [Hor Ho3].
    destruct (union_into_start_end region (InvalidRegion.start prevRegion)
                (InvalidRegion.end_ prevRegion)) as [Hs He].
    fold merged in Hs, He.
    assert (Hom : ordered_regions (l1 ++ merged :: l2)).
    { apply ordered_middle. repeat split; auto. lia. }
    assert (Hbm : forall lo hi,
               bounded_regions lo hi (l1 ++ prevRegion :: region :: l2) ->
               bounded_regions lo hi (l1 ++ merged :: l2)).
    { intros lo hi Hb. apply bounded_middle in Hb.
      destruct Hb as (Hb1 & Hbp & Hb2).
      apply Forall_cons_iff in Hb2. destruct Hb2 as [Hbr Hb3].
      apply bounded_middle. repeat split; auto; lia. }
    assert (Hlen : (length (l1 ++ merged :: l2)
                    <= length (l1 ++ prevRegion :: region :: l2))%nat).
    { rewrite !length_app. cbn. lia. }
    assert (Hcov : forall x,
               invalid_pixel (l1 ++ merged :: l2) x
               = invalid_pixel (l1 ++ prevRegion :: region :: l2) x).
    { intros x. rewrite !invalid_pixel_app. f_equal.
      unfold invalid_pixel. cbn [existsb]. unfold merged.
      rewrite (union_into_inside region _ _ x Ht Hor Hop).
      fold (inside prevRegion x).
      destruct (inside region x), (inside prevRegion x); reflexivity. }
    match goal with |- context [if ?c then _ else _] => destruct c end.
    + repeat split; auto.
    + specialize (IH (Datatypes.S (i - 1)) (l1 ++ merged :: l2) invalEnd
                     ltac:(lia) Hom).
      cbv zeta in IH. destruct IH as (I1 & I2 & I3 & I4).
      repeat split; auto.
      * lia.
      * intros x. rewrite I4. apply Hcov.
  - destruct (InvalidRegion.start region >? invalEnd).
    + repeat split; auto.
    + apply IH; [lia | exact Ho].
Qed.

(** The same for the whole insertion, which adds the pixels of the new
    range and at most one region. *)
Lemma insert_region_keeps (rs : list InvalidRegion.t) (s e : Z) :
  ordered_regions rs -> s <= e ->
  let rs' := WaveCache.insert_region rs s e in
  ordered_regions rs'
  /\ (forall lo hi, bounded_regions lo hi rs -> lo <= s -> e <= hi ->
                    bounded_regions lo hi rs')
  /\ (length rs' <= Datatypes.S (length rs))%nat
  /\ (forall x, invalid_pixel rs' x
                = invalid_pixel rs x || ((s <=? x) && (x <=? e))).
Proof.
  intros Ho Hse. cbv zeta. unfold WaveCache.insert_region.
  destruct (WaveCache.union_first rs s e) as [rs1|] eqn:E.
  - destruct (union_first_Some rs rs1 s e E)
      as (l1 & r & l2 & Hrs & Hrs1 & Ht & _).
    rewrite Hrs in Ho. apply ordered_middle in Ho.
    destruct Ho as (Ho1 & Hor & Ho2).
    destruct (union_into_start_end r s e) as [Hs He].
    assert (Ho' : ordered_regions rs1).
    { rewrite Hrs1. apply ordered_middle. repeat split; auto. lia. }
    destruct (patch_up_keeps (length rs1) 1 rs1 e ltac:(lia) Ho')
      as (P1 & P2 & P3 & P4).
    repeat split; auto.
    + intros lo hi Hb Hlo Hhi. apply P2. rewrite Hrs in Hb. rewrite Hrs1.
      apply bounded_middle in Hb. destruct Hb as (Hb1 & Hbr & Hb2).
      apply bounded_middle. repeat split; auto; lia.
    + assert (length rs1 = length rs).
      { rewrite Hrs1, Hrs, !length_app. reflexivity. }
      lia.
    + intros x. rewrite P4, Hrs1, Hrs, !invalid_pixel_app.
      unfold invalid_pixel. cbn [existsb].
      rewrite (union_into_inside r s e x Ht Hor Hse).
      destruct (existsb (fun r0 => inside r0 x) l1), (inside r x),
        (existsb (fun r0 => inside r0 x) l2), ((s <=? x) && (x <=? e));
        reflexivity.
  - assert (Ho' : ordered_regions (InvalidRegion.mk s e :: rs)).
    { constructor; [exact Hse | exact Ho]. }
    destruct (patch_up_keeps (length (InvalidRegion.mk s e :: rs)) 1
                (InvalidRegion.mk s e :: rs) e ltac:(lia) Ho')
      as (P1 & P2 & P3 & P4).
    repeat split; auto.
    + intros lo hi Hb Hlo Hhi. apply P2. constructor; [cbn; lia | exact Hb].
    + intros x. rewrite P4. unfold invalid_pixel. cbn [existsb].
      unfold inside at 1. cbn [InvalidRegion.start InvalidRegion.end_].
      apply orb_comm.
Qed.

(** Truncation toward zero is the floor of a number that is not negative
    and the ceiling of one that is not positive; it never decreases. *)
Lemma to_integer_floor (x : Q) : (0 <= x)%Q -> to_integer x = Qfloor x.
Proof.
  destruct x as [n d]. unfold to_integer, Qfloor, Qle. cbn.
  intros H. apply Z.quot_div_nonneg; lia.
Qed.

Lemma to_integer_ceiling (x : Q) : (x <= 0)%Q -> to_integer x = Qceiling x.
Proof.
  destruct x as [n d]. unfold to_integer, Qceiling, Qfloor, Qle. cbn.
  intros H.
  replace n with (- - n) at 1 by lia.
  rewrite Z.quot_opp_l by lia. f_equal. apply Z.quot_div_nonneg; lia.
Qed.

Lemma to_integer_monotone (x y : Q) :
  (x <= y)%Q -> to_integer x <= to_integer y.
Proof.
  intros Hxy.
  destruct (Qlt_le_dec x 0) as [Hx | Hx]; destruct (Qlt_le_dec y 0) as [Hy | Hy].
  - rewrite !to_integer_ceiling by lra. now apply Qceiling_resp_le.
  - rewrite to_integer_ceiling by lra. rewrite to_integer_floor by lra.
    assert (H1 : (Qceiling x <= Qceiling 0)%Z) by (apply Qceiling_resp_le; lra).
    assert (H2 : (Qfloor 0 <= Qfloor y)%Z) by (apply Qfloor_resp_le; lra).
    change (Qceiling 0) with 0 in H1. change (Qfloor 0) with 0 in H2. lia.
  - lra.
  - rewrite !to_integer_floor by lra. now apply Qfloor_resp_le.
Qed.

(** A sample range that does not end before it starts is converted to a
    pixel range that does not either, when the rate and the pixels per
    second of the cache are positive. *)
Lemma inval_ordered (c : WaveCache.t) (sampleStart sampleEnd : sampleCount) :
  0 < WaveCache.rate c -> (0 < WaveCache.pps c)%Q ->
  sampleStart <= sampleEnd ->
  WaveCache.invalStart0 c sampleStart <= WaveCache.invalEnd0 c sampleEnd.
Proof.
  intros Hr Hp Hse. unfold WaveCache.invalStart0, WaveCache.invalEnd0.
  cbv zeta. apply to_integer_monotone.
  set (k := (WaveCache.start c * inject_Z (WaveCache.rate c))%Q).
  set (spp := (inject_Z (WaveCache.rate c) / WaveCache.pps c)%Q).
  assert (Hspp : (0 < spp)%Q).
  { unfold spp. apply Qlt_shift_div_l; [exact Hp|].
    rewrite Qmult_0_l. change 0%Q with (inject_Z 0). rewrite <- Zlt_Qlt. lia. }
  assert (Hinv : (0 < / spp)%Q) by now apply Qinv_lt_0_compat.
  rewrite Zle_Qle in Hse. unfold Qdiv.
  assert ((inject_Z sampleStart - k) * / spp
          <= (inject_Z sampleEnd - k) * / spp)%Q.
  { apply Qmult_le_compat_r; lra. }
  lra.
Qed.

Lemma clip_to_cache_monotone (c : WaveCache.t) (x y : Z) :
  0 <= WaveCache.len c -> x <= y ->
  WaveCache.clip_to_cache c x <= WaveCache.clip_to_cache c y.
Proof.
  intros Hl Hxy. unfold WaveCache.clip_to_cache.
  destruct (x <? 0) eqn:E1; destruct (y <? 0) eqn:E2;
    destruct (x >? WaveCache.len c) eqn:E3;
    destruct (y >? WaveCache.len c) eqn:E4; lia.
Qed.

(** [AddInvalidRegion] in its two cases. *)
Lemma AddInvalidRegion_unfold (c : WaveCache.t)
    (sampleStart sampleEnd : sampleCount) :
  (0 < WaveCache.pps c)%Q ->
  let s := WaveCache.invalStart0 c sampleStart in
  let e := WaveCache.invalEnd0 c sampleEnd in
  WaveCache.AddInvalidRegion c sampleStart sampleEnd
  = if off_cache c s e then c
    else WaveCache.with_regions c
           (WaveCache.insert_region (WaveCache.mRegions c)
              (WaveCache.clip_to_cache c s) (WaveCache.clip_to_cache c e)).
Proof.
  intros Hp. cbv zeta. unfold WaveCache.AddInvalidRegion, off_cache.
  destruct (Qeq_bool (WaveCache.pps c) 0) eqn:E; [|reflexivity].
  apply Qeq_bool_iff in E. lra.
Qed.

Lemma region_ok_split (len : Z) (rs : list InvalidRegion.t) :
  Forall (region_ok len) rs <-> ordered_regions rs /\ bounded_regions 0 len rs.
Proof.
  unfold ordered_regions, bounded_regions, region_ok.
  rewrite !Forall_forall. split.
  - intros H. split; intros r Hr; specialize (H r Hr); lia.
  - intros [H1 H2] r Hr. specialize (H1 r Hr). specialize (H2 r Hr). lia.
Qed.

(** X1.  The invalid pixels after [AddInvalidRegion] are those that were
    invalid before and those of the clipped pixel range of the call, and
    no other; a range that lies off the cache adds none.  The cache has
    regions that do not end before they start, a length that is not
    negative and a positive rate and number of pixels per second, and the
    sample range does not end before it starts. *)
Theorem AddInvalidRegion_invalid_pixels (c : WaveCache.t)
    (sampleStart sampleEnd : sampleCount) (x : Z) :
  ordered_regions (WaveCache.mRegions c) ->
  0 <= WaveCache.len c -> 0 < WaveCache.rate c -> (0 < WaveCache.pps c)%Q ->
  sampleStart <= sampleEnd ->
  let s := WaveCache.invalStart0 c sampleStart in
  let e := WaveCache.invalEnd0 c sampleEnd in
  invalid_pixel
    (WaveCache.mRegions (WaveCache.AddInvalidRegion c sampleStart sampleEnd)) x
  = invalid_pixel (WaveCache.mRegions c) x
    || (negb (off_cache c s e)
        && ((WaveCache.clip_to_cache c s <=? x)
            && (x <=? WaveCache.clip_to_cache c e))).
Proof.
  intros Ho Hl Hr Hp Hse. cbv zeta.
  rewrite AddInvalidRegion_unfold by exact Hp. cbv zeta.
  destruct (off_cache c _ _).
  - cbn [negb andb]. now rewrite orb_false_r.
  - cbn [negb andb WaveCache.with_regions WaveCache.mRegions].
    apply insert_region_keeps; [exact Ho|].
    apply clip_to_cache_monotone; [exact Hl|]. now apply inval_ordered.
Qed.

(** The regions 10..20 and 100..110 and the samples 15 to 39: pixel 35
    becomes invalid and pixel 50 does not. *)
Lemma AddInvalidRegion_invalid_pixels_witness :
  let c := Example.add_regions Example.cache200 [(10, 19); (100, 109)] in
  invalid_pixel (WaveCache.mRegions (WaveCache.AddInvalidRegion c 15 39)) 35
  = true
  /\ invalid_pixel (WaveCache.mRegions (WaveCache.AddInvalidRegion c 15 39)) 50
     = false.
Proof.
  cbv zeta. split.
  - rewrite AddInvalidRegion_invalid_pixels.
    + reflexivity.
    + repeat constructor; cbn; lia.
    + cbn; lia.
    + cbn; lia.
    + reflexivity.
    + lia.
  - rewrite AddInvalidRegion_invalid_pixels.
    + reflexivity.
    + repeat constructor; cbn; lia.
    + cbn; lia.
    + cbn; lia.
    + reflexivity.
    + lia.
Defined.

(** X2.  [AddInvalidRegion] keeps every region within the pixels 0 to [len]
    and not ending before its start, and it adds at most one region to the
    vector. *)
Theorem AddInvalidRegion_keeps_regions_ok (c : WaveCache.t)
    (sampleStart sampleEnd : sampleCount) :
  Forall (region_ok (WaveCache.len c)) (WaveCache.mRegions c) ->
  0 <= WaveCache.len c -> 0 < WaveCache.rate c -> (0 < WaveCache.pps c)%Q ->
  sampleStart <= sampleEnd ->
  let c' := WaveCache.AddInvalidRegion c sampleStart sampleEnd in
  Forall (region_ok (WaveCache.len c')) (WaveCache.mRegions c')
  /\ (length (WaveCache.mRegions c')
      <= Datatypes.S (length (WaveCache.mRegions c)))%nat.
Proof.
  intros Hok Hl Hr Hp Hse. cbv zeta.
  rewrite AddInvalidRegion_unfold by exact Hp. cbv zeta.
  destruct (off_cache c _ _); [split; [exact Hok | lia]|].
  cbn [WaveCache.with_regions WaveCache.mRegions WaveCache.len].
  apply region_ok_split in Hok. destruct Hok as [Ho Hb].
  pose proof (clip_to_cache_bounds c (WaveCache.invalStart0 c sampleStart) Hl)
    as Hs.
  pose proof (clip_to_cache_bounds c (WaveCache.invalEnd0 c sampleEnd) Hl)
    as He.
  destruct (insert_region_keeps (WaveCache.mRegions c)
              (WaveCache.clip_to_cache c (WaveCache.invalStart0 c sampleStart))
              (WaveCache.clip_to_cache c (WaveCache.invalEnd0 c sampleEnd)) Ho)
    as (K1 & K2 & K3 & _).
  { apply clip_to_cache_monotone; [exact Hl|]. now apply inval_ordered. }
  split; [|exact K3].
  apply region_ok_split. split; [exact K1|]. apply K2; [exact Hb | lia | lia].
Qed.

(** The regions 10..20 and 100..110 and the samples 15 to 300: the region
    that results ends at pixel 200, the length of the cache. *)
Lemma AddInvalidRegion_keeps_regions_ok_witness :
  let c := Example.add_regions Example.cache200 [(10, 19); (100, 109)] in
  let c' := WaveCache.AddInvalidRegion c 15 300 in
  Forall (region_ok 200) (WaveCache.mRegions c')
  /\ (length (WaveCache.mRegions c') <= 3)%nat.
Proof.
  cbv zeta.
  apply (AddInvalidRegion_keeps_regions_ok
           (Example.add_regions Example.cache200 [(10, 19); (100, 109)])
           15 300).
  - repeat constructor; cbn; lia.
  - cbn; lia.
  - cbn; lia.
  - reflexivity.
  - lia.
Defined.

(** *** When the regions stay apart *)

Lemma pairwise_apart_middle (l1 l2 : list InvalidRegion.t)
    (r : InvalidRegion.t) :
  pairwise_apart (l1 ++ r :: l2) = true ->
  Forall (fun q => apart r q = true) (l1 ++ l2).
Proof.
  induction l1 as [|a l1 IH]; cbn [app pairwise_apart]; intros H;
    apply andb_true_iff in H; destruct H as [H1 H2].
  - apply Forall_forall. now apply forallb_forall.
  - rewrite forallb_app in H1. apply andb_true_iff in H1.
    destruct H1 as [_ H1]. cbn [forallb] in H1.
    apply andb_true_iff in H1. destruct H1 as [H1 _].
    constructor; [now rewrite apart_sym | now apply IH].
Qed.

(** A region of a vector whose regions are apart is replaced by one that
    is apart from all the others. *)
Lemma pairwise_apart_replace (l1 l2 : list InvalidRegion.t)
    (r m : InvalidRegion.t) :
  pairwise_apart (l1 ++ r :: l2) = true ->
  Forall (fun q => apart m q = true) (l1 ++ l2) ->
  pairwise_apart (l1 ++ m :: l2) = true.
Proof.
  induction l1 as [|a l1 IH]; cbn [app pairwise_apart]; intros H Hm;
    apply andb_true_iff in H; destruct H as [H1 H2].
  - apply andb_true_iff. split; [|exact H2].
    apply forallb_forall. now apply Forall_forall.
  - apply Forall_cons_iff in Hm. destruct Hm as [Ha Hm].
    apply andb_true_iff. split; [|now apply IH].
    rewrite forallb_app in *. apply andb_true_iff in H1.
    destruct H1 as [H1 H3]. cbn [forallb] in *.
    apply andb_true_iff in H3. destruct H3 as [_ H3].
    rewrite H1, H3, (apart_sym a m), Ha. reflexivity.
Qed.

(** A region that is apart from [r] and is not touched by the range that
    [r] is widened by is apart from the widened region. *)
Lemma apart_union_into (r q : InvalidRegion.t) (s e : Z) :
  WaveCache.touching r s e = true ->
  InvalidRegion.start q <= InvalidRegion.end_ q ->
  apart r q = true ->
  WaveCache.touching q s e = false ->
  apart (WaveCache.union_into r s e) q = true.
Proof.
  unfold apart, WaveCache.touching.
  destruct (union_into_start_end r s e) as [-> ->].
  rewrite andb_true_iff, andb_false_iff, !orb_true_iff, !Z.ltb_lt, Z.leb_le,
    Z.geb_le, Z.leb_gt, Z.geb_leb, Z.leb_gt.
  lia.
Qed.

(** The patching loop changes nothing in a vector whose regions are
    apart. *)
Lemma patch_up_apart (fuel : nat) :
  forall (i : nat) (rs : list InvalidRegion.t) (invalEnd : Z),
    (1 <= i)%nat -> pairwise_apart rs = true ->
    WaveCache.patch_up fuel i rs invalEnd = rs.
Proof.
  induction fuel as [|fuel IH]; intros i rs invalEnd Hi Hp; [reflexivity|].
  cbn [WaveCache.patch_up].
  destruct (nth_error rs i) as [region|] eqn:Er; [|reflexivity].
  destruct (nth_error rs (i - 1)) as [prevRegion|] eqn:Ep; [|reflexivity].
  destruct (nth_error_pair rs i region prevRegion Hi Er Ep)
    as (l1 & l2 & Hrs & _).
  assert (Ha : apart prevRegion region = true).
  { rewrite Hrs in Hp. apply pairwise_apart_middle in Hp.
    apply Forall_app in Hp. destruct Hp as [_ Hp].
    now apply Forall_cons_iff in Hp. }
  assert (Ht : WaveCache.touching region (InvalidRegion.start prevRegion)
                 (InvalidRegion.end_ prevRegion) = false).
  { rewrite touching_apart. destruct prevRegion as [ps pe].
    cbn [InvalidRegion.start InvalidRegion.end_].
    rewrite apart_sym, Ha. reflexivity. }
  rewrite Ht.
  destruct (InvalidRegion.start region >? invalEnd); [reflexivity|].
  apply IH; [lia | exact Hp].
Qed.

Lemma touched_none (rs : list InvalidRegion.t) (s e : Z) :
  touched rs s e = [] ->
  Forall (fun q => WaveCache.touching q s e = false) rs.
Proof.
  unfold touched. induction rs as [|r rs IH]; cbn [filter]; intros H.
  - constructor.
  - destruct (WaveCache.touching r s e) eqn:Ht; [discriminate|].
    constructor; [exact Ht | now apply IH].
Qed.

Lemma touched_not (rs : list InvalidRegion.t) (s e : Z) :
  Forall (fun q => WaveCache.touching q s e = false) rs ->
  touched rs s e = [].
Proof.
  unfold touched. induction 1 as [|r rs Hr _ IH]; cbn [filter];
    [reflexivity|]. now rewrite Hr.
Qed.

(** The insertion of a range that touches at most one region of a vector
    whose regions are apart leaves regions that are apart. *)
Lemma insert_region_apart (rs : list InvalidRegion.t) (s e : Z) :
  ordered_regions rs -> pairwise_apart rs = true ->
  (length (touched rs s e) <= 1)%nat ->
  pairwise_apart (WaveCache.insert_region rs s e) = true.
Proof.
  intros Ho Hp Ht. unfold WaveCache.insert_region.
  destruct (WaveCache.union_first rs s e) as [rs1|] eqn:E.
  - destruct (union_first_Some rs rs1 s e E)
      as (l1 & r & l2 & Hrs & Hrs1 & Hr & Hl1).
    assert (Hl2 : Forall (fun q => WaveCache.touching q s e = false) l2).
    { apply touched_none. subst rs. unfold touched in *.
      rewrite filter_app in Ht. cbn [filter] in Ht. rewrite Hr in Ht.
      rewrite length_app in Ht. cbn [length] in Ht.
      destruct (filter _ l2); [reflexivity | cbn [length] in Ht; lia]. }
    assert (H1 : pairwise_apart rs1 = true).
    { subst rs rs1. apply (pairwise_apart_replace l1 l2 r); [exact Hp|].
      pose proof (pairwise_apart_middle l1 l2 r Hp) as Hm.
      apply ordered_middle in Ho. destruct Ho as (Ho1 & _ & Ho2).
      assert (Hoq : ordered_regions (l1 ++ l2)).
      { unfold ordered_regions in *. apply Forall_app. now split. }
      assert (Hnt : Forall (fun q => WaveCache.touching q s e = false)
                           (l1 ++ l2)).
      { apply Forall_app. now split. }
      unfold ordered_regions in Hoq.
      rewrite Forall_forall in *. intros q Hq.
      apply apart_union_into; auto. }
    now rewrite patch_up_apart.
  - apply union_first_None in E.
    assert (H1 : pairwise_apart (InvalidRegion.mk s e :: rs) = true).
    { cbn [pairwise_apart]. rewrite Hp, andb_true_r.
      apply forallb_forall. rewrite Forall_forall in E. intros q Hq.
      specialize (E q Hq). rewrite touching_apart in E.
      apply negb_false_iff in E. now rewrite apart_sym. }
    now rewrite patch_up_apart.
Qed.

(** X3.  When the regions of the cache are apart from one another and the
    clipped pixel range of the call touches at most one of them,
    [AddInvalidRegion] leaves regions that are apart from one another:
    the union is complete. *)
Theorem AddInvalidRegion_keeps_apart (c : WaveCache.t)
    (sampleStart sampleEnd : sampleCount) :
  ordered_regions (WaveCache.mRegions c) ->
  pairwise_apart (WaveCache.mRegions c) = true ->
  (length (touched (WaveCache.mRegions c)
             (WaveCache.clip_to_cache c (WaveCache.invalStart0 c sampleStart))
             (WaveCache.clip_to_cache c (WaveCache.invalEnd0 c sampleEnd)))
   <= 1)%nat ->
  pairwise_apart
    (WaveCache.mRegions (WaveCache.AddInvalidRegion c sampleStart sampleEnd))
  = true.
Proof.
  intros Ho Hp Ht. unfold WaveCache.AddInvalidRegion.
  destruct (Qeq_bool (WaveCache.pps c) 0); [exact Hp|].
  match goal with |- context [if ?b then _ else _] => destruct b end;
    [exact Hp|].
  cbn [WaveCache.with_regions WaveCache.mRegions].
  now apply insert_region_apart.
Qed.

(** The regions 10..20 and 100..110 and the samples 15 to 39, which touch
    the first region alone. *)
Lemma AddInvalidRegion_keeps_apart_witness :
  let c := Example.add_regions Example.cache200 [(10, 19); (100, 109)] in
  WaveCache.mRegions (WaveCache.AddInvalidRegion c 15 39)
  = [InvalidRegion.mk 100 110; InvalidRegion.mk 10 40]
  /\ pairwise_apart (WaveCache.mRegions (WaveCache.AddInvalidRegion c 15 39))
     = true.
Proof.
  cbv zeta. split; [reflexivity|].
  apply AddInvalidRegion_keeps_apart.
  - repeat constructor; cbn; lia.
  - reflexivity.
  - cbn. lia.
Defined.

(** ** The count of on-demand pixels *)

Lemma count_negative_app (a b : list Z) :
  count_negative (a ++ b) = count_negative a + count_negative b.
Proof.
  unfold count_negative. rewrite filter_app, length_app. lia.
Qed.

Lemma count_negative_zeros (n : nat) : count_negative (repeat 0 n) = 0.
Proof.
  unfold count_negative. induction n as [|n IH]; [reflexivity|].
  cbn [repeat filter Z.ltb Z.compare]. exact IH.
Qed.

(** A vector is what lies before a range, the range, and what lies after
    it. *)
Lemma three_parts {A} (v : list A) (p n : Z) :
  v = firstn (Z.to_nat p) v ++ slice v p n
      ++ skipn (Z.to_nat p + Z.to_nat n) v.
Proof.
  unfold slice.
  rewrite Nat.add_comm, <- skipn_skipn, firstn_skipn, firstn_skipn.
  reflexivity.
Qed.

(** What is read back from a range is what was written there. *)
Lemma slice_blit {A} (v src : list A) (p n : Z) :
  (Z.to_nat p <= length v)%nat -> (Z.to_nat n <= length src)%nat ->
  slice (blit v p n src) p n = firstn (Z.to_nat n) src.
Proof.
  intros Hp Hn. unfold slice, blit.
  rewrite skipn_app, length_firstn, Nat.min_l by exact Hp.
  rewrite Nat.sub_diag. cbn [skipn].
  rewrite skipn_all2 by (rewrite length_firstn; lia). cbn [app].
  rewrite firstn_app, length_firstn, Nat.min_l by exact Hn.
  rewrite Nat.sub_diag. cbn [firstn]. rewrite app_nil_r.
  apply firstn_all2. rewrite length_firstn. lia.
Qed.

Lemma length_blit {A} (v src : list A) (p n : Z) :
  (Z.to_nat p + Z.to_nat n <= length v)%nat ->
  (Z.to_nat n <= length src)%nat ->
  length (blit v p n src) = length v.
Proof.
  intros Hp Hn. unfold blit.
  rewrite !length_app, !length_firstn, length_skipn. lia.
Qed.

(** Writing a range changes the count of negative entries by what it
    changes in the range. *)
Lemma count_negative_blit (v src : list Z) (p n : Z) :
  (Z.to_nat p <= length v)%nat -> (Z.to_nat n <= length src)%nat ->
  count_negative (blit v p n src)
  = count_negative v
    - (count_negative (slice v p n)
       - count_negative (slice (blit v p n src) p n)).
Proof.
  intros Hp Hn. rewrite slice_blit by assumption.
  rewrite (three_parts v p n) at 2.
  unfold blit. rewrite !count_negative_app. lia.
Qed.

Section OnDemand.

Context {S : Type} {api : Sequence.API S}.

(** One region loaded with [updateODCount]: the count of on-demand pixels
    stays the number of negative block flags. *)
Lemma LoadInvalidRegion_counts (c : WaveCache.t) (region : InvalidRegion.t)
    (sequence : S) :
  fills_flags sequence ->
  region_ok (Z.of_nat (length (WaveCache.bl c))) region ->
  WaveCache.numODPixels c = count_negative (WaveCache.bl c) ->
  let c' := WaveCache.LoadInvalidRegion c region sequence true in
  WaveCache.numODPixels c' = count_negative (WaveCache.bl c')
  /\ length (WaveCache.bl c') = length (WaveCache.bl c)
  /\ WaveCache.len c' = WaveCache.len c.
Proof.
  intros Hf (H0 & H1 & H2) Hn. cbv zeta. unfold WaveCache.LoadInvalidRegion.
  cbv zeta.
  cbn [WaveCache.with_numODPixels WaveCache.write_columns WaveCache.bl
       WaveCache.numODPixels WaveCache.len].
  unfold WaveCache.CountODPixels.
  set (n := InvalidRegion.end_ region - InvalidRegion.start region).
  set (got := Columns.bl (snd (Sequence.GetWaveDisplay _ _ _ _))).
  assert (Hgot : length got = Z.to_nat n).
  { unfold got. apply Hf. unfold WaveCache.columns. cbn [Columns.bl].
    unfold slice. rewrite length_firstn, length_skipn. lia. }
  split; [|split; [|reflexivity]].
  - rewrite Hn. symmetry. apply count_negative_blit; lia.
  - apply length_blit; lia.
Qed.

(** X4.  [LoadInvalidRegions] with [updateODCount] keeps the count of on-demand
    pixels equal to the number of negative block flags of the cache, when
    it was so before, the regions lie within the columns of the cache and
    the sequence fills the flags of the columns it is asked. *)
Theorem LoadInvalidRegions_counts_OD (c : WaveCache.t) (sequence : S) :
  fills_flags sequence ->
  Z.of_nat (length (WaveCache.bl c)) = WaveCache.len c ->
  Forall (region_ok (WaveCache.len c)) (WaveCache.mRegions c) ->
  WaveCache.numODPixels c = count_negative (WaveCache.bl c) ->
  let c' := WaveCache.LoadInvalidRegions c sequence true in
  WaveCache.numODPixels c' = count_negative (WaveCache.bl c')
  /\ length (WaveCache.bl c') = length (WaveCache.bl c).
Proof.
  intros Hf Hl Hr Hn. cbv zeta. unfold WaveCache.LoadInvalidRegions.
  rewrite <- Hl in Hr. clear Hl.
  set (rs := WaveCache.mRegions c) in *. clearbody rs. revert c Hr Hn.
  induction rs as [|r rs IH]; intros c Hr Hn; cbn [fold_left]; [now split|].
  apply Forall_cons_iff in Hr. destruct Hr as [Hr1 Hr2].
  destruct (LoadInvalidRegion_counts c r sequence Hf Hr1 Hn) as (K1 & K2 & _).
  destruct (IH (WaveCache.LoadInvalidRegion c r sequence true)) as [J1 J2].
  - now rewrite K2.
  - exact K1.
  - split; [exact J1 | now rewrite J2].
Qed.

End OnDemand.

(** The cache of 200 pixels with the region 10..20, loaded from a sequence
    that flags every column as being on demand: ten pixels are counted. *)
Lemma LoadInvalidRegions_counts_OD_witness :
  let c := Example.add_regions Example.cache200 [(10, 19)] in
  let c' := WaveCache.LoadInvalidRegions (api := Counting.Count_API) c 0 true in
  WaveCache.numODPixels c' = 10
  /\ count_negative (WaveCache.bl c') = 10.
Proof.
  cbv zeta.
  destruct (LoadInvalidRegions_counts_OD (api := Counting.Count_API)
              (Example.add_regions Example.cache200 [(10, 19)]) 0)
    as [H _].
  - intros cols n w _. cbn. apply repeat_length.
  - reflexivity.
  - repeat constructor; cbn; lia.
  - reflexivity.
  - split; [|reflexivity]. rewrite H. reflexivity.
Defined.

(** ** The correction and the mapping *)

(** X6.  The range of columns that is copied out of the old cache is never
    read outside the old cache nor written outside the new one: when there
    is something to copy, the columns [copyBegin .. copyEnd) lie within
    the new cache and their sources, [oldX0] further, within the old one. *)
Theorem copy_plan_in_bounds (match_ : bool) (oldWhere : list sampleCount)
    (oldLen numPixels : Z) (t0 : double) (mRate_ : Z)
    (samplesPerPixel : double) :
  let '(oldX0, correction, copyBegin, copyEnd) :=
    WaveClip.copy_plan match_ oldWhere oldLen numPixels t0 mRate_
                       samplesPerPixel in
  copyBegin < copyEnd ->
  0 <= copyBegin /\ copyEnd <= numPixels
  /\ 0 <= copyBegin + oldX0 /\ copyEnd + oldX0 <= oldLen.
Proof.
  unfold WaveClip.copy_plan. destruct match_; [|lia].
  destruct (findCorrection _ _ _ _ _ _) as [oldX0 correction]. lia.
Qed.

(** The same old cache and view with 128 samples per pixel, seen through
    four columns: they are copied from the columns 0 to 3 of the old
    cache. *)
Lemma copy_plan_in_bounds_witness :
  WaveClip.copy_plan true [0; 128; 256] 10 4 5 8 128
  = (0, (-40 # 1)%Q, 0, 4)
  /\ (0 <= 0 /\ 4 <= 4 /\ 0 <= 0 + 0 /\ 4 + 0 <= 10).
Proof.
  split; [reflexivity|].
  pose proof (copy_plan_in_bounds true [0; 128; 256] 10 4 5 8 128) as H.
  cbv beta iota zeta delta [WaveClip.copy_plan] in H.
  change (findCorrection [0; 128; 256] 10 4 5 (inject_Z 8) 128)
    with (0, (-40 # 1)%Q) in H.
  cbv beta iota in H. apply H. reflexivity.
Defined.

(** The entry [x] of the mapping, from the second entry on. *)
Lemma fillWhere_at (len : Z) (bias correction t0 rate spp : double) (x : Z) :
  1 <= x <= len ->
  at_ 0 (fillWhere len bias correction t0 rate spp) x
  = floor (fillWhere_w0 bias correction t0 rate + inject_Z x * spp)%Q.
Proof.
  intros Hx. unfold at_, fillWhere, from_1_to.
  replace (x <? 0) with false by lia.
  set (w0 := fillWhere_w0 _ _ _ _).
  destruct (Z.to_nat x) as [|k] eqn:Ek; [lia|]. cbn [nth].
  rewrite map_map.
  set (f := fun n : nat => floor (w0 + inject_Z (Z.of_nat n) * spp)%Q).
  rewrite (nth_indep _ 0 (f 0%nat)) by (rewrite length_map, length_seq; lia).
  rewrite (map_nth f). rewrite seq_nth by lia. unfold f.
  replace (Z.of_nat (1 + k)) with x by lia. reflexivity.
Qed.

Lemma fillWhere_at_0 (len : Z) (bias correction t0 rate spp : double) :
  at_ 0 (fillWhere len bias correction t0 rate spp) 0
  = Z.max 0 (floor (fillWhere_w0 bias correction t0 rate)).
Proof.
  unfold at_, fillWhere. cbn [Z.ltb Z.compare Z.to_nat nth].
  apply first_entry.
Qed.

(** X8.  The mapping of the spectrogram, whose bias is one half, against the
    mapping of the waveform, whose bias is zero: every entry of the first
    is the entry of the second or the sample after it. *)
Theorem fillWhere_bias (len : Z) (correction t0 rate samplesPerPixel : double)
    (x : Z) :
  0 <= x <= len ->
  let wave := fillWhere len 0 correction t0 rate samplesPerPixel in
  let spec := fillWhere len (1 # 2) correction t0 rate samplesPerPixel in
  at_ 0 wave x <= at_ 0 spec x <= at_ 0 wave x + 1.
Proof.
  intros Hx. cbv zeta.
  assert (Hfl : forall a : Q, Qfloor a <= Qfloor (a + (1 # 2)) <= Qfloor a + 1).
  { intros a. split.
    - apply Qfloor_resp_le. lra.
    - pose proof (Qlt_floor a) as A. pose proof (Qfloor_le (a + (1 # 2))) as B.
      assert (K : (inject_Z (Qfloor (a + (1 # 2))) < inject_Z (Qfloor a + 2))%Q).
      { rewrite inject_Z_plus in *. change (inject_Z 1) with 1%Q in A.
        change (inject_Z 2) with 2%Q. lra. }
      rewrite <- Zlt_Qlt in K. lia. }
  assert (Hw : forall s : Q,
             (fillWhere_w0 (1 # 2) correction t0 rate + s
              == fillWhere_w0 0 correction t0 rate + s + (1 # 2))%Q).
  { intros s. unfold fillWhere_w0. ring. }
  destruct (Z.eq_dec x 0) as [-> | Hne].
  - rewrite !fillWhere_at_0. unfold floor.
    specialize (Hw 0%Q). rewrite !Qplus_0_r in Hw.
    assert (E : Qfloor (fillWhere_w0 (1 # 2) correction t0 rate)
                = Qfloor (fillWhere_w0 0 correction t0 rate + (1 # 2))).
    { now rewrite Hw. }
    rewrite E. specialize (Hfl (fillWhere_w0 0 correction t0 rate)). lia.
  - rewrite !fillWhere_at by lia. unfold floor. rewrite Hw. apply Hfl.
Qed.

(** Ten columns of two and a half samples: the column 2 starts at the
    sample 5 in the waveform and at the sample 6 in the spectrogram. *)
Lemma fillWhere_bias_witness :
  at_ 0 (fillWhere 10 0 0 0 1 (5 # 2)) 2 = 5
  /\ at_ 0 (fillWhere 10 (1 # 2) 0 0 1 (5 # 2)) 2 = 6
  /\ at_ 0 (fillWhere 10 0 0 0 1 (5 # 2)) 2
     <= at_ 0 (fillWhere 10 (1 # 2) 0 0 1 (5 # 2)) 2
     <= at_ 0 (fillWhere 10 0 0 0 1 (5 # 2)) 2 + 1.
Proof.
  split; [reflexivity|]. split; [reflexivity|].
  apply (fillWhere_bias 10 0 0 1 (5 # 2) 2). lia.
Defined.

(** ** The queries, asked again *)

Lemma count_negative_all_zero (v : list Z) :
  (forall x, In x v -> x = 0) -> count_negative v = 0.
Proof.
  unfold count_negative. induction v as [|a v IH]; intros H; [reflexivity|].
  cbn [filter]. rewrite (H a (or_introl eq_refl)).
  cbn [Z.ltb Z.compare]. apply IH. intros x Hx. apply H. now right.
Qed.

Lemma In_firstn {A} (n : nat) (l : list A) (x : A) :
  In x (firstn n l) -> In x l.
Proof.
  revert l. induction n as [|n IH]; intros [|a l]; cbn; try tauto.
  intros [H | H]; [now left | right; now apply IH].
Qed.

Lemma In_skipn {A} (n : nat) (l : list A) (x : A) :
  In x (skipn n l) -> In x l.
Proof.
  revert l. induction n as [|n IH]; intros [|a l]; cbn; try tauto.
  intros H. right. now apply IH.
Qed.

Lemma CountODPixels_zeros (n : nat) (s e : Z) :
  WaveCache.CountODPixels (repeat 0 n) s e = 0.
Proof.
  unfold WaveCache.CountODPixels, slice. apply count_negative_all_zero.
  intros x Hx. apply In_firstn, In_skipn in Hx.
  now apply repeat_spec in Hx.
Qed.

Section Again.

Context {S : Type} {api : Sequence.API S} {math : Math}.
Context {W : Type} {kernel : SpecCache.Kernel W}.
Variable zero_padded : bool.

Import WaveClip.

Lemma LoadInvalidRegions_none (c : WaveCache.t) (sequence : S) (u : bool) :
  WaveCache.mRegions c = [] -> WaveCache.LoadInvalidRegions c sequence u = c.
Proof.
  intros H. unfold WaveCache.LoadInvalidRegions. now rewrite H.
Qed.

(** The fields of the cache that loading a region leaves alone. *)
Lemma LoadInvalidRegions_fields (c : WaveCache.t) (sequence : S) (u : bool) :
  let c' := WaveCache.LoadInvalidRegions c sequence u in
  WaveCache.len c' = WaveCache.len c
  /\ WaveCache.start c' = WaveCache.start c
  /\ WaveCache.pps c' = WaveCache.pps c
  /\ WaveCache.where_ c' = WaveCache.where_ c.
Proof.
  cbv zeta. unfold WaveCache.LoadInvalidRegions.
  generalize (WaveCache.mRegions c) as rs. intros rs. revert c.
  induction rs as [|r rs IH]; intros c; cbn [fold_left]; [repeat split|].
  destruct (IH (WaveCache.LoadInvalidRegion c r sequence u))
    as (I1 & I2 & I3 & I4).
  rewrite I1, I2, I3, I4.
  unfold WaveCache.LoadInvalidRegion. destruct u; repeat split.
Qed.

(** The cache that [GetWaveDisplay] leaves when it has built one. *)
Lemma rebuilt_wave_cache (clip : t S) (display : WaveDisplay.t)
    (t0 pixelsPerSecond : double) :
  let r := GetWaveDisplay clip display t0 pixelsPerSecond in
  wd_path r = Rebuilt ->
  wd_isLoadingOD r = false
  /\ mDirty (wd_clip r) = mDirty clip
  /\ mRate (wd_clip r) = mRate clip
  /\ exists cache,
       mWaveCache (wd_clip r) = Some cache
       /\ WaveCache.len cache = WaveDisplay.width display
       /\ WaveCache.pps cache = pixelsPerSecond
       /\ WaveCache.start cache = t0
       /\ WaveCache.dirty cache = mDirty clip
       /\ WaveCache.mRegions cache = []
       /\ WaveCache.numODPixels cache = 0.
Proof.
  cbv zeta. unfold GetWaveDisplay.
  destruct (WaveDisplay.allocated display).
  { break_lets. break_fetched; cbn [wd_path]; discriminate. }
  destruct (mWaveCache clip) as [cache|].
  - match goal with |- context [if ?b then _ else _] => destruct b end.
    { cbn [wd_path]. discriminate. }
    break_lets. intros _.
    match goal with
    | |- context [if ?b then Some cache else None] => destruct b
    end;
      break_fetched;
      cbn [wd_isLoadingOD wd_clip with_WaveCache mDirty mRate mWaveCache
           WaveCache.set_columns WaveCache.write_columns
           WaveCache.with_where WaveCache.create WaveCache.numODPixels];
      rewrite ?CountODPixels_zeros;
      (split; [reflexivity|]); (split; [reflexivity|]);
      (split; [reflexivity|]);
      eexists; (split; [reflexivity|]);
      cbn [WaveCache.len WaveCache.pps WaveCache.start WaveCache.dirty
           WaveCache.mRegions WaveCache.numODPixels
           WaveCache.set_columns WaveCache.write_columns
           WaveCache.with_where WaveCache.create];
      repeat split; apply CountODPixels_zeros.
  - change (0 >? 0) with false. cbv iota.
    break_lets. intros _.
    break_fetched;
      cbn [wd_isLoadingOD wd_clip with_WaveCache mDirty mRate mWaveCache
           WaveCache.set_columns WaveCache.write_columns
           WaveCache.with_where WaveCache.create WaveCache.numODPixels];
      rewrite ?CountODPixels_zeros;
      (split; [reflexivity|]); (split; [reflexivity|]);
      (split; [reflexivity|]);
      eexists; (split; [reflexivity|]);
      cbn [WaveCache.len WaveCache.pps WaveCache.start WaveCache.dirty
           WaveCache.mRegions WaveCache.numODPixels
           WaveCache.set_columns WaveCache.write_columns
           WaveCache.with_where WaveCache.create];
      repeat split; apply CountODPixels_zeros.
Qed.


(** A display without arrays of its own is served from the cache, as it is
    or rebuilt. *)
Lemma cached_paths (clip : t S) (display : WaveDisplay.t)
    (t0 pixelsPerSecond : double) :
  WaveDisplay.allocated display = false ->
  wd_path (GetWaveDisplay clip display t0 pixelsPerSecond) <> OwnArrays.
Proof.
  intros Ha. unfold GetWaveDisplay. rewrite Ha.
  destruct (mWaveCache clip) as [cache|].
  - match goal with |- context [if ?b then _ else _] => destruct b end.
    + cbn [wd_path]. discriminate.
    + break_lets. break_fetched; cbn [wd_path]; discriminate.
  - break_lets. break_fetched; cbn [wd_path]; discriminate.
Qed.

(** The clip that [GetWaveDisplay] leaves when it is served from the
    cache as it is. *)
Lemma full_hit_wave_cache (clip : t S) (display : WaveDisplay.t)
    (t0 pixelsPerSecond : double) :
  let r := GetWaveDisplay clip display t0 pixelsPerSecond in
  wd_path r = FullHit ->
  exists cache,
    mWaveCache clip = Some cache
    /\ wave_match clip (WaveDisplay.width display) pixelsPerSecond
       && Qeq_bool (WaveCache.start cache) t0
       && (WaveCache.len cache >=? WaveDisplay.width display) = true
    /\ wd_clip r
       = with_WaveCache clip
           (Some (WaveCache.ClearInvalidRegions
                    (WaveCache.LoadInvalidRegions cache (mSequence clip)
                                                  true))).
Proof.
  cbv zeta. unfold GetWaveDisplay.
  destruct (WaveDisplay.allocated display).
  { break_lets. break_fetched; cbn [wd_path]; discriminate. }
  destruct (mWaveCache clip) as [cache|] eqn:Hc.
  - match goal with |- context [if ?b then _ else _] => destruct b eqn:Hit end.
    + intros _. exists cache. split; [reflexivity|]. split; [exact Hit|].
      reflexivity.
    + break_lets. break_fetched; cbn [wd_path]; discriminate.
  - break_lets. break_fetched; cbn [wd_path]; discriminate.
Qed.

Lemma pps_close_same (pps : double) (n rate : Z) :
  0 < rate -> pps_close pps pps n rate.
Proof.
  intros Hr. unfold pps_close.
  assert (E : (Qabs (1 / pps - 1 / pps) * inject_Z n == 0)%Q).
  { assert (E0 : (1 / pps - 1 / pps == 0)%Q) by apply Qplus_opp_r.
    rewrite E0. change (Qabs 0) with 0%Q. apply Qmult_0_l. }
  rewrite E. unfold Qdiv. rewrite Qmult_1_l. apply Qinv_lt_0_compat.
  change 0%Q with (inject_Z 0). rewrite <- Zlt_Qlt. exact Hr.
Qed.

(** The cache that [GetWaveDisplay] leaves in the clip: it serves the
    same request as it is, and it has no invalid region. *)
Lemma queried_wave_cache (clip : t S) (display : WaveDisplay.t)
    (t0 pixelsPerSecond : double) :
  WaveDisplay.allocated display = false ->
  0 < WaveDisplay.width display -> 0 < mRate clip ->
  let r := GetWaveDisplay clip display t0 pixelsPerSecond in
  exists cache,
    mWaveCache (wd_clip r) = Some cache
    /\ WaveCache.mRegions cache = []
    /\ wave_match (wd_clip r) (WaveDisplay.width display) pixelsPerSecond
       && Qeq_bool (WaveCache.start cache) t0
       && (WaveCache.len cache >=? WaveDisplay.width display) = true.
Proof.
  intros Ha Hw Hr. cbv zeta.
  pose proof (cached_paths clip display t0 pixelsPerSecond Ha) as Hp.
  destruct (wd_path (GetWaveDisplay clip display t0 pixelsPerSecond)) eqn:P;
    [contradiction | |].
  - destruct (full_hit_wave_cache clip display t0 pixelsPerSecond P)
      as (cache & Hc & Hit & ->).
    eexists. split; [reflexivity|]. split; [reflexivity|].
    match goal with
    | |- context [Qeq_bool (WaveCache.start ?c) _] =>
        apply (wave_full_hit_reflect _ c); [reflexivity|]
    end.
    apply (wave_full_hit_reflect _ _ _ _ _ Hc) in Hit.
    destruct (LoadInvalidRegions_fields cache (mSequence clip) true)
      as (F1 & F2 & F3 & _).
    cbn [WaveCache.ClearInvalidRegions WaveCache.with_regions WaveCache.len
         WaveCache.dirty WaveCache.pps WaveCache.start with_WaveCache
         mDirty mRate].
    rewrite F1, F2, F3, LoadInvalidRegions_dirty. exact Hit.
  - destruct (rebuilt_wave_cache clip display t0 pixelsPerSecond P)
      as (_ & Hd & Hrate & cache & Hc & H1 & H2 & H3 & H4 & H5 & _).
    exists cache. split; [exact Hc|]. split; [exact H5|].
    apply (wave_full_hit_reflect _ _ _ _ _ Hc).
    rewrite H1, H2, H3, H4, Hd, Hrate.
    split; [exact Hw|]. split; [reflexivity|].
    split; [now apply pps_close_same|]. split; [apply Qeq_refl | lia].
Qed.

(** X9.  A request that [GetWaveDisplay] has answered for a display without
    arrays of its own is answered from the cache as it is when it is made
    again, whether the first answer was [true] or [false]: the second
    call returns [true] and leaves the clip as the first call left it. *)
Theorem GetWaveDisplay_again (clip : t S) (display display' : WaveDisplay.t)
    (t0 pixelsPerSecond : double) :
  WaveDisplay.allocated display = false ->
  WaveDisplay.allocated display' = false ->
  WaveDisplay.width display' = WaveDisplay.width display ->
  0 < WaveDisplay.width display -> 0 < mRate clip ->
  (0 < pixelsPerSecond)%Q ->
  let r := GetWaveDisplay clip display t0 pixelsPerSecond in
  let r' := GetWaveDisplay (wd_clip r) display' t0 pixelsPerSecond in
  wd_path r' = FullHit /\ wd_return r' = true /\ wd_clip r' = wd_clip r.
Proof.
  intros Ha Ha' Hw' Hw Hr _. cbv zeta.
  destruct (queried_wave_cache clip display t0 pixelsPerSecond Ha Hw Hr)
    as (cache & Hc & Hnone & Hit).
  cbv zeta in Hc, Hnone, Hit.
  set (clip1 := wd_clip (GetWaveDisplay clip display t0 pixelsPerSecond)) in *.
  unfold GetWaveDisplay. rewrite Ha', Hw', Hc, Hit.
  cbn [wd_path wd_return wd_clip]. split; [reflexivity|].
  split; [reflexivity|].
  rewrite LoadInvalidRegions_none by exact Hnone.
  destruct cache. cbn in Hnone. subst.
  destruct clip1. cbn in Hc. subst. reflexivity.
Qed.

(** X10.  On the path that builds a cache the flag [isLoadingOD] is always
    [false]: the count of on-demand pixels of the new cache is taken when
    its block flags are all zero and is not taken again once the columns
    are filled. *)
Theorem GetWaveDisplay_rebuilt_not_loading (clip : t S)
    (display : WaveDisplay.t) (t0 pixelsPerSecond : double) :
  let r := GetWaveDisplay clip display t0 pixelsPerSecond in
  wd_path r = Rebuilt ->
  wd_isLoadingOD r = false
  /\ exists cache,
       mWaveCache (wd_clip r) = Some cache
       /\ WaveCache.numODPixels cache = 0.
Proof.
  cbv zeta. intros P.
  destruct (rebuilt_wave_cache clip display t0 pixelsPerSecond P)
    as (H & _ & _ & cache & Hc & _ & _ & _ & _ & _ & Hn).
  split; [exact H|]. exists cache. now split.
Qed.


(** X11.  [DeleteWaveCache] forces a redraw: the next query for a display
    without arrays of its own builds its cache anew and does exactly what
    it does on a clip that has no cache; and the empty cache that is left
    records no invalid region. *)
Theorem DeleteWaveCache_forces_rebuild (clip : t S) (display : WaveDisplay.t)
    (t0 pixelsPerSecond : double) (startSample endSample : Z) :
  WaveDisplay.allocated display = false ->
  let clip' := DeleteWaveCache clip in
  wd_path (GetWaveDisplay clip' display t0 pixelsPerSecond) = Rebuilt
  /\ GetWaveDisplay clip' display t0 pixelsPerSecond
     = GetWaveDisplay (with_WaveCache clip None) display t0 pixelsPerSecond
  /\ AddInvalidRegion clip' startSample endSample = clip'.
Proof.
  intros Ha. cbv zeta.
  destruct (wave_stale (DeleteWaveCache clip) display t0 pixelsPerSecond Ha)
    as [H1 H2].
  { intros cache Hc. right. cbn in Hc. inversion Hc; subst. cbn. lia. }
  split; [exact H1|]. split; [exact H2 | reflexivity].
Qed.

(** The cache that [GetSpectrogram] leaves when it has built one. *)
Lemma rebuilt_spec_cache (clip : t S) (waveTrackCache : W)
    (settings : SpectrogramSettings.t) (numPixels : Z)
    (t0 pixelsPerSecond : double) :
  let r := GetSpectrogram zero_padded clip waveTrackCache settings numPixels
                          t0 pixelsPerSecond in
  sp_path r = Rebuilt ->
  mDirty (sp_clip r) = mDirty clip
  /\ mRate (sp_clip r) = mRate clip
  /\ exists cache,
       mSpecCache (sp_clip r) = Some cache
       /\ SpecCache.len cache = numPixels
       /\ SpecCache.pps cache = pixelsPerSecond
       /\ SpecCache.start cache = t0
       /\ SpecCache.dirty cache = mDirty clip
       /\ SpecCache.windowType cache = SpectrogramSettings.windowType settings
       /\ SpecCache.windowSize cache = SpectrogramSettings.windowSize settings
       /\ SpecCache.zeroPaddingFactor cache
          = SpecCache.effective_zeroPaddingFactor zero_padded settings
       /\ SpecCache.frequencyGain cache
          = SpectrogramSettings.frequencyGain settings
       /\ SpecCache.algorithm cache
          = Some (SpectrogramSettings.algorithm settings)
       /\ SpecCache.freq cache = sp_spectrogram r
       /\ SpecCache.where_ cache = sp_where r.
Proof.
  cbv zeta. unfold GetSpectrogram.
  destruct (mSpecCache clip) as [cache|].
  - match goal with |- context [if ?b then _ else _] => destruct b end.
    { cbn [sp_path]. discriminate. }
    break_lets. intros _.
    cbn [sp_clip with_SpecCache mDirty mRate mSpecCache sp_spectrogram
         sp_where].
    split; [reflexivity|]. split; [reflexivity|].
    eexists. split; [reflexivity|].
    match goal with
    | |- context [if ?b then Some cache else None] => destruct b
    end; repeat split.
  - intros _.
    cbn [sp_clip with_SpecCache mDirty mRate mSpecCache sp_spectrogram
         sp_where].
    split; [reflexivity|]. split; [reflexivity|].
    eexists. split; [reflexivity|]. repeat split.
Qed.

(** X12.  A request that [GetSpectrogram] has answered by building a cache is
    answered from that cache when it is made again exactly when the zero
    padding factor that the cache was built with is the one of the
    settings; it is then answered with [false] and with the same arrays,
    and the clip is left as it was.  When the two factors differ the cache
    that was just built does not match and is built once more. *)
Theorem GetSpectrogram_again (clip : t S) (waveTrackCache : W)
    (settings : SpectrogramSettings.t) (numPixels : Z)
    (t0 pixelsPerSecond : double) :
  0 < numPixels -> 0 < mRate clip -> (0 < pixelsPerSecond)%Q ->
  let r := GetSpectrogram zero_padded clip waveTrackCache settings numPixels
                          t0 pixelsPerSecond in
  let r' := GetSpectrogram zero_padded (sp_clip r) waveTrackCache settings
                           numPixels t0 pixelsPerSecond in
  sp_path r = Rebuilt ->
  (sp_path r' = FullHit
   <-> SpecCache.effective_zeroPaddingFactor zero_padded settings
       = SpectrogramSettings.zeroPaddingFactor settings)
  /\ (sp_path r' = FullHit ->
      sp_return r' = false
      /\ sp_spectrogram r' = sp_spectrogram r
      /\ sp_where r' = sp_where r
      /\ sp_clip r' = sp_clip r).
Proof.
  intros Hn Hr _. cbv zeta. intros P.
  destruct (rebuilt_spec_cache clip waveTrackCache settings numPixels t0
              pixelsPerSecond P)
    as (Hd & Hrate & cache & Hc & H1 & H2 & H3 & H4 & H5 & H6 & H7 & H8 & H9
        & H10 & H11).
  cbv zeta in Hd, Hrate, Hc, H10, H11.
  set (r := GetSpectrogram zero_padded clip waveTrackCache settings numPixels
                           t0 pixelsPerSecond) in *.
  assert (Hhit :
    spec_match (sp_clip r) settings pixelsPerSecond
    && Qeq_bool (SpecCache.start cache) t0
    && (SpecCache.len cache >=? numPixels) = true
    <-> SpecCache.effective_zeroPaddingFactor zero_padded settings
        = SpectrogramSettings.zeroPaddingFactor settings).
  { rewrite (spec_full_hit_reflect _ _ _ _ _ _ Hc). unfold spec_full_hit.
    split.
    - intros (c & Ec & _ & _ & (_ & _ & Hz & _) & _).
      rewrite Hc in Ec. inversion Ec; subst c. now rewrite <- H7.
    - intros Hz. exists cache. split; [exact Hc|].
      rewrite H1, H2, H3, H4, Hd, Hrate.
      split; [exact Hn|]. split; [reflexivity|].
      split; [unfold same_settings; rewrite H5, H6, H7, H8, H9; auto|].
      split; [now apply pps_close_same|]. split; [apply Qeq_refl | lia]. }
  unfold GetSpectrogram. rewrite Hc.
  destruct (spec_match (sp_clip r) settings pixelsPerSecond
            && Qeq_bool (SpecCache.start cache) t0
            && (SpecCache.len cache >=? numPixels)) eqn:E.
  - cbn [sp_path sp_return sp_spectrogram sp_where sp_clip].
    split; [split; [intros _; now apply Hhit | reflexivity]|].
    intros _. rewrite H10, H11. repeat split.
  - split.
    + split.
      * break_lets. cbn [sp_path]. discriminate.
      * intros Hz. apply Hhit in Hz. discriminate.
    + break_lets. cbn [sp_path]. discriminate.
Qed.

End Again.

(** The clip of four samples at one sample per second, asked twice for
    two columns of one second from time 0. *)
Lemma GetWaveDisplay_again_witness :
  let r :=
    WaveClip.GetWaveDisplay (api := Example.ListSequence_API)
      (math := Example.exact_sqrt)
      Example.four_samples (Example.new_display 2) 0 1 in
  let r' :=
    WaveClip.GetWaveDisplay (api := Example.ListSequence_API)
      (math := Example.exact_sqrt)
      (WaveClip.wd_clip r) (Example.new_display 2) 0 1 in
  WaveClip.wd_path r = WaveClip.Rebuilt
  /\ WaveClip.wd_path r' = WaveClip.FullHit
  /\ WaveClip.wd_return r' = true
  /\ WaveClip.wd_clip r' = WaveClip.wd_clip r.
Proof.
  cbv zeta. split; [reflexivity|].
  apply (GetWaveDisplay_again (api := Example.ListSequence_API)
           (math := Example.exact_sqrt)
           Example.four_samples (Example.new_display 2)
           (Example.new_display 2) 0 1).
  - reflexivity.
  - reflexivity.
  - reflexivity.
  - cbn; lia.
  - cbn; lia.
  - reflexivity.
Defined.

(** A clip whose sequence flags every column as being on demand: the
    cache that is built holds two negative block flags, and the loading
    flag is [false]. *)
Lemma GetWaveDisplay_rebuilt_not_loading_witness :
  let r :=
    WaveClip.GetWaveDisplay (api := Counting.Count_API)
      (math := Example.exact_sqrt)
      (Counting.clip_of 4 1 0) (Example.new_display 2) 0 1 in
  WaveClip.wd_isLoadingOD r = false
  /\ option_map WaveCache.bl (WaveClip.mWaveCache (WaveClip.wd_clip r))
     = Some [-1; -1].
Proof.
  cbv zeta. split; [|reflexivity].
  apply (GetWaveDisplay_rebuilt_not_loading (api := Counting.Count_API)
           (math := Example.exact_sqrt)
           (Counting.clip_of 4 1 0) (Example.new_display 2) 0 1).
  reflexivity.
Defined.

(** The clip of four samples after a query and [DeleteWaveCache]. *)
Lemma DeleteWaveCache_forces_rebuild_witness :
  let clip :=
    WaveClip.wd_clip
      (WaveClip.GetWaveDisplay (api := Example.ListSequence_API)
         (math := Example.exact_sqrt)
         Example.four_samples (Example.new_display 2) 0 1) in
  WaveClip.wd_path
    (WaveClip.GetWaveDisplay (api := Example.ListSequence_API)
       (math := Example.exact_sqrt)
       (WaveClip.DeleteWaveCache clip) (Example.new_display 2) 0 1)
  = WaveClip.Rebuilt.
Proof.
  cbv zeta.
  apply (DeleteWaveCache_forces_rebuild (api := Example.ListSequence_API)
           (math := Example.exact_sqrt) _ (Example.new_display 2) 0 1 0 0).
  reflexivity.
Defined.

(** The clip of four samples, asked twice for two columns of the standard
    spectrogram with a zero padding factor of 1, in a build without
    zero-padded spectrograms. *)
Lemma GetSpectrogram_again_witness :
  let r :=
    WaveClip.GetSpectrogram (api := Example.ListSequence_API)
      (kernel := Example.idle_Kernel) false Example.four_samples tt
      (Example.settings4 SpectrogramSettings.algSTFT) 2 0 1 in
  let r' :=
    WaveClip.GetSpectrogram (api := Example.ListSequence_API)
      (kernel := Example.idle_Kernel) false (WaveClip.sp_clip r) tt
      (Example.settings4 SpectrogramSettings.algSTFT) 2 0 1 in
  WaveClip.sp_path r' = WaveClip.FullHit
  /\ WaveClip.sp_return r' = false
  /\ WaveClip.sp_clip r' = WaveClip.sp_clip r.
Proof.
  cbv zeta.
  destruct (GetSpectrogram_again (api := Example.ListSequence_API)
              (kernel := Example.idle_Kernel) false Example.four_samples tt
              (Example.settings4 SpectrogramSettings.algSTFT) 2 0 1)
    as [H1 H2].
  - lia.
  - cbn; lia.
  - reflexivity.
  - reflexivity.
  - assert (H : WaveClip.sp_path
                  (WaveClip.GetSpectrogram (api := Example.ListSequence_API)
                     (kernel := Example.idle_Kernel) false
                     (WaveClip.sp_clip
                        (WaveClip.GetSpectrogram
                           (api := Example.ListSequence_API)
                           (kernel := Example.idle_Kernel) false
                           Example.four_samples tt
                           (Example.settings4 SpectrogramSettings.algSTFT)
                           2 0 1))
                     tt (Example.settings4 SpectrogramSettings.algSTFT) 2 0 1)
                = WaveClip.FullHit).
    { apply H1. reflexivity. }
    destruct (H2 H) as (K1 & _ & _ & K2).
    split; [exact H|]. split; [exact K1 | exact K2].
Defined.

(** ** Times and samples *)

Section TimeQueries.

Context {S : Type} {api : Sequence.API S}.
Context {statistics : SequenceStatistics.API S}.

Import WaveClip.

Lemma floor_half (n : Z) : floor (inject_Z n + (1 # 2))%Q = n.
Proof.
  unfold floor. apply Z.le_antisymm.
  - pose proof (Qfloor_le (inject_Z n + (1 # 2))) as H.
    assert (K : (inject_Z (Qfloor (inject_Z n + (1 # 2)))
                 < inject_Z (n + 1))%Q).
    { rewrite inject_Z_plus. change (inject_Z 1) with 1%Q. lra. }
    rewrite <- Zlt_Qlt in K. lia.
  - assert (K : (inject_Z n <= inject_Z n + (1 # 2))%Q) by lra.
    apply Qfloor_resp_le in K. now rewrite Qfloor_Z in K.
Qed.

(** The three cases of [TimeToSamplesClip]. *)
Lemma TimeToSamplesClip_cases (clip : t S) (t0 : double) :
  let n := Sequence.GetNumSamples (mSequence clip) in
  ((t0 < mOffset clip)%Q /\ TimeToSamplesClip clip t0 = 0)
  \/ ((mOffset clip + inject_Z n / inject_Z (mRate clip) < t0)%Q
      /\ TimeToSamplesClip clip t0 = n)
  \/ ((mOffset clip <= t0)%Q
      /\ (t0 <= mOffset clip + inject_Z n / inject_Z (mRate clip))%Q
      /\ TimeToSamplesClip clip t0
         = floor ((t0 - mOffset clip) * inject_Z (mRate clip) + (1 # 2))%Q).
Proof.
  cbv zeta. unfold TimeToSamplesClip.
  destruct (Qlt_bool t0 (mOffset clip)) eqn:E1.
  - left. split; [now apply Qlt_bool_iff | reflexivity].
  - destruct (Qlt_bool _ t0) eqn:E2.
    + right. left. split; [now apply Qlt_bool_iff | reflexivity].
    + right. right. apply Qlt_bool_false_iff in E1, E2. repeat split; auto.
Qed.

(** The position inside the clip, in samples, of a time inside the clip. *)
Lemma inside_position (clip : t S) (t0 : double) :
  0 < mRate clip ->
  let n := Sequence.GetNumSamples (mSequence clip) in
  (mOffset clip <= t0)%Q ->
  (t0 <= mOffset clip + inject_Z n / inject_Z (mRate clip))%Q ->
  (0 <= (t0 - mOffset clip) * inject_Z (mRate clip) <= inject_Z n)%Q.
Proof.
  intros Hr n H1 H2.
  assert (Hrq : (0 < inject_Z (mRate clip))%Q).
  { change 0%Q with (inject_Z 0). now rewrite <- Zlt_Qlt. }
  split; [nra|].
  assert (K : ((t0 - mOffset clip) * inject_Z (mRate clip)
               <= inject_Z n / inject_Z (mRate clip) * inject_Z (mRate clip))%Q).
  { apply Qmult_le_compat_r; lra. }
  assert (E : (inject_Z n / inject_Z (mRate clip) * inject_Z (mRate clip)
               == inject_Z n)%Q).
  { field. lra. }
  lra.
Qed.

Lemma TimeToSamplesClip_within (clip : t S) (t_ : double) :
  0 < mRate clip -> 0 <= Sequence.GetNumSamples (mSequence clip) ->
  0 <= TimeToSamplesClip clip t_ <= Sequence.GetNumSamples (mSequence clip).
Proof.
  intros Hr Hn.
  destruct (TimeToSamplesClip_cases clip t_)
    as [[_ ->] | [[_ ->] | (A & B & ->)]]; try lia.
  destruct (inside_position clip t_ Hr A B) as [P1 P2].
  split.
  - assert (K : (inject_Z 0 <= (t_ - mOffset clip) * inject_Z (mRate clip)
                               + (1 # 2))%Q).
    { change (inject_Z 0) with 0%Q. lra. }
    apply Qfloor_resp_le in K. now rewrite Qfloor_Z in K.
  - rewrite <- (floor_half (Sequence.GetNumSamples (mSequence clip))).
    unfold floor. apply Qfloor_resp_le. lra.
Qed.

Lemma TimeToSamplesClip_monotone (clip : t S) (t0 t1 : double) :
  0 < mRate clip -> 0 <= Sequence.GetNumSamples (mSequence clip) ->
  (t0 <= t1)%Q ->
  TimeToSamplesClip clip t0 <= TimeToSamplesClip clip t1.
Proof.
  intros Hr Hn Ht.
  assert (Hrq : (0 < inject_Z (mRate clip))%Q).
  { change 0%Q with (inject_Z 0). now rewrite <- Zlt_Qlt. }
  assert (Hq : (0 <= inject_Z (Sequence.GetNumSamples (mSequence clip))
                     / inject_Z (mRate clip))%Q).
  { apply Qle_shift_div_l; [exact Hrq|]. rewrite Qmult_0_l.
    change 0%Q with (inject_Z 0). now rewrite <- Zle_Qle. }
  pose proof (TimeToSamplesClip_within clip t0 Hr Hn) as R0.
  pose proof (TimeToSamplesClip_within clip t1 Hr Hn) as R1.
  destruct (TimeToSamplesClip_cases clip t0)
    as [[A0 E0] | [[A0 E0] | (A0 & B0 & E0)]];
    destruct (TimeToSamplesClip_cases clip t1)
      as [[A1 E1] | [[A1 E1] | (A1 & B1 & E1)]];
    try (rewrite E0 in *; rewrite E1 in *; lia);
    try (exfalso; lra).
  rewrite E0, E1. unfold floor. apply Qfloor_resp_le. nra.
Qed.

(** X13.  [TimeToSamplesClip] gives a position between the first sample and the
    end of the sequence, and a later time never gives an earlier
    position, when the rate is positive. *)
Theorem TimeToSamplesClip_range (clip : t S) (t0 t1 : double) :
  0 < mRate clip -> 0 <= Sequence.GetNumSamples (mSequence clip) ->
  (t0 <= t1)%Q ->
  0 <= TimeToSamplesClip clip t0
  /\ TimeToSamplesClip clip t0 <= TimeToSamplesClip clip t1
  /\ TimeToSamplesClip clip t1 <= Sequence.GetNumSamples (mSequence clip).
Proof.
  intros Hr Hn Ht.
  split; [now apply TimeToSamplesClip_within|].
  split; [now apply TimeToSamplesClip_monotone|].
  now apply TimeToSamplesClip_within.
Qed.

(** X14.  [GetMinMax] and [GetRMS] return [false] when the range ends before it
    starts and [true], with zeros, when it is empty; for any other range
    they ask the sequence about samples that it has: a start that is not
    negative and a length that is not negative and does not lead beyond
    the end of the sequence. *)
Theorem GetMinMax_cases (clip : t S) (t0 t1 : double) :
  0 < mRate clip -> 0 <= Sequence.GetNumSamples (mSequence clip) ->
  ((t1 < t0)%Q ->
   GetMinMax clip t0 t1 = (false, 0%Q, 0%Q)
   /\ GetRMS clip t0 t1 = (false, 0%Q))
  /\ ((t0 == t1)%Q ->
      GetMinMax clip t0 t1 = (true, 0%Q, 0%Q)
      /\ GetRMS clip t0 t1 = (true, 0%Q))
  /\ ((t0 < t1)%Q ->
      exists s0 len,
        0 <= s0 /\ 0 <= len
        /\ s0 + len <= Sequence.GetNumSamples (mSequence clip)
        /\ GetMinMax clip t0 t1
           = SequenceStatistics.GetMinMax (mSequence clip) s0 len
        /\ GetRMS clip t0 t1
           = SequenceStatistics.GetRMS (mSequence clip) s0 len).
Proof.
  intros Hr Hn. unfold GetMinMax, GetRMS. split; [|split].
  - intros H. apply Qlt_bool_iff in H. now rewrite H.
  - intros H.
    assert (E : Qlt_bool t1 t0 = false) by (apply Qlt_bool_false_iff; lra).
    apply Qeq_bool_iff in H. now rewrite E, H.
  - intros H.
    assert (E1 : Qlt_bool t1 t0 = false) by (apply Qlt_bool_false_iff; lra).
    assert (E2 : Qeq_bool t0 t1 = false).
    { apply not_true_is_false. rewrite Qeq_bool_iff. lra. }
    rewrite E1, E2.
    exists (TimeToSamplesClip clip t0),
           (TimeToSamplesClip clip t1 - TimeToSamplesClip clip t0).
    pose proof (TimeToSamplesClip_within clip t0 Hr Hn).
    pose proof (TimeToSamplesClip_within clip t1 Hr Hn).
    assert (TimeToSamplesClip clip t0 <= TimeToSamplesClip clip t1).
    { apply TimeToSamplesClip_monotone; auto. lra. }
    repeat split; lia.
Qed.

(** X15.  A time is within the clip exactly when it is neither before nor after
    it, and no time is both before and after a clip that holds a sample,
    in its sequence or in its append buffer. *)
Theorem clip_position (clip : t S) (t_ : double) :
  WithinClip clip t_ = negb (BeforeClip clip t_) && negb (AfterClip clip t_)
  /\ (0 < Sequence.GetNumSamples (mSequence clip) + mAppendBufferLen clip ->
      BeforeClip clip t_ && AfterClip clip t_ = false).
Proof.
  unfold WithinClip, BeforeClip, AfterClip, GetEndSample. cbv zeta.
  set (ts := floor _). set (s := GetStartSample clip). split.
  - apply eq_true_iff_eq.
    rewrite !andb_true_iff, !negb_true_iff, Z.gtb_lt, Z.ltb_lt, Z.leb_gt,
      Z.geb_leb, Z.leb_gt. lia.
  - intros H. apply not_true_is_false.
    rewrite andb_true_iff, Z.leb_le, Z.geb_le. lia.
Qed.

End TimeQueries.

(** A clip of 100 samples at 10 samples per second that starts at time 0:
    the times 2 and 5 are the samples 20 and 50, and a time beyond the end
    is the end. *)
Lemma TimeToSamplesClip_range_witness :
  WaveClip.TimeToSamplesClip (api := Counting.Count_API)
    (Counting.clip_of 100 10 0) 2 = 20
  /\ WaveClip.TimeToSamplesClip (api := Counting.Count_API)
       (Counting.clip_of 100 10 0) 50 = 100
  /\ 0 <= WaveClip.TimeToSamplesClip (api := Counting.Count_API)
            (Counting.clip_of 100 10 0) 2
  /\ WaveClip.TimeToSamplesClip (api := Counting.Count_API)
       (Counting.clip_of 100 10 0) 2
     <= WaveClip.TimeToSamplesClip (api := Counting.Count_API)
          (Counting.clip_of 100 10 0) 50
  /\ WaveClip.TimeToSamplesClip (api := Counting.Count_API)
       (Counting.clip_of 100 10 0) 50
     <= 100.
Proof.
  split; [reflexivity|]. split; [reflexivity|].
  apply (TimeToSamplesClip_range (api := Counting.Count_API)
           (Counting.clip_of 100 10 0) 2 50).
  - cbn; lia.
  - cbn; lia.
  - vm_compute. discriminate.
Defined.

(** The same clip between the times 2 and 5: the sequence is asked about
    the 30 samples from sample 20 on. *)
Lemma GetMinMax_cases_witness :
  WaveClip.GetMinMax (api := Counting.Count_API)
    (statistics := Counting.Count_Statistics) (Counting.clip_of 100 10 0) 5 2
  = (false, 0%Q, 0%Q)
  /\ exists s0 len,
       0 <= s0 /\ 0 <= len /\ s0 + len <= 100
       /\ WaveClip.GetMinMax (api := Counting.Count_API)
            (statistics := Counting.Count_Statistics)
            (Counting.clip_of 100 10 0) 2 5
          = SequenceStatistics.GetMinMax (API := Counting.Count_Statistics)
              100 s0 len.
Proof.
  destruct (GetMinMax_cases (api := Counting.Count_API)
              (statistics := Counting.Count_Statistics)
              (Counting.clip_of 100 10 0) 5 2) as (H1 & _ & _).
  { cbn; lia. }
  { cbn; lia. }
  destruct (GetMinMax_cases (api := Counting.Count_API)
              (statistics := Counting.Count_Statistics)
              (Counting.clip_of 100 10 0) 2 5) as (_ & _ & H3).
  { cbn; lia. }
  { cbn; lia. }
  split.
  - apply H1. reflexivity.
  - destruct H3 as (s0 & len & A & B & C & D & _); [reflexivity|].
    exists s0, len. repeat split; assumption.
Defined.

(** The same clip: the time 2 is within it, and it is not both before and
    after it. *)
Lemma clip_position_witness :
  WaveClip.WithinClip (api := Counting.Count_API) (Counting.clip_of 100 10 0) 2
  = true
  /\ WaveClip.BeforeClip (Counting.clip_of 100 10 0) 2
     && WaveClip.AfterClip (api := Counting.Count_API)
          (Counting.clip_of 100 10 0) 2
     = false.
Proof.
  destruct (clip_position (api := Counting.Count_API)
              (Counting.clip_of 100 10 0) 2) as [_ H].
  split; [reflexivity|]. apply H. cbn. lia.
Defined.

(** ** Appending and flushing *)

Section Appending.

Context {S : Type} {api : Sequence.API S}.

Import WaveClip.

(** The loop of [Append] neither loses nor makes up a sample, and the
    append buffer never holds more than the maximal block size. *)
Lemma Append_loop_total (Hadd : Append_adds) (maxBlockSize : Z) :
  (forall s : S, 0 < Sequence.GetIdealAppendLen s <= maxBlockSize) ->
  forall (fuel : nat) (clip : t S) (blockSize : Z) (buffer : list float)
         (len : sampleCount) (done : t S),
    0 < blockSize <= maxBlockSize ->
    0 <= mAppendBufferLen clip <= maxBlockSize ->
    0 <= len ->
    Append_loop fuel clip maxBlockSize blockSize buffer len
    = Some (inl done) ->
    total_samples done = total_samples clip + len
    /\ 0 <= mAppendBufferLen done <= maxBlockSize
    /\ mOffset done = mOffset clip
    /\ mRate done = mRate clip.
Proof.
  intros Hideal.
  induction fuel as [|fuel IH]; intros clip blockSize buffer len done Hb Hl
                                       Hlen H; [discriminate|].
  cbn [Append_loop] in H. unfold total_samples in *.
  destruct (mAppendBufferLen clip >=? blockSize) eqn:Eflush.
  - destruct (Sequence.Append _ _ _) as [success s] eqn:EA.
    destruct success; [|discriminate].
    apply Hadd in EA. apply Z.geb_le in Eflush.
    destruct (len =? 0) eqn:E0.
    + apply Z.eqb_eq in E0. inversion H; subst done.
      cbn [with_AppendBuffer with_Sequence mSequence mAppendBufferLen
           mOffset mRate].
      repeat split; lia.
    + apply Z.eqb_neq in E0.
      apply IH in H.
      * cbn [with_AppendBuffer with_Sequence mSequence mAppendBufferLen
             mOffset mRate] in H.
        destruct H as (H1 & H2 & H3 & H4).
        destruct (maxBlockSize - (mAppendBufferLen clip - blockSize) >? len);
          repeat split; try assumption; lia.
      * apply Hideal.
      * cbn [with_AppendBuffer with_Sequence mAppendBufferLen].
        destruct (maxBlockSize - (mAppendBufferLen clip - blockSize) >? len)
          eqn:E; lia.
      * destruct (maxBlockSize - _ >? len) eqn:E;
          cbn [with_AppendBuffer with_Sequence mAppendBufferLen] in *; lia.
  - destruct (len =? 0) eqn:E0.
    + apply Z.eqb_eq in E0. inversion H; subst done. repeat split; lia.
    + apply Z.eqb_neq in E0.
      apply IH in H.
      * cbn [with_AppendBuffer with_Sequence mSequence mAppendBufferLen
             mOffset mRate] in H.
        destruct H as (H1 & H2 & H3 & H4).
        destruct (maxBlockSize - mAppendBufferLen clip >? len);
          repeat split; try assumption; lia.
      * exact Hb.
      * cbn [with_AppendBuffer mAppendBufferLen].
        destruct (maxBlockSize - mAppendBufferLen clip >? len) eqn:E; lia.
      * destruct (maxBlockSize - mAppendBufferLen clip >? len) eqn:E; lia.
Qed.

(** A loop of [Append] that is left by [return false] has left the
    generation counter, the caches, the offset and the rate alone. *)
Lemma Append_loop_failed (fuel : nat) :
  forall (clip : t S) (maxBlockSize blockSize : Z) (buffer : list float)
         (len : sampleCount) (failed : t S),
    Append_loop fuel clip maxBlockSize blockSize buffer len
    = Some (inr failed) ->
    mDirty failed = mDirty clip
    /\ mWaveCache failed = mWaveCache clip
    /\ mSpecCache failed = mSpecCache clip.
Proof.
  induction fuel as [|fuel IH]; intros clip maxBlockSize blockSize buffer len
                                       failed H; [discriminate|].
  cbn [Append_loop] in H.
  destruct (mAppendBufferLen clip >=? blockSize).
  - destruct (Sequence.Append _ _ _) as [success s].
    destruct success.
    + destruct (len =? 0); [discriminate|].
      apply IH in H. cbn in H. exact H.
    + inversion H; subst. repeat split.
  - destruct (len =? 0); [discriminate|].
    apply IH in H. cbn in H. exact H.
Qed.

(** X17.  [Append] returns, and when it returns [true] the clip holds the
    samples it held and the [len] new ones, in its sequence or in its
    append buffer, at the offset and the rate it had; the append buffer
    holds at most the maximal block size.  The sequence adds to its
    samples the number it is given, and every ideal append length is
    positive and at most the maximal block size. *)
Theorem Append_conserves (clip : t S) (buffer : list float)
    (len : sampleCount) :
  Append_adds ->
  (forall s : S,
     0 < Sequence.GetIdealAppendLen s
       <= Sequence.GetMaxBlockSize (mSequence clip)) ->
  0 <= mAppendBufferLen clip <= Sequence.GetMaxBlockSize (mSequence clip) ->
  0 <= len ->
  exists ok clip',
    Append clip buffer len = Some (ok, clip')
    /\ (ok = true ->
        total_samples clip' = total_samples clip + len
        /\ 0 <= mAppendBufferLen clip'
             <= Sequence.GetMaxBlockSize (mSequence clip)
        /\ mOffset clip' = mOffset clip
        /\ mRate clip' = mRate clip).
Proof.
  intros Hadd Hideal Hl Hlen.
  pose proof (Append_returns clip buffer len Hideal Hl Hlen) as Hret.
  destruct (Append clip buffer len) as [[ok clip']|] eqn:E; [|contradiction].
  exists ok, clip'. split; [reflexivity|]. intros ->.
  unfold Append in E. cbv zeta in E.
  match type of E with
  | match Append_loop ?f ?c ?a ?b ?d ?e with _ => _ end = _ =>
      pose proof (Append_loop_total Hadd a Hideal f c b d e) as Ht;
      destruct (Append_loop f c a b d e) as [[done|failed]|] eqn:EL;
      [|discriminate|discriminate]
  end.
  inversion E; subst clip'.
  destruct (Ht done) as (T1 & T2 & T3 & T4).
  - apply Hideal.
  - destruct (mAppendBuffer clip); exact Hl.
  - exact Hlen.
  - reflexivity.
  - assert (T1' : total_samples done = total_samples clip + len).
    { rewrite T1. destruct (mAppendBuffer clip); reflexivity. }
    assert (T3' : mOffset done = mOffset clip).
    { rewrite T3. destruct (mAppendBuffer clip); reflexivity. }
    assert (T4' : mRate done = mRate clip).
    { rewrite T4. destruct (mAppendBuffer clip); reflexivity. }
    split; [exact T1'|]. split; [exact T2|].
    split; [exact T3' | exact T4'].
Qed.

(** X18.  [Flush] that returns [true] leaves the append buffer empty and the
    clip with the samples it had, so that its end time is what it was,
    and a second [Flush] then does nothing; [Flush] that returns [false]
    leaves the append buffer and the generation counter as they were. *)
Theorem Flush_empties (clip clip' : t S) (ok : bool) :
  Append_adds ->
  0 <= mAppendBufferLen clip ->
  Flush clip = (ok, clip') ->
  (ok = true ->
   mAppendBufferLen clip' = 0
   /\ total_samples clip' = total_samples clip
   /\ GetEndTime clip' = GetEndTime clip
   /\ Flush clip' = (true, clip'))
  /\ (ok = false ->
      mAppendBufferLen clip' = mAppendBufferLen clip
      /\ mAppendBuffer clip' = mAppendBuffer clip
      /\ mDirty clip' = mDirty clip).
Proof.
  intros Hadd Hl. unfold Flush.
  destruct (mAppendBufferLen clip >? 0) eqn:E.
  - destruct (Sequence.Append _ _ _) as [success s] eqn:EA.
    intros H. inversion H; subst ok clip'. clear H.
    destruct success.
    + apply Hadd in EA. split; [intros _ | discriminate].
      unfold total_samples, GetEndTime.
      cbn [MarkChanged with_Dirty with_AppendBuffer with_Sequence mOffset
           mSequence mAppendBufferLen mRate Z.gtb Z.compare].
      rewrite EA, Z.add_0_r. repeat split.
    + split; [discriminate | intros _]. repeat split.
  - intros H. inversion H; subst ok clip'. clear H.
    split; [intros _ | discriminate].
    assert (E0 : mAppendBufferLen clip = 0) by lia.
    repeat split; [exact E0|]. now rewrite E.
Qed.

(** X19.  A mutator that returns [false] has left both caches alone; it has
    left the generation counter alone too, unless it is [SetSamples],
    which marks the clip as changed whatever the sequence answers. *)
Theorem failed_mutation (m : @Mutator S) (clip clip' : t S) :
  run m clip = Some (false, clip') ->
  mWaveCache clip' = mWaveCache clip
  /\ mSpecCache clip' = mSpecCache clip
  /\ mDirty clip'
     = if is_SetSamples m then wrap_int (mDirty clip + 1) else mDirty clip.
Proof.
  intros H. destruct m; cbn [run is_SetSamples] in *.
  - (* SetSamples *)
    unfold SetSamples in H. destruct (Sequence.Set_ _ _ _ _) as [r s].
    inversion H; subst. repeat split.
  - (* Append *)
    unfold Append in H. cbv zeta in H.
    match type of H with
    | match Append_loop ?f ?c ?a ?b ?d ?e with _ => _ end = _ =>
        pose proof (Append_loop_failed f c a b d e) as Hf;
        destruct (Append_loop f c a b d e) as [[done|failed]|];
        [discriminate| |discriminate]
    end.
    inversion H; subst. destruct (Hf clip' eq_refl) as (F1 & F2 & F3).
    rewrite F1, F2, F3. destruct (mAppendBuffer clip); repeat split.
  - (* AppendAlias *)
    unfold AppendAlias in H. destruct (Sequence.AppendAlias _ _ _) as [r s].
    destruct r; inversion H; subst. repeat split.
  - (* AppendCoded *)
    unfold AppendCoded in H. destruct (Sequence.AppendCoded _ _ _) as [r s].
    destruct r; inversion H; subst. repeat split.
  - (* Flush *)
    unfold Flush in H. destruct (mAppendBufferLen clip >? 0);
      [|discriminate].
    destruct (Sequence.Append _ _ _) as [r s].
    destruct r; inversion H; subst. repeat split.
  - (* CreateFromCopy *)
    unfold CreateFromCopy in H. destruct (Sequence.Copy _ _ _);
      inversion H; subst. repeat split.
  - (* Paste *)
    unfold Paste in H. cbv zeta in H.
    match type of H with
    | Some (match ?p with Some _ => _ | None => _ end) = _ =>
        destruct p as [pastedClip|]
    end.
    + destruct (Sequence.Paste _ _ _) as [ok s].
      destruct ok; inversion H; subst. repeat split.
    + inversion H; subst. repeat split.
  - (* InsertSilence *)
    unfold InsertSilence in H. destruct (Sequence.InsertSilence _ _ _) as [ok s].
    destruct ok; inversion H; subst. repeat split.
  - (* Clear *)
    unfold Clear in H. destruct (Sequence.Delete _ _ _) as [ok s].
    destruct ok; inversion H; subst. repeat split.
  - (* ClearAndAddCutLine *)
    unfold ClearAndAddCutLine in H.
    destruct (Qlt_bool (GetEndTime clip) t0 || Qlt_bool t1 (GetStartTime clip));
      [discriminate|].
    destruct (fst (CreateFromCopy _ _ _ _)).
    + destruct (Sequence.Delete _ _ _) as [ok s].
      destruct ok; inversion H; subst. repeat split.
    + inversion H; subst. repeat split.
  - (* SetRate *)
    discriminate.
  - (* Resample *)
    unfold Resample in H. destruct (rate =? mRate clip); [discriminate|].
    destruct (Sequence.Resampled _ _ _); inversion H; subst. repeat split.
Qed.

End Appending.

Lemma Count_Append_adds : Append_adds (api := Counting.Count_API).
Proof. intros s s' buffer len H. cbn in H. inversion H. reflexivity. Qed.

(** A clip of three samples and one more in its append buffer, to which
    five samples are appended: it then holds nine. *)
Lemma Append_conserves_witness :
  exists clip',
    WaveClip.Append (api := Counting.Count_API) (Counting.clip_of 3 1 1)
                    [1; 2; 3; 4; 5]%Q 5
    = Some (true, clip')
    /\ total_samples (api := Counting.Count_API) clip' = 9
    /\ WaveClip.mAppendBufferLen clip' = 2.
Proof.
  destruct (Append_conserves (api := Counting.Count_API)
              (Counting.clip_of 3 1 1) [1; 2; 3; 4; 5]%Q 5)
    as (ok & clip' & E & H).
  - exact Count_Append_adds.
  - intros s. cbn. lia.
  - cbn. lia.
  - lia.
  - vm_compute in E. inversion E; subst ok clip'. clear E.
    eexists. split; [reflexivity|].
    destruct (H eq_refl) as (T & _).
    split; [exact T | reflexivity].
Defined.

(** A clip of three samples and two more in its append buffer, flushed. *)
Lemma Flush_empties_witness :
  exists clip',
    WaveClip.Flush (api := Counting.Count_API) (Counting.clip_of 3 1 2)
    = (true, clip')
    /\ WaveClip.mSequence clip' = 5
    /\ WaveClip.mAppendBufferLen clip' = 0
    /\ WaveClip.Flush (api := Counting.Count_API) clip' = (true, clip').
Proof.
  eexists. split; [reflexivity|]. split; [reflexivity|].
  match goal with
  | |- WaveClip.mAppendBufferLen ?c = 0 /\ _ =>
      destruct (Flush_empties (api := Counting.Count_API)
                  (Counting.clip_of 3 1 2) c true Count_Append_adds)
        as [H _]
  end.
  - cbn. lia.
  - reflexivity.
  - destruct (H eq_refl) as (A & _ & _ & D). split; [exact A | exact D].
Defined.

(** The clip with two samples in its append buffer and a sequence whose
    block files cannot be read: [Flush] fails and the generation is still
    0. *)
Lemma failed_mutation_witness :
  exists clip',
    WaveClip.run (api := Example.ListSequence_API) WaveClip.CallFlush
                 (Example.two_and_two false)
    = Some (false, clip')
    /\ WaveClip.mDirty clip' = 0
    /\ WaveClip.mAppendBufferLen clip' = 2.
Proof.
  eexists. split; [reflexivity|].
  match goal with
  | |- WaveClip.mDirty ?c = 0 /\ _ =>
      destruct (failed_mutation (api := Example.ListSequence_API)
                  WaveClip.CallFlush (Example.two_and_two false) c eq_refl)
        as (_ & _ & H)
  end.
  split; [exact H | reflexivity].
Defined.

(** ** Cut lines *)

Section CutLines.

Context {S : Type} {api : Sequence.API S}.

Import WaveClip.

(** X20.  [RemoveCutLine] returns [true] exactly when [FindCutLine] finds a cut
    line at the position; it then removes one cut line, the first one at
    the position, and otherwise it leaves the list as it is. *)
Theorem RemoveCutLine_FindCutLine (clip : t S) (mCutLines : list (t S))
    (cutLinePosition : double) :
  let found := fst (RemoveCutLine clip mCutLines cutLinePosition) in
  let rest := snd (RemoveCutLine clip mCutLines cutLinePosition) in
  (found = true <-> FindCutLine clip mCutLines cutLinePosition <> None)
  /\ (found = false -> rest = mCutLines)
  /\ (found = true ->
      exists before cutline after,
        mCutLines = before ++ cutline :: after
        /\ rest = before ++ after
        /\ at_position clip cutline cutLinePosition = true
        /\ Forall (fun c => at_position clip c cutLinePosition = false)
                  before).
Proof.
  cbv zeta. induction mCutLines as [|c cuts IH]; cbn [RemoveCutLine FindCutLine].
  - cbn. split; [split; [discriminate | congruence]|].
    split; [reflexivity | discriminate].
  - destruct (at_position clip c cutLinePosition) eqn:E.
    + cbn [fst snd]. split; [split; [discriminate | reflexivity]|].
      split; [discriminate|]. intros _.
      exists [], c, cuts. repeat split; auto.
    + destruct (RemoveCutLine clip cuts cutLinePosition) as [found rest'].
      cbn [fst snd] in *. destruct IH as (I1 & I2 & I3).
      split; [exact I1|]. split.
      * intros Hf. now rewrite (I2 Hf).
      * intros Hf. destruct (I3 Hf) as (b & x & a & -> & -> & Hx & Hb).
        exists (c :: b), x, a. repeat split; auto.
Qed.

End CutLines.

(** A clip with two cut lines, at the times 1 and 3: the cut line at time
    3 is found and removed, and the one at time 1 is left. *)
Lemma RemoveCutLine_FindCutLine_witness :
  let cuts :=
    [WaveClip.SetOffset Example.four_samples 1;
     WaveClip.SetOffset Example.four_samples 3] in
  WaveClip.RemoveCutLine Example.four_samples cuts 3
  = (true, [WaveClip.SetOffset Example.four_samples 1])
  /\ WaveClip.FindCutLine (api := Example.ListSequence_API)
       Example.four_samples cuts 3 <> None.
Proof.
  cbv zeta. split; [reflexivity|].
  apply (RemoveCutLine_FindCutLine (api := Example.ListSequence_API)
           Example.four_samples
           [WaveClip.SetOffset Example.four_samples 1;
            WaveClip.SetOffset Example.four_samples 3] 3).
  reflexivity.
Defined.

(** ** The columns that land in the append buffer *)

Section Filling.

Context {S : Type} {api : Sequence.API S} {math : Math}.



(** With nothing in the append buffer no column is taken from it. *)
Lemma append_columns_nothing (where_ : list sampleCount) (numSamples : Z)
    (mAppendBuffer : list float) (mAppendBufferLen : sampleCount)
    (a p1 : Z) (cols : Columns.t) :
  mAppendBufferLen <= 0 ->
  append_columns where_ numSamples mAppendBuffer mAppendBufferLen a p1 cols
  = (cols, false).
Proof.
  intros Hl. unfold append_columns.
  match goal with
  | |- fold_left ?f _ _ = _ =>
      assert (Hstep : forall i, f (cols, false) i = (cols, false))
  end.
  { intros i. cbv beta iota zeta.
    set (left := at_ 0 where_ i - numSamples).
    set (right := at_ 0 where_ (i + 1) - numSamples).
    match goal with
    | |- (if ?c then _ else _) = _ => assert (E : c = false)
    end.
    { destruct (right >? mAppendBufferLen) eqn:E1;
        destruct (left <? 0) eqn:E2; lia. }
    rewrite E. reflexivity. }
  induction (range a p1) as [|i l IH]; cbn [fold_left]; [reflexivity|].
  rewrite Hstep. exact IH.
Qed.

(** X22.  With nothing in the append buffer the columns that no cache provides
    are all fetched from the sequence, in one call on the whole range
    [p0 .. p1), and the arrays change through that call alone. *)
Theorem fill_without_append_buffer (sequence : S)
    (mAppendBuffer : list float) (mAppendBufferLen : sampleCount)
    (where_ : list sampleCount) (p0 p1 : Z) (cols : Columns.t) :
  mAppendBufferLen <= 0 ->
  fill sequence mAppendBuffer mAppendBufferLen where_ p0 p1 cols
  = if p1 >? p0
    then
      let '(ok, got) :=
        Sequence.GetWaveDisplay sequence
          (columns_slice cols p0 (p1 - p0)) (p1 - p0)
          (slice where_ p0 (p1 - p0 + 1)) in
      (Some ok, columns_blit cols p0 (p1 - p0) got)
    else (None, cols).
Proof.
  intros Hl. unfold fill, after_append_buffer. cbv zeta.
  rewrite append_columns_nothing by exact Hl.
  destruct (p1 >? p0) eqn:E; [|reflexivity].
  destruct (first_beyond _ _ _ _ <? p1); rewrite E; reflexivity.
Qed.

End Filling.

(** The clip of four samples, whose append buffer is empty, asked for the
    columns 0 and 1 of a mapping of two samples per column: both are
    fetched from the sequence. *)
Lemma fill_without_append_buffer_witness :
  let r :=
    fill (api := Example.ListSequence_API) (math := Example.exact_sqrt)
         (Example.mkSeq [1; 2; 3; 4]%Q true) [] 0 [0; 2; 4] 0 2
         (Columns.mk [0; 0]%Q [0; 0]%Q [0; 0]%Q [7; 7]) in
  fst r = Some true
  /\ Columns.min (snd r) = [1; 3]%Q
  /\ Columns.max (snd r) = [2; 4]%Q
  /\ Columns.bl (snd r) = [0; 0].
Proof.
  cbv zeta.
  rewrite (fill_without_append_buffer (api := Example.ListSequence_API)
             (math := Example.exact_sqrt)) by lia.
  repeat split.
Defined.
